(** * The resilient request client of the frontend ([frontend/lib/api.ts])

    A shallow embedding of the HTTP client layer: the retry loop of
    [fetchWithRetry], the wiring of abort signals inside one attempt,
    [parseErrorResponse], and the typed wrappers built on them.

    Conventions.
    - A JavaScript string is the list of its UTF-16 code units.
    - A JavaScript number is a binary64 float (Rocq's primitive floats).
    - An [async] function is a computation that appends to a log of the
      observable operations (timers, transport calls, backoff sleeps) and
      settles either resolved or rejected.
    - What the network, the timers and the caller's signal do during an
      attempt is supplied by an environment, one entry per attempt.
    - Texts chosen by the JavaScript engine (the digits of a number, the
      messages of the errors it raises) are supplied by a [Host]. *)

From Stdlib Require Import List NArith ZArith Bool Ascii String Lia Arith PrimFloat.
From Stdlib Require Import FloatOps SpecFloat.
From Stdlib Require DecimalString.
Import ListNotations.

Set Implicit Arguments.
Set Warnings "-register-all".

(** ** Strings *)

Definition jsstring := list N.

(** A source literal (ASCII) as a JavaScript string. *)
Definition lit (s : string) : jsstring :=
  map N_of_ascii (list_ascii_of_string s).

Fixpoint str_eqb (a b : jsstring) : bool :=
  match a, b with
  | [], [] => true
  | x :: a', y :: b' => N.eqb x y && str_eqb a' b'
  | _, _ => false
  end.

(** [!s] is false exactly for the non-empty strings. *)
Definition str_truthy (s : jsstring) : bool :=
  match s with [] => false | _ :: _ => true end.

(** The code units [String.prototype.trim] removes: ECMAScript's WhiteSpace
    (TAB, VT, FF, ZWNBSP, and the Unicode space separators) and
    LineTerminator (LF, CR, LS, PS). *)
Definition is_whitespace (c : N) : bool :=
  let eq := N.eqb c in
  (eq 0x09 || eq 0x0A || eq 0x0B || eq 0x0C || eq 0x0D || eq 0x20 || eq 0xA0
   || eq 0x1680 || (N.leb 0x2000 c && N.leb c 0x200A)
   || eq 0x2028 || eq 0x2029 || eq 0x202F || eq 0x205F || eq 0x3000
   || eq 0xFEFF)%N.

Fixpoint trimStart (s : jsstring) : jsstring :=
  match s with
  | [] => []
  | c :: rest => if is_whitespace c then trimStart rest else s
  end.

Definition trimEnd (s : jsstring) : jsstring := rev (trimStart (rev s)).

Definition trim (s : jsstring) : jsstring := trimEnd (trimStart s).

(** Decimal digits of an integer, as in a template literal [`${n}`]. *)
Definition decimal (n : N) : jsstring :=
  lit (DecimalString.NilZero.string_of_uint (N.to_uint n)).

(** ** Numbers *)

(** [!x] is true for [0], [-0] and [NaN]. *)
Definition number_truthy (x : float) : bool :=
  negb (PrimFloat.eqb x 0%float || negb (PrimFloat.eqb x x)).

(** ** JSON values, as [response.json()] yields them *)

Inductive json : Type :=
| JNull
| JBool (b : bool)
| JNum (x : float)
| JStr (s : jsstring)
| JArr (items : list json)
| JObj (fields : list (jsstring * json)).

Definition truthy (v : json) : bool :=
  match v with
  | JNull => false
  | JBool b => b
  | JNum x => number_truthy x
  | JStr s => str_truthy s
  | JArr _ | JObj _ => true
  end.

(** Own property of a parsed object, whose properties [fields] lists; the
    first binding of a key is its value. *)
Fixpoint lookup (key : jsstring) (fields : list (jsstring * json)) : option json :=
  match fields with
  | [] => None
  | (k, v) :: rest => if str_eqb k key then Some v else lookup key rest
  end.

(** ** Errors *)

Record JsError : Type := mkError { name : jsstring; message : jsstring }.

(** [new Error(msg)] for a string [msg]. *)
Definition Error (msg : jsstring) : JsError := mkError (lit "Error") msg.

(** A thrown value: an [Error] instance ([DOMException] and [TypeError]
    included), or any other value, of which only [String(value)] matters. *)
Inductive thrown : Type :=
| Err (e : JsError)
| NonErr (text : jsstring).

(** ** The host: what the JavaScript engine chooses *)

Record Host : Type := {
  (** [Number::toString]: the digits printed for a number. *)
  Number_toString : float -> jsstring;
  (** message of the [TypeError] raised by reading property [p] of [null] *)
  null_read_text : jsstring -> jsstring;
  (** message of the [TypeError] raised when an object cannot be converted
      to a primitive *)
  to_primitive_text : jsstring;
  (** message of the [DOMException] named [AbortError] *)
  abort_text : jsstring;
  (** message of the [DOMException] named [TimeoutError] *)
  timeout_text : jsstring
}.

(** ** Settled promises *)

(** How an [await] ends; a [throw] inside an [async] function is a
    rejection. *)
Inductive settled (A : Type) : Type :=
| Resolved (a : A)
| Rejected (e : thrown).
Arguments Resolved {A} a.
Arguments Rejected {A} e.

Definition TypeError (msg : jsstring) : thrown := Err (mkError (lit "TypeError") msg).

Definition DOMException (msg nm : jsstring) : thrown := Err (mkError nm msg).

Section Engine.

Context (host : Host).

(** [String(v)] of a parsed JSON value. Arrays print through
    [Array.prototype.join]; a plain object prints through
    [Object.prototype.toString] unless an own [toString] property (never
    callable in parsed JSON) hides it. *)
Fixpoint ToString (v : json) : settled jsstring :=
  match v with
  | JNull => Resolved (lit "null")
  | JBool b => Resolved (if b then lit "true" else lit "false")
  | JNum x => Resolved (Number_toString host x)
  | JStr s => Resolved s
  | JArr items =>
      (fix join (l : list json) (first : bool) : settled jsstring :=
         match l with
         | [] => Resolved []
         | e :: rest =>
             match (match e with JNull => Resolved [] | _ => ToString e end) with
             | Rejected err => Rejected err
             | Resolved s =>
                 match join rest false with
                 | Rejected err => Rejected err
                 | Resolved t => Resolved ((if first then [] else lit ",") ++ s ++ t)
                 end
             end
         end) items true
  | JObj fields =>
      match lookup (lit "toString") fields with
      | Some _ => Rejected (TypeError (to_primitive_text host))
      | None => Resolved (lit "[object Object]")
      end
  end.

(** [data.key] for the keys this module reads ([error], [message],
    [details], [tasks]), none of which a built-in prototype defines:
    reading a property of [null] throws, a primitive or an array has no
    such property. *)
Definition get (data : json) (key : jsstring) : settled (option json) :=
  match data with
  | JNull => Rejected (TypeError (null_read_text host key))
  | JObj fields => Resolved (lookup key fields)
  | _ => Resolved None
  end.

End Engine.

(** [a || b] where [a] may be [undefined]. *)
Definition or_else (a : option json) (b : json) : json :=
  match a with
  | Some v => if truthy v then v else b
  | None => b
  end.

(** ** Responses *)

Record Response : Type := {
  status : N;
  statusText : jsstring;
  (** how [response.json()] settles: the parsed body, or the parser's error *)
  body : settled json
}.

(** [response.ok] *)
Definition ok (response : Response) : bool :=
  (200 <=? status response)%N && (status response <=? 299)%N.

Module ApiError.
Record t : Type := { error : json; message : json; details : option json }.
End ApiError.

Section ParseError.

Context (host : Host).

Definition parseErrorResponse (response : Response) : ApiError.t :=
  let fallback :=
    {| ApiError.error := JStr (lit "HTTP_ERROR");
       ApiError.message :=
         JStr (lit "HTTP " ++ decimal (status response) ++ lit ": "
               ++ statusText response);
       ApiError.details := None |} in
  match body response with
  | Rejected _ => fallback
  | Resolved data =>
      match get host data (lit "error"),
            get host data (lit "message"),
            get host data (lit "details") with
      | Resolved e, Resolved m, Resolved d =>
          {| ApiError.error := or_else e (JStr (lit "UNKNOWN_ERROR"));
             ApiError.message := or_else m (JStr (lit "An unknown error occurred"));
             ApiError.details := d |}
      | _, _, _ => fallback
      end
  end.

End ParseError.

(** ** Abort signals inside one attempt *)

Module Abort.

(** The signals one attempt of [fetchWithRetry] can see: the caller's
    [options.signal], the attempt's own [controller.signal], and
    [combinedController.signal]. *)
Inductive signal : Type := originalSignal | controller | combinedController.

Definition signal_eqb (a b : signal) : bool :=
  match a, b with
  | originalSignal, originalSignal
  | controller, controller
  | combinedController, combinedController => true
  | _, _ => false
  end.

(** The signals already aborted, and the registered ['abort'] listeners:
    [(s, c)] stands for [s.addEventListener('abort', () => c.abort())]. *)
Record store : Type := {
  aborted : list signal;
  listeners : list (signal * signal)
}.

Definition is_aborted (s : signal) (st : store) : bool :=
  existsb (signal_eqb s) (aborted st).

Definition addEventListener (s target : signal) (st : store) : store :=
  {| aborted := aborted st; listeners := listeners st ++ [(s, target)] |}.

Definition targets (s : signal) (st : store) : list signal :=
  map snd (filter (fun l => signal_eqb (fst l) s) (listeners st)).

(** [c.abort()]: nothing when the signal is already aborted; otherwise the
    signal becomes aborted and its listeners run, in registration order.
    Every nested call marks one more of the three signals, so a depth of
    three is never exceeded. *)
Fixpoint abort (depth : nat) (c : signal) (st : store) : store :=
  match depth with
  | O => st
  | S depth' =>
      if is_aborted c st then st
      else
        fold_left (fun st' target => abort depth' target st')
                  (targets c st)
                  {| aborted := c :: aborted st; listeners := listeners st |}
  end.

(** The caller's signal as an attempt finds and sees it. *)
Inductive caller : Type :=
| quiet            (* not aborted, and stays so while the attempt is in flight *)
| already_aborted  (* aborted before the attempt starts *)
| fires_in_flight. (* aborts while the attempt is in flight *)

(** Lines 78-97 of [fetchWithRetry]: the store after the wiring, and the
    signal handed to the transport. [options_signal] tells whether the
    caller passed [options.signal]. *)
Definition wire (options_signal : bool) (c : caller) : store * signal :=
  let fresh :=
    {| aborted := match c with already_aborted => [originalSignal] | _ => [] end;
       listeners := [] |} in
  if options_signal then
    (addEventListener combinedController controller
       (addEventListener originalSignal combinedController fresh),
     combinedController)
  else (fresh, controller).

End Abort.

(** ** What happens during one attempt *)

(** What the transport does if nothing aborts it before the deadline of
    the call: [REQUEST_TIMEOUT] for an attempt of [fetchWithRetry], the
    5000 ms of [AbortSignal.timeout] for the health probe. *)
Inductive transport : Type :=
| responds (response : Response)
| fails (error : thrown)
| pending.   (* still in flight when the deadline has elapsed *)

Record attempt_env : Type := {
  network : transport;
  caller_signal : Abort.caller
}.

(** ** The log of observable operations *)

Inductive callback : Type :=
| controller_abort   (* [() => controller.abort()] *)
| reject_timeout     (* [() => reject(new Error('Request timeout'))] *)
| resolve_sleep.     (* [resolve] of [sleep] *)

Inductive method : Type := GET | POST | PUT | DELETE.

Inductive endpoint : Type :=
| chat | health | tasks | task_by_id | tasks_upcoming | export_sheet
| api_query | api_export_query_results | api_etp_tank_capacity.

Inductive fetch_signal : Type :=
| of_controller (s : Abort.signal)
| AbortSignal_timeout (ms : N).

Inductive io : Type :=
| setTimeout (cb : callback) (ms : N)
| clearTimeout
| fetch (m : method) (url : endpoint) (signal : fetch_signal).

(** ** Asynchronous computations *)

Definition async (A : Type) : Type := list io -> settled A * list io.

Definition ret {A} (a : A) : async A := fun log => (Resolved a, log).

Definition throw {A} (e : thrown) : async A := fun log => (Rejected e, log).

Definition bind {A B} (c : async A) (k : A -> async B) : async B :=
  fun log =>
    match c log with
    | (Resolved a, log') => k a log'
    | (Rejected e, log') => (Rejected e, log')
    end.

Definition try_catch {A} (c : async A) (handler : thrown -> async A) : async A :=
  fun log =>
    match c log with
    | (Resolved a, log') => (Resolved a, log')
    | (Rejected e, log') => handler e log'
    end.

Definition emit (e : io) : async unit := fun log => (Resolved tt, log ++ [e]).

Definition settle {A} (s : settled A) : async A := fun log => (s, log).

Definition run {A} (c : async A) : settled A * list io := c [].

Declare Scope async_scope.
Delimit Scope async_scope with async.
Notation "x <- c ;; k" := (bind c (fun x => k))
  (at level 61, c at next level, right associativity) : async_scope.
Notation "c ;; k" := (bind c (fun _ => k))
  (at level 61, right associativity) : async_scope.
Open Scope async_scope.

(** Reading the log. *)
Definition is_fetch (e : io) : bool :=
  match e with fetch _ _ _ => true | _ => false end.

Definition attempts (log : list io) : nat := List.length (filter is_fetch log).

Fixpoint delays (log : list io) : list N :=
  match log with
  | [] => []
  | setTimeout resolve_sleep ms :: rest => ms :: delays rest
  | _ :: rest => delays rest
  end.

(** ** Constants of the client *)

Definition REQUEST_TIMEOUT : N := 120000.

Definition MAX_RETRIES : nat := 3.

Definition RETRY_DELAY : N := 1000.

Definition sleep (ms : N) : async unit := emit (setTimeout resolve_sleep ms).

(** The rejection of [createTimeout]'s promise is what [race] below turns
    into the outcome of [Promise.race]. *)
Definition createTimeout (timeout : N) : async unit :=
  emit (setTimeout reject_timeout timeout).

(** The part of [RequestInit] that matters here: the method, and whether
    the caller passed a [signal]. *)
Record RequestInit : Type := {
  req_method : method;
  req_signal : bool
}.

Section Client.

Context (host : Host).

(** Environment: what happens during the [n]-th transport call. *)
Context (env : nat -> attempt_env).

Definition AbortError : thrown := DOMException (abort_text host) (lit "AbortError").

Definition TimeoutError : thrown := DOMException (timeout_text host) (lit "TimeoutError").

(** [Promise.race([fetch(url, {...options, signal}), createTimeout(REQUEST_TIMEOUT)])].
    The transport rejects with [AbortError] as soon as the signal it was
    given is aborted. When nothing settles it earlier, the two timers of
    the attempt fire in the order they were set: first
    [controller.abort()], then the rejection of [createTimeout]. *)
Definition race (signal : Abort.signal) (st : Abort.store) (e : attempt_env)
  : settled Response :=
  let st1 :=
    match caller_signal e with
    | Abort.fires_in_flight => Abort.abort 3 Abort.originalSignal st
    | _ => st
    end in
  if Abort.is_aborted signal st1 then Rejected AbortError
  else
    match network e with
    | responds response => Resolved response
    | fails error => Rejected error
    | pending =>
        let st2 := Abort.abort 3 Abort.controller st1 in
        if Abort.is_aborted signal st2 then Rejected AbortError
        else Rejected (Err (Error (lit "Request timeout")))
    end.

(** Lines 78-104: one attempt, up to and including [clearTimeout]. *)
Definition attempt_once (url : endpoint) (options : RequestInit) (e : attempt_env)
  : async Response :=
  emit (setTimeout controller_abort REQUEST_TIMEOUT) ;;
  let (st, signal) := Abort.wire (req_signal options) (caller_signal e) in
  emit (fetch (req_method options) url (of_controller signal)) ;;
  createTimeout REQUEST_TIMEOUT ;;
  response <- settle (race signal st e) ;;
  emit clearTimeout ;;
  ret response.

(** How one iteration of the [for] loop ends. *)
Inductive control : Type :=
| Return (response : Response)
| Continue (lastError : option JsError).

Section Loop.

Variables (url : endpoint) (options : RequestInit) (retries : nat).

(** The body of the loop: the [try] block and its [catch]. The delay
    [RETRY_DELAY * Math.pow(2, attempt)] is computed in [N], which is what
    the doubles give as long as the product is finite, that is for
    [attempt <= 1014]; from attempt 1015 on the code passes [Infinity] to
    [sleep], which this definition does not follow. *)
Definition iteration (attempt : nat) (lastError : option JsError) : async control :=
  try_catch
    (response <- attempt_once url options (env attempt) ;;
     if (400 <=? status response)%N && (status response <? 500)%N then
       ret (Return response)
     else if negb (ok response) && (attempt <? retries) then
       sleep (RETRY_DELAY * 2 ^ N.of_nat attempt) ;;
       ret (Continue lastError)
     else ret (Return response))
    (fun error =>
       let lastError :=
         match error with
         | Err e => e                 (* [error instanceof Error] *)
         | NonErr text => Error text  (* [new Error(String(error))] *)
         end in
       if str_eqb (name lastError) (lit "AbortError") then
         throw (Err (Error (lit "Request timeout")))
       else if attempt <? retries then
         sleep (RETRY_DELAY * 2 ^ N.of_nat attempt) ;;
         ret (Continue (Some lastError))
       else ret (Continue (Some lastError))).

(** [for (let attempt = 0; attempt <= retries; attempt++)], by recursion
    on the number of iterations left, [retries + 1 - attempt]; then the
    final [throw]. *)
Fixpoint loop (remaining attempt : nat) (lastError : option JsError) : async Response :=
  match remaining with
  | O =>
      throw (Err match lastError with
                 | Some e => e
                 | None => Error (lit "Request failed after retries")
                 end)
  | S remaining' =>
      c <- iteration attempt lastError ;;
      match c with
      | Return response => ret response
      | Continue lastError' => loop remaining' (S attempt) lastError'
      end
  end.

Definition fetchWithRetry : async Response := loop (S retries) 0 None.

End Loop.

(** [throw new Error(v)]: the constructor converts its argument with
    [ToString], which may itself throw. *)
Definition throw_new_Error {A} (v : json) : async A :=
  match ToString host v with
  | Resolved msg => throw (Err (Error msg))
  | Rejected e => throw e
  end.

(** The [catch] block shared by the wrappers that re-label a timeout. *)
Definition relabel {A} (timed_out failed : string) (error : thrown) : async A :=
  match error with
  | Err e =>
      if str_eqb (message e) (lit "Request timeout") then
        throw (Err (Error (lit timed_out)))
      else throw error
  | NonErr _ => throw (Err (Error (lit failed)))
  end.

(** *** The exported functions

    Arguments that only shape the URL or the request body are left out. *)

Definition sendChatMessage (message user_id : jsstring) : async json :=
  if negb (str_truthy message) || negb (str_truthy (trim message)) then
    throw (Err (Error (lit "Message cannot be empty")))
  else
    try_catch
      (response <- fetchWithRetry chat {| req_method := POST; req_signal := false |}
                     MAX_RETRIES ;;
       (if negb (ok response) then
          let error := parseErrorResponse host response in
          throw_new_Error
            (or_else (Some (ApiError.message error))
               (JStr (lit "HTTP error! status: " ++ decimal (status response))))
        else ret tt) ;;
       data <- settle (body response) ;;
       ret data)
      (relabel "Request timed out. Please check your connection and try again."
               "Failed to send message. Please try again.").

Definition checkApiHealth : async bool :=
  try_catch
    (emit (fetch GET health (AbortSignal_timeout 5000)) ;;
     response <-
       settle match network (env 0) with
              | responds response => Resolved response
              | fails error => Rejected error
              | pending => Rejected TimeoutError
              end ;;
     ret (ok response))
    (fun _ => ret false).

Definition createTask : async json :=
  response <- fetchWithRetry tasks {| req_method := POST; req_signal := false |}
                MAX_RETRIES ;;
  (if negb (ok response) then
     let error := parseErrorResponse host response in
     throw_new_Error (ApiError.message error)
   else ret tt) ;;
  settle (body response).

Definition listTasks : async json :=
  response <- fetchWithRetry tasks {| req_method := GET; req_signal := false |}
                MAX_RETRIES ;;
  (if negb (ok response) then
     let error := parseErrorResponse host response in
     throw_new_Error (ApiError.message error)
   else ret tt) ;;
  data <- settle (body response) ;;
  tasks <- settle (get host data (lit "tasks")) ;;
  ret (or_else tasks (JArr [])).

Definition updateTask : async json :=
  response <- fetchWithRetry task_by_id {| req_method := PUT; req_signal := false |}
                MAX_RETRIES ;;
  (if negb (ok response) then
     let error := parseErrorResponse host response in
     throw_new_Error (ApiError.message error)
   else ret tt) ;;
  settle (body response).

Definition deleteTask : async unit :=
  response <- fetchWithRetry task_by_id {| req_method := DELETE; req_signal := false |}
                MAX_RETRIES ;;
  if negb (ok response) then
    let error := parseErrorResponse host response in
    throw_new_Error (ApiError.message error)
  else ret tt.

Definition getUpcomingTasks : async json :=
  response <- fetchWithRetry tasks_upcoming {| req_method := GET; req_signal := false |}
                MAX_RETRIES ;;
  (if negb (ok response) then
     let error := parseErrorResponse host response in
     throw_new_Error (ApiError.message error)
   else ret tt) ;;
  data <- settle (body response) ;;
  tasks <- settle (get host data (lit "tasks")) ;;
  ret (or_else tasks (JArr [])).

Definition exportToSheet : async json :=
  response <- fetchWithRetry export_sheet {| req_method := POST; req_signal := false |}
                MAX_RETRIES ;;
  (if negb (ok response) then
     let error := parseErrorResponse host response in
     throw_new_Error (ApiError.message error)
   else ret tt) ;;
  settle (body response).

Definition processNaturalLanguageQuery (query : jsstring) : async json :=
  if negb (str_truthy query) || negb (str_truthy (trim query)) then
    throw (Err (Error (lit "Query cannot be empty")))
  else
    try_catch
      (response <- fetchWithRetry api_query {| req_method := POST; req_signal := false |}
                     MAX_RETRIES ;;
       (if negb (ok response) then
          let error := parseErrorResponse host response in
          throw_new_Error
            (or_else (Some (ApiError.message error))
               (JStr (lit "HTTP error! status: " ++ decimal (status response))))
        else ret tt) ;;
       data <- settle (body response) ;;
       ret data)
      (relabel "Query timed out. Please check your connection and try again."
               "Failed to process query. Please try again.").

Record ETPTankCapacityRequest : Type := {
  date : jsstring;
  etp_inlet_tank_value : float;
  sheet_id : option jsstring
}.

Definition getETPTankCapacity (request : ETPTankCapacityRequest) : async json :=
  if negb (str_truthy (date request))
     || negb (number_truthy (etp_inlet_tank_value request)) then
    throw (Err (Error (lit "Date and ETP Inlet tank value are required")))
  else
    try_catch
      (response <- fetchWithRetry api_etp_tank_capacity
                     {| req_method := POST; req_signal := false |} MAX_RETRIES ;;
       (if negb (ok response) then
          let error := parseErrorResponse host response in
          throw_new_Error
            (or_else (Some (ApiError.message error))
               (JStr (lit "HTTP error! status: " ++ decimal (status response))))
        else ret tt) ;;
       data <- settle (body response) ;;
       ret data)
      (relabel "Request timed out. Please check your connection and try again."
               "Failed to get ETP tank capacity. Please try again.").

Record ExportQueryResultsRequest : Type := {
  query : jsstring;
  raw_data : option json;   (* [any]: [None] is [undefined] *)
  formatted_response : jsstring
}.

Definition exportQueryResults (request : ExportQueryResultsRequest) : async json :=
  if negb (str_truthy (query request))
     || negb (match raw_data request with Some v => truthy v | None => false end) then
    throw (Err (Error (lit "Query and raw_data are required")))
  else
    try_catch
      (response <- fetchWithRetry api_export_query_results
                     {| req_method := POST; req_signal := false |} MAX_RETRIES ;;
       (if negb (ok response) then
          let error := parseErrorResponse host response in
          throw_new_Error
            (or_else (Some (ApiError.message error))
               (JStr (lit "HTTP error! status: " ++ decimal (status response))))
        else ret tt) ;;
       data <- settle (body response) ;;
       ret data)
      (relabel "Request timed out. Please check your connection and try again."
               "Failed to export query results. Please try again.").

End Client.

(** *** More exported functions *)

Section MoreFunctions.

Context (host : Host) (env : nat -> attempt_env).

Definition getTask : async json :=
  response <- fetchWithRetry host env task_by_id
                {| req_method := GET; req_signal := false |} MAX_RETRIES ;;
  (if negb (ok response) then
     let error := parseErrorResponse host response in
     throw_new_Error host (ApiError.message error)
   else ret tt) ;;
  settle (body response).

(** The four functions of the Google Docs API post to [`${API_URL}/docs`].
    The labels of [endpoint] name the URLs of the functions above only;
    [docs_url] stands for the label of this URL in the log. *)
Variable docs_url : endpoint.

Definition listDocs : async json :=
  response <- fetchWithRetry host env docs_url
                {| req_method := POST; req_signal := false |} MAX_RETRIES ;;
  (if negb (ok response) then
     let error := parseErrorResponse host response in
     throw_new_Error host (ApiError.message error)
   else ret tt) ;;
  data <- settle (body response) ;;
  docs <- settle (get host data (lit "docs")) ;;
  ret (or_else docs (JArr [])).

Definition readDoc : async json :=
  response <- fetchWithRetry host env docs_url
                {| req_method := POST; req_signal := false |} MAX_RETRIES ;;
  (if negb (ok response) then
     let error := parseErrorResponse host response in
     throw_new_Error host (ApiError.message error)
   else ret tt) ;;
  data <- settle (body response) ;;
  content <- settle (get host data (lit "content")) ;;
  ret (or_else content (JStr (lit ""))).

Definition createDoc : async json :=
  response <- fetchWithRetry host env docs_url
                {| req_method := POST; req_signal := false |} MAX_RETRIES ;;
  (if negb (ok response) then
     let error := parseErrorResponse host response in
     throw_new_Error host (ApiError.message error)
   else ret tt) ;;
  data <- settle (body response) ;;
  doc <- settle (get host data (lit "doc")) ;;
  match doc with
  | Some v => if truthy v then ret v
              else throw (Err (Error (lit "Failed to create document")))
  | None => throw (Err (Error (lit "Failed to create document")))
  end.

Definition summarizeDoc : async json :=
  response <- fetchWithRetry host env docs_url
                {| req_method := POST; req_signal := false |} MAX_RETRIES ;;
  (if negb (ok response) then
     let error := parseErrorResponse host response in
     throw_new_Error host (ApiError.message error)
   else ret tt) ;;
  data <- settle (body response) ;;
  summary <- settle (get host data (lit "summary")) ;;
  ret (or_else summary (JStr (lit ""))).

End MoreFunctions.

(** * The message formatter ([frontend/components/MessageFormatter.tsx]) *)

Module Formatter.

(** ** String methods *)

Fixpoint startsWith (prefix s : jsstring) : bool :=
  match prefix, s with
  | [], _ => true
  | p :: prefix', c :: s' => N.eqb p c && startsWith prefix' s'
  | _ :: _, [] => false
  end.

Definition endsWith (suffix s : jsstring) : bool :=
  startsWith (rev suffix) (rev s).

Fixpoint includes (needle s : jsstring) : bool :=
  startsWith needle s
  || match s with
     | [] => false
     | _ :: s' => includes needle s'
     end.

(** [s.split(sep)] for a separator of one code unit; [cur] holds the code
    units of the piece being read, last first. *)
Fixpoint split_from (sep : N) (s cur : jsstring) : list jsstring :=
  match s with
  | [] => [rev cur]
  | c :: s' =>
      if N.eqb c sep then rev cur :: split_from sep s' []
      else split_from sep s' (c :: cur)
  end.

Definition split (sep : N) (s : jsstring) : list jsstring := split_from sep s [].

(** [s.slice(from, -back)]. *)
Definition slice (from back : nat) (s : jsstring) : jsstring :=
  firstn (List.length s - back - from) (skipn from s).

Definition star : N := 42.
Definition bar : N := 124.
Definition line_feed : N := 10.
Definition bullet : jsstring := [0x2022]%N.

(** ** The two regular expressions on lines *)

(** [/^\s*\|/] *)
Definition matches_leading_bar (s : jsstring) : bool :=
  startsWith [bar] (trimStart s).

(** The class [[\s\-\|]]. *)
Definition in_separator_class (c : N) : bool :=
  is_whitespace c || N.eqb c 45 || N.eqb c bar.

(** [[\s\-\|]+\|$] from a position on; [some] tells that the class has
    already matched a code unit. *)
Fixpoint matches_separator_tail (some : bool) (s : jsstring) : bool :=
  match s with
  | [] => false
  | c :: s' =>
      (some && N.eqb c bar && match s' with [] => true | _ => false end)
      || (in_separator_class c && matches_separator_tail true s')
  end.

(** [/^\|[\s\-\|]+\|$/] *)
Definition matches_separator_row (s : jsstring) : bool :=
  match s with
  | c :: s' => N.eqb c bar && matches_separator_tail false s'
  | [] => false
  end.

(** ** Splitting on bold spans

    [text.split(re)] where [re] captures two stars, one or more code units
    other than a star, and two stars. *)

Fixpoint non_stars (s : jsstring) : jsstring :=
  match s with
  | c :: s' => if N.eqb c star then [] else c :: non_stars s'
  | [] => []
  end.

(** The length of the match of the expression at the start of [s]. The
    class cannot give back a code unit to the closing stars, so the match
    is the greedy one or none. *)
Definition match_bold (s : jsstring) : option nat :=
  match s with
  | a :: b :: rest =>
      if N.eqb a star && N.eqb b star then
        let run := non_stars rest in
        match run, skipn (List.length run) rest with
        | _ :: _, c :: d :: _ =>
            if N.eqb c star && N.eqb d star then Some (List.length run + 4) else None
        | _, _ => None
        end
      else None
  | _ => None
  end.

(** The loop of [RegExp.prototype[Symbol.split]]: at each position the
    expression is tried; a match closes the pending piece, is itself
    added (it is the capture), and the scan resumes after it. [steps]
    bounds the positions left, [pending] holds the piece being read, last
    code unit first. *)
Fixpoint split_bold_from (steps : nat) (s pending : jsstring) : list jsstring :=
  match steps, s with
  | S steps', c :: s' =>
      match match_bold s with
      | Some n => rev pending :: firstn n s :: split_bold_from steps' (skipn n s) []
      | None => split_bold_from steps' s' (c :: pending)
      end
  | _, _ => [rev pending ++ s]
  end.

Definition split_bold (text : jsstring) : list jsstring :=
  split_bold_from (List.length text) text [].

(** ** React nodes *)

(** A [className]: none, a literal, or a call of [cn], whose code is not
    part of these sources and whose arguments are kept. *)
Inductive classes : Type :=
| no_class
| class (s : string)
| cn (args : list (option string)).

(** A text child or an element; [key] is the [key] attribute. An array
    child is listed in place among the children. *)
Inductive node : Type :=
| text (s : jsstring)
| element (tag : string) (key : option nat) (className : classes)
          (children : list node).

Fixpoint mapi_from {A B} (i : nat) (f : nat -> A -> B) (l : list A) : list B :=
  match l with
  | [] => []
  | a :: l' => f i a :: mapi_from (S i) f l'
  end.

(** [l.map((a, i) => f i a)] *)
Definition mapi {A B} (f : nat -> A -> B) (l : list A) : list B := mapi_from 0 f l.

(** ** [formatInlineText] *)

Definition emojis : list jsstring :=
  [[0xD83D; 0xDCCA]; [0xD83D; 0xDCC5]; [0xD83D; 0xDCCB];
   [0xD83D; 0xDD0D]; [0xD83D; 0xDCCD]; [0xD83D; 0xDCC8]]%N.

Definition is_bold (part : jsstring) : bool :=
  startsWith [star; star] part && endsWith [star; star] part
  && (4 <? List.length part).

Definition formatInlineText (s : jsstring) : list node :=
  mapi
    (fun index part =>
       if is_bold part then
         element "span" (Some index) (class "font-semibold text-foreground")
                 [text (slice 2 2 part)]
       else if existsb (fun e => includes e part) emojis then
         element "span" (Some index) (class "inline-flex items-center gap-1")
                 [text part]
       else element "span" (Some index) no_class [text part])
    (split_bold s).

(** ** [formatMessage] *)

(** The callback of [lines.forEach]: in every branch it pushes one
    element and returns. *)
Definition formatLine (lines : list jsstring) (index : nat) (line : jsstring) : node :=
  let trimmedLine := trim line in
  if negb (str_truthy trimmedLine) then
    element "div" (Some index) (class "h-2") []
  else if is_bold trimmedLine then
    let headerText := slice 2 2 trimmedLine in
    let headerClass :=
      if includes (lit "Answer") headerText || includes (lit "Found") headerText then
        "font-bold text-base sm:text-lg text-foreground mb-2 sm:mb-3 mt-3 sm:mt-4 first:mt-0 border-b border-border/30 pb-1.5 sm:pb-2"%string
      else if includes (lit "Details") headerText || includes (lit "Context") headerText then
        "font-medium text-foreground mb-1.5 sm:mb-2 mt-2 sm:mt-3 first:mt-0 text-xs sm:text-sm uppercase tracking-wide text-muted-foreground"%string
      else "font-semibold text-foreground mb-2 mt-3 first:mt-0"%string in
    element "div" (Some index) (class headerClass) [text headerText]
  else if startsWith bullet trimmedLine then
    let bulletText := trim (skipn 1 trimmedLine) in
    let formattedText := formatInlineText bulletText in
    let bulletClass := "flex items-start gap-1.5 sm:gap-2 mb-1 sm:mb-1.5 ml-1 sm:ml-2"%string in
    let textClass :=
      if includes (lit "Source:") bulletText || includes (lit "Row:") bulletText then
        "text-[10px] sm:text-xs text-muted-foreground flex-1 font-mono break-all"%string
      else if includes (lit ":") bulletText then
        "text-xs sm:text-sm text-foreground flex-1"%string
      else "text-xs sm:text-sm text-muted-foreground flex-1"%string in
    element "div" (Some index) (class bulletClass)
      [element "span" None (class "text-primary mt-1 text-xs font-bold") [text bullet];
       element "span" None (class textClass) formattedText]
  else if includes [bar] trimmedLine
          && (startsWith [bar] trimmedLine || matches_leading_bar trimmedLine) then
    if matches_separator_row trimmedLine then
      element "div" (Some index) (class "border-t border-border my-1") []
    else
      let cells :=
        filter str_truthy (map trim (split bar trimmedLine)) in
      let isHeader :=
        match nth_error lines (index + 1) with
        | Some next =>
            let nextLine := trim next in
            str_truthy nextLine && matches_separator_row nextLine
        | None => false
        end in
      element "div" (Some index)
        (cn [Some "grid gap-1 sm:gap-2 py-1.5 sm:py-2 px-2 sm:px-3 rounded-md mb-1 overflow-x-auto"%string;
             Some (if isHeader
                   then "bg-primary/5 font-medium text-foreground border border-primary/20"
                   else "bg-muted/30 text-xs sm:text-sm")%string;
             Some (if Nat.leb (List.length cells) 2 then "grid-cols-2"%string
                   else if Nat.leb (List.length cells) 3
                        then "grid-cols-2 sm:grid-cols-3"%string
                   else if Nat.leb (List.length cells) 4
                        then "grid-cols-2 sm:grid-cols-4"%string
                   else if Nat.leb (List.length cells) 5
                        then "grid-cols-2 sm:grid-cols-3 md:grid-cols-5"%string
                        else "grid-cols-2 sm:grid-cols-3 md:grid-cols-6"%string)])
        (mapi
           (fun cellIndex cell =>
              element "div" (Some cellIndex)
                (cn [Some "truncate break-words"%string;
                     Some (if isHeader
                           then "font-semibold text-center text-xs sm:text-sm"
                           else "text-left")%string])
                (formatInlineText cell))
           (firstn 6 cells))
  else if str_eqb trimmedLine (lit "---") || startsWith (lit "===") trimmedLine then
    element "div" (Some index) (class "border-t border-border my-4") []
  else if startsWith (lit "   ") line || startsWith (lit "     ") line then
    let indentedText := trim line in
    element "div" (Some index)
      (class "text-[10px] sm:text-xs text-muted-foreground ml-3 sm:ml-6 mb-1")
      (formatInlineText indentedText)
  else if startsWith [star] trimmedLine && endsWith [star] trimmedLine
          && negb (startsWith [star; star] trimmedLine) then
    let italicText := slice 1 1 trimmedLine in
    element "div" (Some index)
      (class "text-xs sm:text-sm text-muted-foreground italic mb-1.5 sm:mb-2")
      [text italicText]
  else
    element "div" (Some index)
      (class "text-xs sm:text-sm text-muted-foreground mb-1.5 sm:mb-2 leading-relaxed")
      (formatInlineText trimmedLine).

Definition formatMessage (s : jsstring) : list node :=
  let lines := split line_feed s in
  mapi (formatLine lines) lines.

Definition MessageFormatter (content : jsstring) (className : option string) : node :=
  element "div" None (cn [Some "space-y-1"%string; className]) (formatMessage content).

End Formatter.

(** * The task manager component ([TaskManager], handlers) *)

(** A handler is run from the state of the component and the log so far
    to the state and the log once it has settled: the state setters it
    calls are applied in the order of the calls. What the handlers only
    pass on to the URL or the request body ([userId], [filter], the task
    being sent) is left out, as for the functions they call, and so is
    the form event of [handleCreateTask]. *)

Module TaskManager.

Record TaskCreateRequest : Type := {
  title : jsstring;
  description : option jsstring;
  priority : option jsstring;
  due_date : option jsstring
}.

Record state : Type := {
  tasks : json;
  loading : bool;
  error : option jsstring;
  showForm : bool;
  newTask : TaskCreateRequest
}.

Definition setTasks (v : json) (st : state) : state :=
  {| tasks := v; loading := loading st; error := error st;
     showForm := showForm st; newTask := newTask st |}.

Definition setLoading (v : bool) (st : state) : state :=
  {| tasks := tasks st; loading := v; error := error st;
     showForm := showForm st; newTask := newTask st |}.

Definition setError (v : option jsstring) (st : state) : state :=
  {| tasks := tasks st; loading := loading st; error := v;
     showForm := showForm st; newTask := newTask st |}.

Definition setShowForm (v : bool) (st : state) : state :=
  {| tasks := tasks st; loading := loading st; error := error st;
     showForm := v; newTask := newTask st |}.

Definition setNewTask (v : TaskCreateRequest) (st : state) : state :=
  {| tasks := tasks st; loading := loading st; error := error st;
     showForm := showForm st; newTask := v |}.

(** [err instanceof Error ? err.message : fallback] *)
Definition message_or (fallback : string) (err : thrown) : jsstring :=
  match err with
  | Err e => message e
  | NonErr _ => lit fallback
  end.

Section Handlers.

Context (host : Host).

Definition loadTasks (env : nat -> attempt_env) (st : state) (log : list io)
  : state * list io :=
  let st := setLoading true st in
  let st := setError None st in
  match listTasks host env log with
  | (Resolved taskList, log') => (setLoading false (setTasks taskList st), log')
  | (Rejected err, log') =>
      (setLoading false (setError (Some (message_or "Failed to load tasks" err)) st),
       log')
  end.

(** [env_create] and [env_list] are the environments of the two calls. *)
Definition handleCreateTask (env_create env_list : nat -> attempt_env)
           (st : state) (log : list io) : state * list io :=
  if negb (str_truthy (trim (title (newTask st)))) then (st, log)
  else
    let st := setLoading true st in
    let st := setError None st in
    match createTask host env_create log with
    | (Resolved _, log') =>
        let st :=
          setNewTask {| title := lit ""; description := Some (lit "");
                        priority := Some (lit "medium"); due_date := None |} st in
        let st := setShowForm false st in
        let (st, log'') := loadTasks env_list st log' in
        (setLoading false st, log'')
    | (Rejected err, log') =>
        (setLoading false (setError (Some (message_or "Failed to create task" err)) st),
         log')
    end.

Definition handleUpdateTask (env_update env_list : nat -> attempt_env)
           (st : state) (log : list io) : state * list io :=
  let st := setLoading true st in
  let st := setError None st in
  match updateTask host env_update log with
  | (Resolved _, log') =>
      let (st, log'') := loadTasks env_list st log' in
      (setLoading false st, log'')
  | (Rejected err, log') =>
      (setLoading false (setError (Some (message_or "Failed to update task" err)) st),
       log')
  end.

(** [confirmed] is the answer to the [confirm] dialog. *)
Definition handleDeleteTask (confirmed : bool) (env_delete env_list : nat -> attempt_env)
           (st : state) (log : list io) : state * list io :=
  if negb confirmed then (st, log)
  else
    let st := setLoading true st in
    let st := setError None st in
    match deleteTask host env_delete log with
    | (Resolved _, log') =>
        let (st, log'') := loadTasks env_list st log' in
        (setLoading false st, log'')
    | (Rejected err, log') =>
        (setLoading false (setError (Some (message_or "Failed to delete task" err)) st),
         log')
    end.

End Handlers.

End TaskManager.

(** * The chat component ([AnimatedAIChat], handlers) *)

(** What a handler does besides setting state. *)
Inductive scheduled : Type :=
| clear_recent_command   (* [() => setRecentCommand(null)] *)
| clear_error            (* [() => setError(null)] *)
| clear_export_success.  (* [() => setExportSuccess(null)] *)

Inductive effect : Type :=
| preventDefault
| call_handleSendMessage
| later (what : scheduled) (ms : N)    (* [setTimeout(what, ms)] *)
| window_open (url : json).            (* [window.open(url, '_blank')] *)

(** ** The command palette *)

Module Palette.

Record CommandSuggestion : Type := { label : jsstring; prefix : jsstring }.

Definition commandSuggestions : list CommandSuggestion :=
  [ {| label := lit "Clone UI"; prefix := lit "/clone" |};
    {| label := lit "Import Figma"; prefix := lit "/figma" |};
    {| label := lit "Create Page"; prefix := lit "/page" |};
    {| label := lit "Improve"; prefix := lit "/improve" |} ].

(** The state the palette uses. [activeSuggestion] only ever holds small
    integers, kept as integers here. *)
Record state : Type := {
  value : jsstring;
  showCommandPalette : bool;
  activeSuggestion : Z;
  recentCommand : option jsstring
}.

(** [l.findIndex(p)], from position [i] on. *)
Fixpoint findIndex_from {A} (p : A -> bool) (l : list A) (i : Z) : Z :=
  match l with
  | [] => (-1)%Z
  | a :: l' => if p a then i else findIndex_from p l' (i + 1)%Z
  end.

Definition findIndex {A} (p : A -> bool) (l : list A) : Z := findIndex_from p l 0%Z.

(** The effect that runs when [value] has changed. *)
Definition on_value_change (st : state) : state :=
  if Formatter.startsWith (lit "/") (value st)
     && negb (Formatter.includes (lit " ") (value st)) then
    let matchingSuggestionIndex :=
      findIndex (fun cmd => Formatter.startsWith (value st) (prefix cmd))
                commandSuggestions in
    {| value := value st; showCommandPalette := true;
       activeSuggestion :=
         if (0 <=? matchingSuggestionIndex)%Z then matchingSuggestionIndex else (-1)%Z;
       recentCommand := recentCommand st |}
  else
    {| value := value st; showCommandPalette := false;
       activeSuggestion := activeSuggestion st; recentCommand := recentCommand st |}.

Definition length_of_suggestions : Z := Z.of_nat (List.length commandSuggestions).

(** [handleKeyDown], for the key [key] with or without shift. [None] is
    the [TypeError] of reading [prefix] of [undefined], should
    [activeSuggestion] ever point outside [commandSuggestions]. *)
Definition handleKeyDown (key : jsstring) (shiftKey : bool) (st : state)
  : option (state * list effect) :=
  if showCommandPalette st then
    if str_eqb key (lit "ArrowDown") then
      Some ({| value := value st; showCommandPalette := showCommandPalette st;
               activeSuggestion :=
                 (if activeSuggestion st <? length_of_suggestions - 1
                  then activeSuggestion st + 1 else 0)%Z;
               recentCommand := recentCommand st |},
            [preventDefault])
    else if str_eqb key (lit "ArrowUp") then
      Some ({| value := value st; showCommandPalette := showCommandPalette st;
               activeSuggestion :=
                 (if 0 <? activeSuggestion st
                  then activeSuggestion st - 1 else length_of_suggestions - 1)%Z;
               recentCommand := recentCommand st |},
            [preventDefault])
    else if str_eqb key (lit "Tab") || str_eqb key (lit "Enter") then
      if (0 <=? activeSuggestion st)%Z then
        match nth_error commandSuggestions (Z.to_nat (activeSuggestion st)) with
        | Some selectedCommand =>
            Some ({| value := prefix selectedCommand ++ lit " ";
                     showCommandPalette := false;
                     activeSuggestion := activeSuggestion st;
                     recentCommand := Some (label selectedCommand) |},
                  [preventDefault; later clear_recent_command 3500])
        | None => None
        end
      else Some (st, [preventDefault])
    else if str_eqb key (lit "Escape") then
      Some ({| value := value st; showCommandPalette := false;
               activeSuggestion := activeSuggestion st;
               recentCommand := recentCommand st |},
            [preventDefault])
    else Some (st, [])
  else if str_eqb key (lit "Enter") && negb shiftKey then
    if str_truthy (trim (value st)) then Some (st, [preventDefault; call_handleSendMessage])
    else Some (st, [preventDefault])
  else Some (st, []).

(** [removeAttachment]: the updater given to [setAttachments]. *)
Fixpoint filter_index_from {A} (keep : nat -> bool) (l : list A) (i : nat) : list A :=
  match l with
  | [] => []
  | a :: l' =>
      if keep i then a :: filter_index_from keep l' (S i)
      else filter_index_from keep l' (S i)
  end.

Definition removeAttachment (index : nat) (prev : list jsstring) : list jsstring :=
  filter_index_from (fun i => negb (Nat.eqb i index)) prev 0.

End Palette.

(** ** Export and tank capacity *)

Module Panel.

Record state : Type := {
  error : option json;
  exportingToSheets : option nat;
  exportSuccess : option (nat * json);
  isLoadingETP : bool;
  etpData : option json;
  showETPModal : bool;
  etpDate : jsstring;
  etpInletValue : jsstring
}.

Definition setError (v : option json) (st : state) : state :=
  {| error := v; exportingToSheets := exportingToSheets st;
     exportSuccess := exportSuccess st; isLoadingETP := isLoadingETP st;
     etpData := etpData st; showETPModal := showETPModal st;
     etpDate := etpDate st; etpInletValue := etpInletValue st |}.

Definition setExportingToSheets (v : option nat) (st : state) : state :=
  {| error := error st; exportingToSheets := v;
     exportSuccess := exportSuccess st; isLoadingETP := isLoadingETP st;
     etpData := etpData st; showETPModal := showETPModal st;
     etpDate := etpDate st; etpInletValue := etpInletValue st |}.

Definition setExportSuccess (v : option (nat * json)) (st : state) : state :=
  {| error := error st; exportingToSheets := exportingToSheets st;
     exportSuccess := v; isLoadingETP := isLoadingETP st;
     etpData := etpData st; showETPModal := showETPModal st;
     etpDate := etpDate st; etpInletValue := etpInletValue st |}.

Definition setIsLoadingETP (v : bool) (st : state) : state :=
  {| error := error st; exportingToSheets := exportingToSheets st;
     exportSuccess := exportSuccess st; isLoadingETP := v;
     etpData := etpData st; showETPModal := showETPModal st;
     etpDate := etpDate st; etpInletValue := etpInletValue st |}.

Definition setEtpData (v : option json) (st : state) : state :=
  {| error := error st; exportingToSheets := exportingToSheets st;
     exportSuccess := exportSuccess st; isLoadingETP := isLoadingETP st;
     etpData := v; showETPModal := showETPModal st;
     etpDate := etpDate st; etpInletValue := etpInletValue st |}.

Definition setShowETPModal (v : bool) (st : state) : state :=
  {| error := error st; exportingToSheets := exportingToSheets st;
     exportSuccess := exportSuccess st; isLoadingETP := isLoadingETP st;
     etpData := etpData st; showETPModal := v;
     etpDate := etpDate st; etpInletValue := etpInletValue st |}.

(** What a handler leaves: the state, its effects, the log. *)
Definition settled_handler : Type := state * list effect * list io.

(** [err instanceof Error ? err.message : fallback] *)
Definition message_or (fallback : string) (err : thrown) : json :=
  match err with
  | Err e => JStr (message e)
  | NonErr _ => JStr (lit fallback)
  end.

Record QueryData : Type := {
  qd_query : jsstring;
  qd_raw_data : option json;
  qd_formatted_response : option jsstring
}.

Section Handlers.

Context (host : Host).

(** [parseFloat], a built-in of the engine. *)
Context (parseFloat : jsstring -> float).

(** The [try] block of [handleExportToSheets] after the call has
    resolved: reading a field of [result] may throw. *)
Definition export_resolved (messageIndex : nat) (result : json) (st : state)
  : settled (state * list effect) :=
  match get host result (lit "success") with
  | Rejected x => Rejected x
  | Resolved success =>
      let proceed_to_url := match success with Some v => truthy v | None => false end in
      match (if proceed_to_url then get host result (lit "sheet_url")
             else Resolved None) with
      | Rejected x => Rejected x
      | Resolved (Some url) =>
          if truthy url then
            Resolved (setExportSuccess (Some (messageIndex, url)) st,
                      [window_open url; later clear_export_success 5000])
          else
            match get host result (lit "error") with
            | Rejected x => Rejected x
            | Resolved e =>
                Resolved (setError (Some (or_else e (JStr (lit "Failed to export to Google Sheets")))) st,
                          [later clear_error 5000])
            end
      | Resolved None =>
          match get host result (lit "error") with
          | Rejected x => Rejected x
          | Resolved e =>
              Resolved (setError (Some (or_else e (JStr (lit "Failed to export to Google Sheets")))) st,
                        [later clear_error 5000])
          end
      end
  end.

Definition handleExportToSheets (env : nat -> attempt_env) (messageIndex : nat)
           (queryData : QueryData) (st : state) (log : list io) : settled_handler :=
  match qd_raw_data queryData with
  | Some raw =>
      if truthy raw then
        let st := setExportingToSheets (Some messageIndex) st in
        let st := setError None st in
        let request :=
          {| query := qd_query queryData;
             raw_data := qd_raw_data queryData;
             formatted_response :=
               match qd_formatted_response queryData with
               | Some f => if str_truthy f then f else lit ""
               | None => lit ""
               end |} in
        let caught (err : thrown) (log' : list io) : settled_handler :=
          (setExportingToSheets None
             (setError (Some (message_or "Failed to export to Google Sheets" err)) st),
           [later clear_error 5000], log') in
        match exportQueryResults host env request log with
        | (Resolved result, log') =>
            match export_resolved messageIndex result st with
            | Resolved (st', effects) => (setExportingToSheets None st', effects, log')
            | Rejected err => caught err log'
            end
        | (Rejected err, log') => caught err log'
        end
      else
        (setError (Some (JStr (lit "No data available to export"))) st,
         [later clear_error 5000], log)
  | None =>
      (setError (Some (JStr (lit "No data available to export"))) st,
       [later clear_error 5000], log)
  end.

Definition handleETPSubmit (env : nat -> attempt_env) (st : state) (log : list io)
  : settled_handler :=
  if negb (str_truthy (etpDate st)) || negb (str_truthy (etpInletValue st)) then
    (setError (Some (JStr (lit "Please enter both date and ETP Inlet tank value"))) st,
     [later clear_error 5000], log)
  else
    let st := setIsLoadingETP true st in
    let st := setError None st in
    let caught (err : thrown) (log' : list io) : settled_handler :=
      (setIsLoadingETP false
         (setError (Some (message_or "Failed to get ETP tank capacity" err)) st),
       [later clear_error 5000], log') in
    match getETPTankCapacity host env
            {| date := etpDate st;
               etp_inlet_tank_value := parseFloat (etpInletValue st);
               sheet_id := None |} log with
    | (Resolved result, log') =>
        match get host result (lit "success") with
        | Rejected x => caught x log'
        | Resolved success =>
            if match success with Some v => truthy v | None => false end then
              (setIsLoadingETP false (setShowETPModal false (setEtpData (Some result) st)),
               [], log')
            else
              match get host result (lit "message") with
              | Rejected x => caught x log'
              | Resolved m =>
                  (setIsLoadingETP false
                     (setError (Some (or_else m (JStr (lit "Failed to get ETP tank capacity"))))
                        st),
                   [later clear_error 5000], log')
              end
        end
    | (Rejected err, log') => caught err log'
    end.

End Handlers.

End Panel.

(** * The query test page ([TestQueriesPage], [handleQuery]) *)

Module QueryPage.

(** [result] is [any], with [JNull] for [null]; [error] is a string or
    [null], which is [None]. *)
Record state : Type := {
  query : jsstring;
  result : json;
  loading : bool;
  error : option jsstring
}.

Definition handleQuery (host : Host) (env : nat -> attempt_env) (st : state)
           (log : list io) : state * list io :=
  if negb (str_truthy (trim (query st))) then (st, log)
  else
    match processNaturalLanguageQuery host env (query st) log with
    | (Resolved response, log') =>
        ({| query := query st; result := response; loading := false;
            error := None |}, log')
    | (Rejected err, log') =>
        ({| query := query st; result := JNull; loading := false;
            error := Some match err with
                          | Err e => message e
                          | NonErr _ => lit "Query failed"
                          end |}, log')
    end.

End QueryPage.

(** ** Vocabulary of the statements *)

(** How the [Promise.race] of one attempt settles, with the wiring of
    lines 78-97 in place. *)
Definition attempt_outcome (host : Host) (options : RequestInit) (e : attempt_env)
  : settled Response :=
  let (st, signal) := Abort.wire (req_signal options) (caller_signal e) in
  race host signal st e.

(** The signal handed to the transport. *)
Definition effective_signal (options : RequestInit) : Abort.signal :=
  snd (Abort.wire (req_signal options) Abort.quiet).

Definition is_4xx (response : Response) : bool :=
  (400 <=? status response)%N && (status response <? 500)%N.

(** [lastError] of the [catch] block. *)
Definition as_error (x : thrown) : JsError :=
  match x with Err e => e | NonErr text => Error text end.

(** The outcomes after which the loop goes on while budget remains: a
    response that is neither 4xx nor ok, or an error not named
    [AbortError]. *)
Definition retried (o : settled Response) : bool :=
  match o with
  | Resolved response => negb (is_4xx response) && negb (ok response)
  | Rejected x => negb (str_eqb (name (as_error x)) (lit "AbortError"))
  end.

(** The fallback of [parseErrorResponse]. *)
Definition http_error (st : N) (text : jsstring) : ApiError.t :=
  {| ApiError.error := JStr (lit "HTTP_ERROR");
     ApiError.message := JStr (lit "HTTP " ++ decimal st ++ lit ": " ++ text);
     ApiError.details := None |}.

(** The backoff after the failed attempt [n]. *)
Definition backoff (n : nat) : N := RETRY_DELAY * 2 ^ N.of_nat n.

(** The same delay as line 113 computes it, in doubles:
    [RETRY_DELAY * Math.pow(2, attempt)], the power of two being exact
    while it is finite. *)
Fixpoint Math_pow_2 (attempt : nat) : float :=
  match attempt with
  | O => 1%float
  | S attempt' => (2 * Math_pow_2 attempt')%float
  end.

Definition backoff_double (attempt : nat) : float :=
  (1000 * Math_pow_2 attempt)%float.

(** The double [f] is the natural number [v]. *)
Definition is_number (f : float) (v : N) : bool :=
  match Prim2SF f with
  | S754_finite false m e =>
      if (0 <=? e)%Z then (Z.pos m * 2 ^ e =? Z.of_N v)%Z
      else (Z.pos m =? Z.of_N v * 2 ^ (- e))%Z
  | _ => false
  end.

(** [fuel] backoffs in a row agree, from the one whose power of two is [p]
    and whose value in [N] is [v]. *)
Fixpoint backoffs_agree (fuel : nat) (p : float) (v : N) : bool :=
  match fuel with
  | O => true
  | S fuel' => is_number (1000 * p)%float v && backoffs_agree fuel' (2 * p)%float (2 * v)%N
  end.

(** The first attempt whose backoff is not a finite double: the delay of
    [iteration], computed in [N], is the delay of the code for the
    attempts below this one ([backoff_is_the_double] below). The
    statements that name the delays of a call over an arbitrary budget
    keep the attempts that sleep below it. *)
Definition first_infinite_backoff : nat := 1015.

(** The log read as a schedule: the transport calls and the pauses of
    [sleep], in the order in which they were made. *)
Inductive beat : Type :=
| call
| pause (ms : N).

Fixpoint schedule (log : list io) : list beat :=
  match log with
  | [] => []
  | fetch _ _ _ :: rest => call :: schedule rest
  | setTimeout resolve_sleep ms :: rest => pause ms :: schedule rest
  | _ :: rest => schedule rest
  end.

(** The schedule of a call that is decided by attempt [k]: each of the
    attempts [0 .. k - 1] is followed by its backoff, attempt [k] by
    nothing. *)
Definition retry_schedule (k : nat) : list beat :=
  flat_map (fun n => [call; pause (backoff n)]) (seq 0 k) ++ [call].

(** What one attempt that is answered by a response adds to the log. *)
Definition answered_attempt (url : endpoint) (options : RequestInit) : list io :=
  [setTimeout controller_abort REQUEST_TIMEOUT;
   fetch (req_method options) url (of_controller (effective_signal options));
   setTimeout reject_timeout REQUEST_TIMEOUT;
   clearTimeout].

(** ** Scenarios used to exercise the statements *)

(** A host with the message texts of V8. None of the scenarios below
    carries a number, so the digits of numbers are never asked for. *)
Definition sample_host : Host := {|
  Number_toString := fun _ => lit "NaN";
  null_read_text := fun p => lit "Cannot read properties of null (reading '" ++ p ++ lit "')";
  to_primitive_text := lit "Cannot convert object to primitive value";
  abort_text := lit "signal is aborted without reason";
  timeout_text := lit "The operation was aborted due to timeout"
|}.

(** Every attempt meets the same conditions. *)
Definition always (t : transport) (c : Abort.caller) : nat -> attempt_env :=
  fun _ => {| network := t; caller_signal := c |}.

(** The first [k] attempts meet [first], the later ones [then_]. *)
Definition switch_at (k : nat) (first then_ : attempt_env) : nat -> attempt_env :=
  fun n => if n <? k then first else then_.

Definition error_body (code msg : string) : json :=
  JObj [(lit "error", JStr (lit code)); (lit "message", JStr (lit msg))].

Definition server_error : Response :=
  {| status := 500; statusText := lit "Internal Server Error";
     body := Resolved (error_body "INTERNAL_ERROR" "Database unavailable") |}.

Definition not_found (data : json) : Response :=
  {| status := 404; statusText := lit "Not Found"; body := Resolved data |}.

Definition success (data : json) : Response :=
  {| status := 200; statusText := lit "OK"; body := Resolved data |}.

Definition no_signal (m : method) : RequestInit :=
  {| req_method := m; req_signal := false |}.

Definition with_signal (m : method) : RequestInit :=
  {| req_method := m; req_signal := true |}.

(** The log of a call that ends with its first attempt being answered. *)
Definition one_attempt_log (m : method) (url : endpoint) : list io :=
  [setTimeout controller_abort REQUEST_TIMEOUT;
   fetch m url (of_controller Abort.controller);
   setTimeout reject_timeout REQUEST_TIMEOUT;
   clearTimeout].

(** A property that [a || b] passes over: missing, or present and falsy. *)
Definition absent_or_falsy (o : option json) : Prop :=
  o = None \/ exists v, o = Some v /\ truthy v = false.

(** [activeSuggestion] is -1 or an index of [commandSuggestions]. *)
Definition palette_in_range (st : Palette.state) : Prop :=
  (-1 <= Palette.activeSuggestion st < Palette.length_of_suggestions)%Z.

(** * Properties *)

(** ** Strings *)

Lemma str_eqb_eq (a b : jsstring) : str_eqb a b = true <-> a = b.
Proof.
  revert b; induction a as [|x a IH]; intros [|y b]; simpl; split;
    try congruence; try reflexivity.
  - intros H. apply andb_true_iff in H as [Hx Hab].
    apply N.eqb_eq in Hx. apply IH in Hab. congruence.
  - intros H. injection H as -> ->. rewrite N.eqb_refl. simpl.
    apply IH. reflexivity.
Qed.

Lemma str_eqb_refl (a : jsstring) : str_eqb a a = true.
Proof. apply str_eqb_eq. reflexivity. Qed.

Lemma str_eqb_neq (a b : jsstring) : a <> b -> str_eqb a b = false.
Proof.
  intros H. destruct (str_eqb a b) eqn:E; [|reflexivity].
  apply str_eqb_eq in E. contradiction.
Qed.

Lemma trimStart_whitespace (s : jsstring) :
  forallb is_whitespace s = true -> trimStart s = [].
Proof.
  induction s as [|c s IH]; simpl; [reflexivity|].
  intros H. apply andb_true_iff in H as [Hc Hs]. rewrite Hc. auto.
Qed.

Lemma trim_whitespace (s : jsstring) :
  forallb is_whitespace s = true -> trim s = [].
Proof.
  intros H. unfold trim. rewrite (trimStart_whitespace s H). reflexivity.
Qed.

Lemma trimStart_nil_inv (s : jsstring) :
  trimStart s = [] -> forallb is_whitespace s = true.
Proof.
  induction s as [|c s IH]; simpl; [reflexivity|].
  destruct (is_whitespace c); [auto | discriminate].
Qed.

(** [trim] leaves nothing exactly when every code unit is whitespace. *)
Lemma trim_nil_iff (s : jsstring) :
  trim s = [] <-> forallb is_whitespace s = true.
Proof.
  split; [|apply trim_whitespace].
  unfold trim, trimEnd. intros H.
  assert (Hr : trimStart (rev (trimStart s)) = []).
  { rewrite <- (rev_involutive (trimStart (rev (trimStart s)))), H. reflexivity. }
  apply trimStart_nil_inv in Hr. rewrite forallb_forall in Hr.
  assert (Hts : trimStart s = []).
  { clear H. induction s as [|c s IH]; simpl in *; [reflexivity|].
    destruct (is_whitespace c) eqn:Ec; [apply IH; exact Hr|].
    exfalso. specialize (Hr c). rewrite Ec in Hr.
    discriminate Hr. apply in_rev. rewrite rev_involutive. left. reflexivity. }
  apply trimStart_nil_inv. exact Hts.
Qed.

(** ** The log *)

Lemma attempts_app (l1 l2 : list io) : attempts (l1 ++ l2) = attempts l1 + attempts l2.
Proof. unfold attempts. rewrite filter_app, length_app. reflexivity. Qed.

Lemma delays_app (l1 l2 : list io) : delays (l1 ++ l2) = delays l1 ++ delays l2.
Proof.
  induction l1 as [|e l1 IH]; simpl; [reflexivity|].
  destruct e as [[| |] ms| |]; simpl; rewrite IH; reflexivity.
Qed.

Lemma schedule_app (l1 l2 : list io) : schedule (l1 ++ l2) = schedule l1 ++ schedule l2.
Proof.
  induction l1 as [|e l1 IH]; simpl; [reflexivity|].
  destruct e as [[| |] ms| |]; simpl; rewrite IH; reflexivity.
Qed.

(** The transport calls and the backoffs of a log are those of its
    schedule. *)
Lemma attempts_of_schedule (log : list io) :
  attempts log
  = List.length (filter (fun b => match b with call => true | pause _ => false end)
                        (schedule log)).
Proof.
  unfold attempts. induction log as [|e log IH]; [reflexivity|].
  destruct e as [[| |] ms| |]; simpl; rewrite ?IH; reflexivity.
Qed.

Lemma delays_of_schedule (log : list io) :
  delays log
  = flat_map (fun b => match b with call => [] | pause ms => [ms] end) (schedule log).
Proof.
  induction log as [|e log IH]; [reflexivity|].
  destruct e as [[| |] ms| |]; simpl; rewrite ?IH; reflexivity.
Qed.

(** ** The backoff in doubles *)

Lemma backoff_succ (n : nat) : backoff (S n) = (2 * backoff n)%N.
Proof.
  unfold backoff. rewrite Nat2N.inj_succ, N.pow_succ_r'. lia.
Qed.

Lemma backoffs_agree_sound (fuel : nat) :
  forall n, backoffs_agree fuel (Math_pow_2 n) (backoff n) = true ->
            forall i, n <= i < n + fuel ->
                      is_number (backoff_double i) (backoff i) = true.
Proof.
  induction fuel as [|fuel IH]; intros n H i Hi; [lia|].
  cbn [backoffs_agree] in H. apply andb_true_iff in H as [Hn Hrest].
  destruct (Nat.eq_dec i n) as [->|Hne]; [exact Hn|].
  apply (IH (S n)); [|lia].
  rewrite backoff_succ. exact Hrest.
Qed.

(** For the attempts below [first_infinite_backoff] the delay computed in
    doubles is the natural number [backoff attempt]; for that attempt it
    is [Infinity]. *)
Lemma backoff_is_the_double (attempt : nat) :
  attempt < first_infinite_backoff ->
  is_number (backoff_double attempt) (backoff attempt) = true.
Proof.
  intros H. apply (@backoffs_agree_sound first_infinite_backoff 0); [|lia].
  vm_compute. reflexivity.
Qed.

Lemma backoff_overflows :
  PrimFloat.eqb (backoff_double first_infinite_backoff) infinity = true.
Proof. vm_compute. reflexivity. Qed.

(** ** One attempt *)

Section LoopFacts.

Context (host : Host) (env : nat -> attempt_env).
Context (url : endpoint) (options : RequestInit) (retries : nat).

Let outcome (n : nat) : settled Response := attempt_outcome host options (env n).

Let opening : list io :=
  [setTimeout controller_abort REQUEST_TIMEOUT;
   fetch (req_method options) url (of_controller (effective_signal options));
   setTimeout reject_timeout REQUEST_TIMEOUT].

Lemma attempt_once_run (n : nat) (log : list io) :
  attempt_once host url options (env n) log =
  match outcome n with
  | Resolved response => (Resolved response, log ++ opening ++ [clearTimeout])
  | Rejected x => (Rejected x, log ++ opening)
  end.
Proof.
  unfold outcome, attempt_outcome, opening, effective_signal, attempt_once,
    createTimeout, bind, emit, settle, ret.
  destruct (req_signal options); simpl;
    match goal with |- context [race ?h ?s ?st ?e] => destruct (race h s st e) end;
    repeat rewrite <- app_assoc; reflexivity.
Qed.

(** An iteration whose outcome is retried, with budget left: one transport
    call, then the backoff of that attempt. *)
Lemma iteration_retried (n : nat) (lastError : option JsError) (log : list io) :
  n < retries -> retried (outcome n) = true ->
  exists lastError' events,
    iteration host env url options retries n lastError log
      = (Resolved (Continue lastError'), log ++ events)
    /\ attempts events = 1 /\ delays events = [backoff n].
Proof.
  intros Hn Hr. apply Nat.ltb_lt in Hn.
  unfold iteration, try_catch, bind. rewrite attempt_once_run.
  unfold retried, is_4xx in Hr.
  destruct (outcome n) as [response|x].
  - apply andb_true_iff in Hr as [H4 Hok].
    apply negb_true_iff in H4. rewrite H4, Hok, Hn. simpl.
    exists lastError, (opening ++ [clearTimeout; setTimeout resolve_sleep (backoff n)]).
    unfold sleep, emit, ret, backoff, opening. simpl.
    repeat rewrite <- app_assoc. simpl. auto.
  - apply negb_true_iff in Hr. unfold as_error in Hr.
    exists (Some (as_error x)), (opening ++ [setTimeout resolve_sleep (backoff n)]).
    destruct x as [e|text]; simpl in *; try rewrite Hr; rewrite Hn;
      unfold sleep, emit, ret, bind, backoff, opening; simpl;
      repeat rewrite <- app_assoc; simpl; auto.
Qed.

(** A response ends the loop when it is 4xx, when it is ok, or when the
    budget is spent. *)
Lemma iteration_returns (n : nat) (lastError : option JsError) (log : list io)
      (response : Response) :
  outcome n = Resolved response ->
  is_4xx response = true \/ ok response = true \/ retries <= n ->
  exists events,
    iteration host env url options retries n lastError log
      = (Resolved (Return response), log ++ events)
    /\ attempts events = 1 /\ delays events = [].
Proof.
  intros Ho Hend.
  unfold iteration, try_catch, bind. rewrite attempt_once_run, Ho.
  exists (opening ++ [clearTimeout]).
  fold (is_4xx response).
  destruct (is_4xx response) eqn:H4; [unfold ret, opening; auto|].
  destruct Hend as [H|[H|H]]; [discriminate| |].
  - rewrite H. simpl. unfold ret, opening; auto.
  - apply Nat.ltb_ge in H. rewrite H, andb_false_r. unfold ret, opening; auto.
Qed.

(** An error named [AbortError] ends the call at once. *)
Lemma iteration_abort (n : nat) (lastError : option JsError) (log : list io)
      (x : thrown) :
  outcome n = Rejected x -> name (as_error x) = lit "AbortError" ->
  exists events,
    iteration host env url options retries n lastError log
      = (Rejected (Err (Error (lit "Request timeout"))), log ++ events)
    /\ attempts events = 1 /\ delays events = [].
Proof.
  intros Ho Hname.
  unfold iteration, try_catch, bind. rewrite attempt_once_run, Ho.
  exists opening. unfold as_error in Hname.
  destruct x as [e|text]; simpl in *; [|discriminate Hname].
  rewrite Hname. unfold throw, opening; auto.
Qed.

(** Any other error, once the budget is spent, is remembered and the loop
    condition is tested again. *)
Lemma iteration_last_error (n : nat) (lastError : option JsError) (log : list io)
      (x : thrown) :
  outcome n = Rejected x -> retried (Rejected x) = true -> retries <= n ->
  exists events,
    iteration host env url options retries n lastError log
      = (Resolved (Continue (Some (as_error x))), log ++ events)
    /\ attempts events = 1 /\ delays events = [].
Proof.
  intros Ho Hr Hn. apply Nat.ltb_ge in Hn.
  unfold iteration, try_catch, bind. rewrite attempt_once_run, Ho.
  exists opening. simpl in Hr. apply negb_true_iff in Hr. unfold as_error in Hr.
  destruct x as [e|text]; simpl in *; try rewrite Hr; rewrite Hn; unfold ret, opening; auto.
Qed.

(** The iteration in full: how it ends and what it adds to the log. *)
Lemma iteration_run (n : nat) (lastError : option JsError) (log : list io) :
  iteration host env url options retries n lastError log =
  match outcome n with
  | Resolved response =>
      if is_4xx response then
        (Resolved (Return response), log ++ opening ++ [clearTimeout])
      else if negb (ok response) && (n <? retries) then
        (Resolved (Continue lastError),
         log ++ opening ++ [clearTimeout; setTimeout resolve_sleep (backoff n)])
      else (Resolved (Return response), log ++ opening ++ [clearTimeout])
  | Rejected x =>
      if str_eqb (name (as_error x)) (lit "AbortError") then
        (Rejected (Err (Error (lit "Request timeout"))), log ++ opening)
      else if n <? retries then
        (Resolved (Continue (Some (as_error x))),
         log ++ opening ++ [setTimeout resolve_sleep (backoff n)])
      else (Resolved (Continue (Some (as_error x))), log ++ opening)
  end.
Proof.
  unfold iteration, try_catch, bind. rewrite attempt_once_run.
  destruct (outcome n) as [response|x].
  - fold (is_4xx response). destruct (is_4xx response); [reflexivity|].
    destruct (negb (ok response) && (n <? retries)); [|reflexivity].
    unfold sleep, emit, ret, backoff. rewrite <- !app_assoc. reflexivity.
  - unfold as_error.
    destruct x as [e|text]; cbn [name Error];
      match goal with |- context [str_eqb ?a ?b] => destruct (str_eqb a b) end;
      try reflexivity;
      destruct (n <? retries); try reflexivity;
      unfold sleep, emit, ret, bind, backoff; rewrite <- !app_assoc; reflexivity.
Qed.

(** An iteration makes one transport call; its backoff follows when the
    outcome is retried and budget is left, and only then does the loop
    go on. *)
Lemma iteration_schedule (n : nat) (lastError : option JsError) (log : list io) :
  exists c events,
    iteration host env url options retries n lastError log = (c, log ++ events)
    /\ if retried (outcome n) && (n <? retries) then
         schedule events = [call; pause (backoff n)]
         /\ exists lastError', c = Resolved (Continue lastError')
       else
         schedule events = [call]
         /\ match c with
            | Resolved (Continue _) => retries <= n
            | _ => True
            end.
Proof.
  rewrite iteration_run. unfold retried.
  destruct (outcome n) as [response|x].
  - destruct (is_4xx response); cbn [negb andb].
    + eexists _, _. split; [reflexivity|]. split; [reflexivity | exact I].
    + destruct (negb (ok response)); cbn [andb].
      * destruct (n <? retries) eqn:Hn.
        -- eexists _, _. split; [reflexivity|].
           split; [reflexivity | eexists; reflexivity].
        -- eexists _, _. split; [reflexivity|]. split; [reflexivity | exact I].
      * eexists _, _. split; [reflexivity|]. split; [reflexivity | exact I].
  - destruct (str_eqb (name (as_error x)) (lit "AbortError")); cbn [negb andb].
    + eexists _, _. split; [reflexivity|]. split; [reflexivity | exact I].
    + destruct (n <? retries) eqn:Hn.
      * eexists _, _. split; [reflexivity|].
        split; [reflexivity | eexists; reflexivity].
      * eexists _, _. split; [reflexivity|]. split; [reflexivity|].
        apply Nat.ltb_ge. exact Hn.
Qed.

(** ** The loop *)

(** [k] retried attempts in a row, all within the budget, take the loop
    from attempt [n] to attempt [n + k], with [k] transport calls and the
    backoffs of the attempts [n .. n + k - 1]. *)
Lemma loop_retried_prefix (k : nat) :
  forall (n remaining : nat) (lastError : option JsError) (log : list io),
    n + k <= retries ->
    (forall i, n <= i < n + k -> retried (outcome i) = true) ->
    exists lastError' events,
      loop host env url options retries (k + remaining) n lastError log
        = loop host env url options retries remaining (n + k) lastError' (log ++ events)
      /\ attempts events = k
      /\ delays events = map backoff (seq n k).
Proof.
  induction k as [|k IH]; intros n remaining lastError log Hle Hall.
  - exists lastError, []. rewrite Nat.add_0_r, app_nil_r. auto.
  - destruct (@iteration_retried n lastError log) as (le1 & ev1 & Hit & Ha1 & Hd1);
      [lia | apply Hall; lia |].
    destruct (IH (S n) remaining le1 (log ++ ev1)) as (le2 & ev2 & Hloop & Ha2 & Hd2);
      [lia | intros i Hi; apply Hall; lia |].
    exists le2, (ev1 ++ ev2).
    split; [|split].
    + simpl. unfold bind at 1. rewrite Hit. rewrite Hloop.
      rewrite <- app_assoc. replace (S n + k) with (n + S k) by lia. reflexivity.
    + rewrite attempts_app. lia.
    + rewrite delays_app, Hd1, Hd2. reflexivity.
Qed.

End LoopFacts.

(** ** Whole calls *)

Section CallFacts.

Context (host : Host) (env : nat -> attempt_env).
Context (url : endpoint) (options : RequestInit) (retries : nat).

Let outcome (n : nat) : settled Response := attempt_outcome host options (env n).

(** After [k <= retries] retried attempts, a response that ends the loop
    is what the call resolves with. *)
Lemma fetchWithRetry_resolves (k : nat) (response : Response) :
  k <= retries ->
  (forall i, i < k -> retried (outcome i) = true) ->
  outcome k = Resolved response ->
  is_4xx response = true \/ ok response = true \/ retries <= k ->
  exists log,
    run (fetchWithRetry host env url options retries) = (Resolved response, log)
    /\ attempts log = S k
    /\ delays log = map backoff (seq 0 k).
Proof.
  intros Hk Hall Ho Hend. unfold run, fetchWithRetry.
  destruct (@loop_retried_prefix host env url options retries k 0 (S retries - k) None [])
    as (le & ev & Hloop & Ha & Hd); [lia | intros i Hi; apply Hall; lia |].
  replace (k + (S retries - k)) with (S retries) in Hloop by lia.
  cbn [Nat.add app] in Hloop. rewrite Hloop. replace (S retries - k) with (S (retries - k)) by lia.
  destruct (@iteration_returns host env url options retries k le ev response Ho Hend)
    as (ev' & Hit & Ha' & Hd').
  cbn [loop]. unfold bind at 1. rewrite Hit.
  exists (ev ++ ev'). simpl. unfold ret.
  rewrite attempts_app, delays_app, Ha, Ha', Hd, Hd', app_nil_r.
  repeat split; lia.
Qed.

(** After [k <= retries] retried attempts, an error named [AbortError]
    rejects the call with ['Request timeout']. *)
Lemma fetchWithRetry_aborts (k : nat) (x : thrown) :
  k <= retries ->
  (forall i, i < k -> retried (outcome i) = true) ->
  outcome k = Rejected x ->
  name (as_error x) = lit "AbortError" ->
  exists log,
    run (fetchWithRetry host env url options retries)
      = (Rejected (Err (Error (lit "Request timeout"))), log)
    /\ attempts log = S k
    /\ delays log = map backoff (seq 0 k).
Proof.
  intros Hk Hall Ho Hname. unfold run, fetchWithRetry.
  destruct (@loop_retried_prefix host env url options retries k 0 (S retries - k) None [])
    as (le & ev & Hloop & Ha & Hd); [lia | intros i Hi; apply Hall; lia |].
  replace (k + (S retries - k)) with (S retries) in Hloop by lia.
  cbn [Nat.add app] in Hloop. rewrite Hloop. replace (S retries - k) with (S (retries - k)) by lia.
  destruct (@iteration_abort host env url options retries k le ev x Ho Hname)
    as (ev' & Hit & Ha' & Hd').
  cbn [loop]. unfold bind at 1. rewrite Hit.
  exists (ev ++ ev'). simpl.
  rewrite attempts_app, delays_app, Ha, Ha', Hd, Hd', app_nil_r.
  repeat split; lia.
Qed.

(** When every attempt of the budget ends in an error that is retried,
    the call rejects with the last of them. *)
Lemma fetchWithRetry_exhausts (x : thrown) :
  (forall i, i <= retries -> retried (outcome i) = true) ->
  outcome retries = Rejected x ->
  exists log,
    run (fetchWithRetry host env url options retries) = (Rejected (Err (as_error x)), log)
    /\ attempts log = S retries
    /\ delays log = map backoff (seq 0 retries).
Proof.
  intros Hall Ho. unfold run, fetchWithRetry.
  destruct (@loop_retried_prefix host env url options retries retries 0 1 None [])
    as (le & ev & Hloop & Ha & Hd); [lia | intros i Hi; apply Hall; lia |].
  replace (retries + 1) with (S retries) in Hloop by lia.
  cbn [Nat.add app] in Hloop. rewrite Hloop.
  assert (Hr : retried (Rejected x) = true) by (rewrite <- Ho; apply Hall; lia).
  destruct (@iteration_last_error host env url options retries retries le ev x Ho Hr)
    as (ev' & Hit & Ha' & Hd'); [lia|].
  cbn [loop]. unfold bind at 1. rewrite Hit.
  exists (ev ++ ev'). simpl. unfold throw.
  rewrite attempts_app, delays_app, Ha, Ha', Hd, Hd', app_nil_r.
  repeat split; lia.
Qed.

(** The schedule of the loop from attempt [n] on, when the call is decided
    by attempt [n + d]. *)
Lemma loop_schedule (k d : nat) :
  k <= retries ->
  (forall i, i < k -> retried (outcome i) = true) ->
  (k < retries -> retried (outcome k) = false) ->
  forall (n : nat) (lastError : option JsError) (log : list io),
    n + d = k ->
    schedule (snd (loop host env url options retries (S (retries - n)) n lastError log))
    = schedule log
      ++ flat_map (fun i => [call; pause (backoff i)]) (seq n d) ++ [call].
Proof.
  intros Hk Hpre Hstop.
  induction d as [|d IH]; intros n lastError log Hn.
  - rewrite Nat.add_0_r in Hn. subst n. cbn [seq flat_map app loop]. unfold bind at 1.
    destruct (@iteration_schedule host env url options retries k lastError log)
      as (c & events & -> & Hc).
    fold (outcome k) in Hc.
    assert (Hflag : retried (outcome k) && (k <? retries) = false).
    { destruct (k <? retries) eqn:Hlt; [|apply andb_false_r].
      apply Nat.ltb_lt in Hlt. rewrite (Hstop Hlt). reflexivity. }
    rewrite Hflag in Hc. destruct Hc as (Hs & Hend).
    destruct c as [[response|lastError']|x]; cbn [snd ret];
      try (rewrite schedule_app, Hs; reflexivity).
    replace (retries - k) with 0 by lia. cbn [loop snd throw].
    rewrite schedule_app, Hs. reflexivity.
  - cbn [loop]. unfold bind at 1.
    destruct (@iteration_schedule host env url options retries n lastError log)
      as (c & events & -> & Hc).
    fold (outcome n) in Hc.
    assert (Hflag : retried (outcome n) && (n <? retries) = true).
    { rewrite (Hpre n) by lia. apply Nat.ltb_lt. lia. }
    rewrite Hflag in Hc. destruct Hc as (Hs & lastError' & ->).
    replace (retries - n) with (S (retries - S n)) by lia.
    rewrite (IH (S n) lastError' (log ++ events)) by lia.
    rewrite schedule_app, Hs. cbn [seq flat_map]. rewrite <- !app_assoc. reflexivity.
Qed.

(** A call that is decided by attempt [k] makes the attempts [0 .. k],
    with the backoff of each attempt before [k] between it and the next
    one: nothing comes before the first transport call, and nothing after
    the last. *)
Lemma fetchWithRetry_schedule (k : nat) :
  k <= retries ->
  (forall i, i < k -> retried (outcome i) = true) ->
  (k < retries -> retried (outcome k) = false) ->
  schedule (snd (run (fetchWithRetry host env url options retries))) = retry_schedule k.
Proof.
  intros Hk Hpre Hstop. unfold run, fetchWithRetry, retry_schedule.
  pose proof (@loop_schedule k k Hk Hpre Hstop 0 None [] eq_refl) as H.
  rewrite Nat.sub_0_r in H. exact H.
Qed.

End CallFacts.

(** ** Retry on server errors *)

Lemma status_500_retried (response : Response) :
  status response = 500%N -> retried (Resolved response) = true.
Proof. intros H. unfold retried, is_4xx, ok. rewrite H. reflexivity. Qed.

(** For any budget: when every attempt is answered by a response that is
    neither 4xx nor ok, the call uses the whole budget and resolves with
    the last response. *)
Lemma failing_responses_use_the_budget
      (host : Host) (env : nat -> attempt_env) (url : endpoint)
      (options : RequestInit) (retries : nat) :
  (forall n, n <= retries ->
     exists response, attempt_outcome host options (env n) = Resolved response
                      /\ retried (Resolved response) = true) ->
  exists response log,
    run (fetchWithRetry host env url options retries) = (Resolved response, log)
    /\ attempt_outcome host options (env retries) = Resolved response
    /\ attempts log = S retries
    /\ delays log = map backoff (seq 0 retries).
Proof.
  intros Hall.
  destruct (Hall retries (Nat.le_refl _)) as (response & Ho & _).
  destruct (@fetchWithRetry_resolves host env url options retries retries response)
    as (log & Hrun & Ha & Hd); auto.
  - intros i Hi. destruct (Hall i) as (r & Hr & Hret); [lia|]. rewrite Hr. exact Hret.
  - exists response, log. auto.
Qed.

(** Claim C2. With the retry budget 3, when every attempt is answered with
    status 500, the call makes exactly 4 transport calls (1 + the budget)
    and no more, and between attempt [n] and the next one it waits
    [RETRY_DELAY * 2^n]: the log is attempt 0, a pause of 1000 ms,
    attempt 1, a pause of 2000 ms, attempt 2, a pause of 4000 ms,
    attempt 3, and nothing else; the call resolves with the fourth
    response. *)
Theorem all_500_makes_four_attempts
        (host : Host) (env : nat -> attempt_env) (url : endpoint)
        (options : RequestInit) :
  (forall n, n <= MAX_RETRIES ->
     exists response,
       attempt_outcome host options (env n) = Resolved response
       /\ status response = 500%N) ->
  exists response log,
    run (fetchWithRetry host env url options MAX_RETRIES) = (Resolved response, log)
    /\ attempt_outcome host options (env 3) = Resolved response
    /\ log = answered_attempt url options ++ [setTimeout resolve_sleep 1000]
             ++ answered_attempt url options ++ [setTimeout resolve_sleep 2000]
             ++ answered_attempt url options ++ [setTimeout resolve_sleep 4000]
             ++ answered_attempt url options
    /\ schedule log = [call; pause 1000; call; pause 2000; call; pause 4000; call]
    /\ attempts log = 1 + MAX_RETRIES
    /\ attempts log = 4
    /\ delays log = [1000; 2000; 4000]%N
    /\ (forall n, n < MAX_RETRIES ->
          nth_error (delays log) n = Some (1000 * 2 ^ N.of_nat n)%N).
Proof.
  intros Hall.
  assert (Hst : forall r, status r = 500%N -> is_4xx r = false /\ ok r = false).
  { intros r Hr. unfold is_4xx, ok. rewrite Hr. split; reflexivity. }
  destruct (Hall 0) as (r0 & H0 & S0); [unfold MAX_RETRIES; lia|].
  destruct (Hall 1) as (r1 & H1 & S1); [unfold MAX_RETRIES; lia|].
  destruct (Hall 2) as (r2 & H2 & S2); [unfold MAX_RETRIES; lia|].
  destruct (Hall 3) as (r3 & H3 & S3); [unfold MAX_RETRIES; lia|].
  destruct (Hst r0 S0) as (A0 & B0). destruct (Hst r1 S1) as (A1 & B1).
  destruct (Hst r2 S2) as (A2 & B2). destruct (Hst r3 S3) as (A3 & B3).
  exists r3. eexists. split.
  - unfold run, fetchWithRetry, MAX_RETRIES. cbn [loop]. unfold bind.
    rewrite iteration_run, H0, A0, B0. cbn [negb andb Nat.ltb Nat.leb].
    rewrite iteration_run, H1, A1, B1. cbn [negb andb Nat.ltb Nat.leb].
    rewrite iteration_run, H2, A2, B2. cbn [negb andb Nat.ltb Nat.leb].
    rewrite iteration_run, H3, A3, B3. cbn [negb andb Nat.ltb Nat.leb].
    unfold ret. reflexivity.
  - split; [exact H3|]. split; [reflexivity|].
    repeat split.
    intros n Hn. unfold MAX_RETRIES in Hn.
    destruct n as [|[|[|n]]]; try reflexivity. lia.
Qed.

Lemma all_500_makes_four_attempts_witness :
  exists response log,
    run (fetchWithRetry sample_host (always (responds server_error) Abort.quiet)
           chat (no_signal POST) MAX_RETRIES) = (Resolved response, log)
    /\ log = one_attempt_log POST chat ++ [setTimeout resolve_sleep 1000]
             ++ one_attempt_log POST chat ++ [setTimeout resolve_sleep 2000]
             ++ one_attempt_log POST chat ++ [setTimeout resolve_sleep 4000]
             ++ one_attempt_log POST chat
    /\ schedule log = [call; pause 1000; call; pause 2000; call; pause 4000; call].
Proof.
  destruct (@all_500_makes_four_attempts sample_host
              (always (responds server_error) Abort.quiet) chat (no_signal POST))
    as (response & log & Hrun & _ & Hlog & Hs & _).
  - intros n _. exists server_error. split; reflexivity.
  - exists response, log. auto.
Defined.

(** ** The wiring of abort signals *)

(** The depth 3 given to [Abort.abort] is enough: on the stores an attempt
    builds, neither the caller's abort nor the timer's abort that may
    follow it changes with a greater depth. *)
Lemma abort_depth_enough (options_signal : bool) (c : Abort.caller)
      (s1 s2 : Abort.signal) (d1 d2 : nat) :
  let st := fst (Abort.wire options_signal c) in
  Abort.abort (3 + d2) s2 (Abort.abort (3 + d1) s1 st)
  = Abort.abort 3 s2 (Abort.abort 3 s1 st).
Proof. destruct options_signal, c, s1, s2; reflexivity. Qed.

(** Without a caller's signal the transport is handed [controller.signal],
    and the attempt's timer aborts it. *)
Lemma timer_aborts_own_signal (c : Abort.caller) :
  let (st, signal) := Abort.wire false c in
  signal = Abort.controller
  /\ Abort.is_aborted signal st = false
  /\ Abort.is_aborted signal (Abort.abort 3 Abort.controller st) = true.
Proof. destruct c; repeat split. Qed.

(** With a caller's signal the transport is handed
    [combinedController.signal]; the caller's abort reaches it, and
    through it the attempt's own controller. *)
Lemma caller_abort_reaches_transport :
  let (st, signal) := Abort.wire true Abort.quiet in
  signal = Abort.combinedController
  /\ Abort.is_aborted signal (Abort.abort 3 Abort.originalSignal st) = true
  /\ Abort.is_aborted Abort.controller (Abort.abort 3 Abort.originalSignal st) = true.
Proof. repeat split. Qed.

(** A caller's signal that is already aborted when the listener is added
    never fires it. *)
Lemma aborted_signal_fires_no_listener :
  let (st, signal) := Abort.wire true Abort.already_aborted in
  Abort.abort 3 Abort.originalSignal st = st
  /\ Abort.is_aborted signal st = false.
Proof. repeat split. Qed.

(** A caller's abort in flight rejects the attempt with [AbortError]. *)
Lemma caller_abort_outcome (host : Host) (m : method) (t : transport) :
  attempt_outcome host (with_signal m)
    {| network := t; caller_signal := Abort.fires_in_flight |}
  = Rejected (AbortError host).
Proof. reflexivity. Qed.

(** Without a caller's signal, the deadline rejects the attempt with
    [AbortError]. *)
Lemma deadline_outcome_without_signal (host : Host) (m : method) (c : Abort.caller) :
  attempt_outcome host (no_signal m) {| network := pending; caller_signal := c |}
  = Rejected (AbortError host).
Proof. destruct c; reflexivity. Qed.

(** Claim C1, on the failing input: the caller passes a signal that stays
    quiet and the transport is still pending at the deadline. The
    transport is handed [combinedController.signal]; the caller's abort
    would reach it, but the timer's [controller.abort()] does not, because
    the second listener runs from [combinedController] to [controller]
    and not the other way. The attempt then ends through [createTimeout]
    with a plain [Error], which the loop retries: four transport calls are
    made. *)
Theorem deadline_does_not_abort_combined_signal
        (host : Host) (m : method) (url : endpoint) :
  let (st, signal) := Abort.wire true Abort.quiet in
  signal = Abort.combinedController
  /\ Abort.is_aborted signal (Abort.abort 3 Abort.originalSignal st) = true
  /\ Abort.is_aborted signal (Abort.abort 3 Abort.controller st) = false
  /\ attempt_outcome host (with_signal m)
       {| network := pending; caller_signal := Abort.quiet |}
     = Rejected (Err (Error (lit "Request timeout")))
  /\ retried (attempt_outcome host (with_signal m)
                {| network := pending; caller_signal := Abort.quiet |}) = true
  /\ exists log,
       run (fetchWithRetry host (always pending Abort.quiet) url (with_signal m)
              MAX_RETRIES)
         = (Rejected (Err (Error (lit "Request timeout"))), log)
       /\ attempts log = 4
       /\ delays log = [1000; 2000; 4000]%N.
Proof.
  repeat split.
  eexists. repeat split.
Qed.

(** ** Cancellation and success, seen from the caller *)

(** When the caller passed a signal and it aborts while a reached attempt
    is in flight, the call rejects with [Error('Request timeout')] and
    makes no further transport call. *)
Lemma caller_cancellation_is_terminal
      (host : Host) (env : nat -> attempt_env) (url : endpoint) (m : method)
      (retries k : nat) :
  k <= retries ->
  (forall i, i < k -> retried (attempt_outcome host (with_signal m) (env i)) = true) ->
  caller_signal (env k) = Abort.fires_in_flight ->
  exists log,
    run (fetchWithRetry host env url (with_signal m) retries)
      = (Rejected (Err (Error (lit "Request timeout"))), log)
    /\ attempts log = S k.
Proof.
  intros Hk Hall Hc.
  destruct (@fetchWithRetry_aborts host env url (with_signal m) retries k (AbortError host))
    as (log & Hrun & Ha & _); auto.
  - destruct (env k) as [t c]. simpl in Hc. subst c. apply caller_abort_outcome.
  - exists log. auto.
Qed.

(** A first response with a status in 200..299 is what the call resolves
    with, after that single transport call. *)
Lemma ok_response_is_returned_at_once
      (host : Host) (env : nat -> attempt_env) (url : endpoint)
      (options : RequestInit) (retries : nat) (response : Response) :
  attempt_outcome host options (env 0) = Resolved response ->
  ok response = true ->
  exists log,
    run (fetchWithRetry host env url options retries) = (Resolved response, log)
    /\ attempts log = 1 /\ delays log = [].
Proof.
  intros Ho Hok.
  apply (@fetchWithRetry_resolves host env url options retries 0 response);
    auto; [lia | intros i Hi; lia].
Qed.

(** ** Validation before any network call *)

(** Claim C6. A message or query that is empty or made only of whitespace
    is rejected with the validation error, and the log stays empty: no
    transport call, no timer. *)
Theorem blank_input_is_rejected_without_network
        (host : Host) (env : nat -> attempt_env) (input user_id : jsstring) :
  forallb is_whitespace input = true ->
  run (sendChatMessage host env input user_id)
    = (Rejected (Err (Error (lit "Message cannot be empty"))), [])
  /\ run (processNaturalLanguageQuery host env input)
    = (Rejected (Err (Error (lit "Query cannot be empty"))), [])
  /\ attempts (snd (run (sendChatMessage host env input user_id))) = 0
  /\ attempts (snd (run (processNaturalLanguageQuery host env input))) = 0.
Proof.
  intros Hws. apply trim_whitespace in Hws.
  unfold run, sendChatMessage, processNaturalLanguageQuery.
  rewrite Hws. simpl str_truthy. rewrite orb_true_r.
  repeat split.
Qed.

Lemma blank_input_is_rejected_without_network_witness :
  run (sendChatMessage sample_host (always (responds (success JNull)) Abort.quiet)
         (lit "  " ++ [0x3000; 0x0A]%N) (lit "default"))
    = (Rejected (Err (Error (lit "Message cannot be empty"))), []).
Proof.
  apply (@blank_input_is_rejected_without_network sample_host
           (always (responds (success JNull)) Abort.quiet)
           (lit "  " ++ [0x3000; 0x0A]%N) (lit "default")).
  reflexivity.
Defined.

(** The converse: an input with a code unit that is not whitespace passes
    the validation, so the check rejects the blank inputs and only them. *)
Lemma non_blank_input_passes_validation (input : jsstring) :
  forallb is_whitespace input = false ->
  negb (str_truthy input) || negb (str_truthy (trim input)) = false.
Proof.
  intros H.
  destruct (trim input) eqn:Et.
  - apply trim_nil_iff in Et. congruence.
  - destruct input; [discriminate H | reflexivity].
Qed.

(** Claim C8. A request whose [etp_inlet_tank_value] equals 0 (the number
    0 or -0) is rejected by the required-field check, whatever its date,
    before any network call: the check tests [!value]. *)
Theorem zero_tank_value_is_rejected
        (host : Host) (env : nat -> attempt_env) (request : ETPTankCapacityRequest) :
  PrimFloat.eqb (etp_inlet_tank_value request) 0%float = true ->
  run (getETPTankCapacity host env request)
  = (Rejected (Err (Error (lit "Date and ETP Inlet tank value are required"))), []).
Proof.
  intros Hzero. unfold run, getETPTankCapacity, number_truthy.
  rewrite Hzero. simpl. rewrite orb_true_r. reflexivity.
Qed.

Lemma zero_tank_value_is_rejected_witness :
  run (getETPTankCapacity sample_host (always (responds (success JNull)) Abort.quiet)
         {| date := lit "2024-12-12"; etp_inlet_tank_value := 0%float;
            sheet_id := None |})
  = (Rejected (Err (Error (lit "Date and ETP Inlet tank value are required"))), []).
Proof.
  apply (@zero_tank_value_is_rejected sample_host
           (always (responds (success JNull)) Abort.quiet)
           {| date := lit "2024-12-12"; etp_inlet_tank_value := 0%float;
              sheet_id := None |}).
  reflexivity.
Defined.

(** The numbers the check takes for missing are 0, -0 and NaN; 2.5, for
    instance, passes. *)
Lemma number_truthy_examples :
  number_truthy 2.5%float = true /\ number_truthy (-0)%float = false
  /\ number_truthy nan = false.
Proof. repeat split. Qed.

(** ** The health probe *)

(** Claim C10. [checkApiHealth] always resolves, never rejects: with
    [response.ok] when the transport answers, which is [true] exactly for
    the statuses 200..299, and with [false] when the transport fails or
    the 5000 ms timeout signal fires. It makes one transport call, armed
    with [AbortSignal.timeout(5000)], sets none of the timers of
    [fetchWithRetry] and never sleeps. *)
Theorem checkApiHealth_is_total (host : Host) (env : nat -> attempt_env) :
  run (checkApiHealth host env)
  = (Resolved match network (env 0) with
              | responds response =>
                  (200 <=? status response)%N && (status response <=? 299)%N
              | fails _ => false
              | pending => false
              end,
     [fetch GET health (AbortSignal_timeout 5000)]).
Proof.
  unfold run, checkApiHealth, try_catch, bind, emit, settle, ret, ok.
  destruct (network (env 0)); reflexivity.
Qed.

(** ** Parsing an error response *)

Lemma parseErrorResponse_object (host : Host) (response : Response)
      (fields : list (jsstring * json)) :
  body response = Resolved (JObj fields) ->
  parseErrorResponse host response
  = {| ApiError.error := or_else (lookup (lit "error") fields) (JStr (lit "UNKNOWN_ERROR"));
       ApiError.message :=
         or_else (lookup (lit "message") fields) (JStr (lit "An unknown error occurred"));
       ApiError.details := lookup (lit "details") fields |}.
Proof. intros Hb. unfold parseErrorResponse. rewrite Hb. reflexivity. Qed.

Lemma or_else_truthy (v d : json) : truthy v = true -> or_else (Some v) d = v.
Proof. intros H. unfold or_else. rewrite H. reflexivity. Qed.

Lemma or_else_falsy (v d : json) : truthy v = false -> or_else (Some v) d = d.
Proof. intros H. unfold or_else. rewrite H. reflexivity. Qed.

(** The message [parseErrorResponse] returns is never falsy, so the
    second operand of [error.message || `HTTP error! status: ...`] in the
    wrappers is never used. *)
Lemma parsed_message_truthy (host : Host) (response : Response) :
  truthy (ApiError.message (parseErrorResponse host response)) = true.
Proof.
  unfold parseErrorResponse.
  destruct (body response) as [data|x]; [|reflexivity].
  destruct data as [|b|x|s|items|fields]; try reflexivity.
  simpl. unfold or_else.
  destruct (lookup (lit "message") fields) as [v|]; [|reflexivity].
  destruct (truthy v) eqn:Hv; [exact Hv | reflexivity].
Qed.

(** Claim C7, as the code has it. For a body that parses to a JSON object,
    [parseErrorResponse] returns the body's [error] and [message] fields
    where they are present and truthy (a non-empty string, say), and puts
    ['UNKNOWN_ERROR'] and ['An unknown error occurred'] in the place of a
    missing or falsy one; [details] is passed on as it is. When the body
    does not parse, and also when it parses to [null], the result is the
    kind ['HTTP_ERROR'] with the message ['HTTP {status}: {statusText}']. *)
Theorem parseErrorResponse_fields_or_defaults
        (host : Host) (st : N) (text : jsstring) :
  (forall fields e,
      lookup (lit "error") fields = Some e -> truthy e = true ->
      ApiError.error
        (parseErrorResponse host
           {| status := st; statusText := text; body := Resolved (JObj fields) |}) = e)
  /\ (forall fields m,
      lookup (lit "message") fields = Some m -> truthy m = true ->
      ApiError.message
        (parseErrorResponse host
           {| status := st; statusText := text; body := Resolved (JObj fields) |}) = m)
  /\ (forall fields,
      (lookup (lit "error") fields = None
       \/ exists e, lookup (lit "error") fields = Some e /\ truthy e = false) ->
      ApiError.error
        (parseErrorResponse host
           {| status := st; statusText := text; body := Resolved (JObj fields) |})
      = JStr (lit "UNKNOWN_ERROR"))
  /\ (forall fields,
      (lookup (lit "message") fields = None
       \/ exists m, lookup (lit "message") fields = Some m /\ truthy m = false) ->
      ApiError.message
        (parseErrorResponse host
           {| status := st; statusText := text; body := Resolved (JObj fields) |})
      = JStr (lit "An unknown error occurred"))
  /\ (forall fields,
      ApiError.details
        (parseErrorResponse host
           {| status := st; statusText := text; body := Resolved (JObj fields) |})
      = lookup (lit "details") fields)
  /\ (forall x,
      parseErrorResponse host {| status := st; statusText := text; body := Rejected x |}
      = http_error st text)
  /\ parseErrorResponse host {| status := st; statusText := text; body := Resolved JNull |}
     = http_error st text.
Proof.
  repeat split.
  - intros fields e He Ht. erewrite parseErrorResponse_object by reflexivity.
    simpl. rewrite He. apply or_else_truthy, Ht.
  - intros fields m Hm Ht. erewrite parseErrorResponse_object by reflexivity.
    simpl. rewrite Hm. apply or_else_truthy, Ht.
  - intros fields H. erewrite parseErrorResponse_object by reflexivity.
    simpl. destruct H as [H|(e & H & Hf)]; rewrite H; [reflexivity|].
    apply or_else_falsy, Hf.
  - intros fields H. erewrite parseErrorResponse_object by reflexivity.
    simpl. destruct H as [H|(m & H & Hf)]; rewrite H; [reflexivity|].
    apply or_else_falsy, Hf.
Qed.

Lemma parseErrorResponse_fields_or_defaults_witness :
  ApiError.error (parseErrorResponse sample_host server_error)
    = JStr (lit "INTERNAL_ERROR")
  /\ ApiError.message (parseErrorResponse sample_host server_error)
    = JStr (lit "Database unavailable").
Proof.
  destruct (@parseErrorResponse_fields_or_defaults sample_host 500
              (lit "Internal Server Error")) as (He & Hm & _).
  split.
  - apply (He _ (JStr (lit "INTERNAL_ERROR"))); reflexivity.
  - apply (Hm _ (JStr (lit "Database unavailable"))); reflexivity.
Defined.

(** Claim C7 as stated fails on bodies that are parseable JSON: with
    empty [error] and [message] strings the defaults are returned instead
    of the body's fields, and for the body [null] the result is the
    ['HTTP_ERROR'] fallback. *)
Lemma parseErrorResponse_counterexample :
  let empty_fields :=
    {| status := 500; statusText := lit "Internal Server Error";
       body := Resolved (error_body "" "") |} in
  let null_body :=
    {| status := 500; statusText := lit "Internal Server Error";
       body := Resolved JNull |} in
  lookup (lit "error") [(lit "error", JStr (lit "")); (lit "message", JStr (lit ""))]
    = Some (JStr (lit ""))
  /\ ApiError.error (parseErrorResponse sample_host empty_fields)
     = JStr (lit "UNKNOWN_ERROR")
  /\ ApiError.message (parseErrorResponse sample_host empty_fields)
     = JStr (lit "An unknown error occurred")
  /\ ApiError.error (parseErrorResponse sample_host null_body) = JStr (lit "HTTP_ERROR")
  /\ ApiError.message (parseErrorResponse sample_host null_body)
     = JStr (lit "HTTP 500: Internal Server Error").
Proof. repeat split. Qed.

(** ** Client errors *)

Lemma is_4xx_not_ok (response : Response) :
  is_4xx response = true -> ok response = false.
Proof.
  unfold is_4xx, ok. intros H. apply andb_true_iff in H as [H _].
  apply N.leb_le in H. apply andb_false_iff. right. apply N.leb_gt. lia.
Qed.

(** Wherever in the budget a 4xx response arrives, it ends the loop. *)
Lemma client_error_ends_the_loop
      (host : Host) (env : nat -> attempt_env) (url : endpoint)
      (options : RequestInit) (retries k : nat) (response : Response) :
  k <= retries ->
  (forall i, i < k -> retried (attempt_outcome host options (env i)) = true) ->
  attempt_outcome host options (env k) = Resolved response ->
  is_4xx response = true ->
  exists log,
    run (fetchWithRetry host env url options retries) = (Resolved response, log)
    /\ attempts log = S k
    /\ delays log = map backoff (seq 0 k).
Proof.
  intros Hk Hall Ho H4.
  apply (@fetchWithRetry_resolves host env url options retries k response); auto.
Qed.

(** What a wrapper does with a response that is not ok: it throws
    [new Error] of the parsed message. *)
Lemma throw_parsed_message (host : Host) (A : Type) (response : Response)
      (m : jsstring) (log : list io) :
  ApiError.message (parseErrorResponse host response) = JStr m ->
  @throw_new_Error host A (ApiError.message (parseErrorResponse host response)) log
  = (Rejected (Err (Error m)), log).
Proof. intros H. rewrite H. reflexivity. Qed.

Lemma sendChatMessage_on_error_response
      (host : Host) (env : nat -> attempt_env) (input user_id : jsstring)
      (response : Response) (m : jsstring) (log : list io) :
  forallb is_whitespace input = false ->
  run (fetchWithRetry host env chat (no_signal POST) MAX_RETRIES) = (Resolved response, log) ->
  ok response = false ->
  ApiError.message (parseErrorResponse host response) = JStr m ->
  run (sendChatMessage host env input user_id)
  = if str_eqb m (lit "Request timeout") then
      (Rejected (Err (Error (lit "Request timed out. Please check your connection and try again."))),
       log)
    else (Rejected (Err (Error m)), log).
Proof.
  intros Hin Hrun Hok Hm. unfold run in *. unfold sendChatMessage.
  rewrite (non_blank_input_passes_validation input Hin).
  unfold try_catch, bind, no_signal in *. rewrite Hrun, Hok. cbn [negb].
  rewrite or_else_truthy by apply parsed_message_truthy.
  rewrite (@throw_parsed_message host unit response m log Hm).
  unfold relabel. change (message (Error m)) with m.
  destruct (str_eqb m (lit "Request timeout")); reflexivity.
Qed.

(** Claim C3, as the code has it. A response with a status in 400..499 on
    the first attempt is returned after that single transport call, with
    no backoff, whatever the budget. [sendChatMessage] then rejects with
    the [message] field of the parsed body when that field is a non-empty
    string other than ['Request timeout'], and with
    ['An unknown error occurred'] when the field is missing or empty. *)
Theorem client_error_is_returned_at_once :
  (forall (host : Host) (env : nat -> attempt_env) (url : endpoint)
          (options : RequestInit) (retries : nat) (response : Response),
      attempt_outcome host options (env 0) = Resolved response ->
      is_4xx response = true ->
      exists log,
        run (fetchWithRetry host env url options retries) = (Resolved response, log)
        /\ attempts log = 1 /\ delays log = [])
  /\ (forall (host : Host) (env : nat -> attempt_env) (input user_id : jsstring)
             (response : Response) (fields : list (jsstring * json)) (m : jsstring),
      forallb is_whitespace input = false ->
      attempt_outcome host (no_signal POST) (env 0) = Resolved response ->
      is_4xx response = true ->
      body response = Resolved (JObj fields) ->
      lookup (lit "message") fields = Some (JStr m) ->
      m <> [] -> m <> lit "Request timeout" ->
      exists log,
        run (sendChatMessage host env input user_id) = (Rejected (Err (Error m)), log)
        /\ attempts log = 1 /\ delays log = [])
  /\ (forall (host : Host) (env : nat -> attempt_env) (input user_id : jsstring)
             (response : Response) (fields : list (jsstring * json)),
      forallb is_whitespace input = false ->
      attempt_outcome host (no_signal POST) (env 0) = Resolved response ->
      is_4xx response = true ->
      body response = Resolved (JObj fields) ->
      lookup (lit "message") fields = None
      \/ lookup (lit "message") fields = Some (JStr []) ->
      exists log,
        run (sendChatMessage host env input user_id)
          = (Rejected (Err (Error (lit "An unknown error occurred"))), log)
        /\ attempts log = 1 /\ delays log = []).
Proof.
  split; [|split].
  - intros host env url options retries response Ho H4.
    apply (@fetchWithRetry_resolves host env url options retries 0 response);
      auto; [lia | intros i Hi; lia].
  - intros host env input user_id response fields m Hin Ho H4 Hb Hm Hne Hnt.
    destruct (@fetchWithRetry_resolves host env chat (no_signal POST) MAX_RETRIES 0 response)
      as (log & Hrun & Ha & Hd); auto; [unfold MAX_RETRIES; lia | intros i Hi; lia |].
    exists log. split; [|auto].
    rewrite (@sendChatMessage_on_error_response host env input user_id response m log);
      auto using is_4xx_not_ok.
    + rewrite (str_eqb_neq Hnt). reflexivity.
    + rewrite (parseErrorResponse_object host response Hb). simpl. rewrite Hm.
      apply or_else_truthy. destruct m; [contradiction | reflexivity].
  - intros host env input user_id response fields Hin Ho H4 Hb Hm.
    destruct (@fetchWithRetry_resolves host env chat (no_signal POST) MAX_RETRIES 0 response)
      as (log & Hrun & Ha & Hd); auto; [unfold MAX_RETRIES; lia | intros i Hi; lia |].
    exists log. split; [|auto].
    rewrite (@sendChatMessage_on_error_response host env input user_id response
               (lit "An unknown error occurred") log);
      auto using is_4xx_not_ok.
    rewrite (parseErrorResponse_object host response Hb). simpl.
    destruct Hm as [Hm|Hm]; rewrite Hm; reflexivity.
Qed.

Lemma client_error_is_returned_at_once_witness :
  exists log,
    run (sendChatMessage sample_host
           (always (responds (not_found (error_body "NOT_FOUND" "No such conversation")))
                   Abort.quiet)
           (lit "hello") (lit "default"))
      = (Rejected (Err (Error (lit "No such conversation"))), log)
    /\ attempts log = 1 /\ delays log = [].
Proof.
  apply (proj1 (proj2 client_error_is_returned_at_once) sample_host _ (lit "hello")
           (lit "default")
           (not_found (error_body "NOT_FOUND" "No such conversation"))
           [(lit "error", JStr (lit "NOT_FOUND"));
            (lit "message", JStr (lit "No such conversation"))]
           (lit "No such conversation")).
  - reflexivity.
  - reflexivity.
  - reflexivity.
  - reflexivity.
  - reflexivity.
  - discriminate.
  - discriminate.
Defined.

(** Claim C3 as stated fails on 404 responses with a parseable body: with
    an empty [message] the rejection carries the default text, and with
    the [message] ['Request timeout'] it carries the re-labelled text. In
    both cases one transport call is made. *)
Lemma client_error_message_counterexample :
  (fst (run (sendChatMessage sample_host
               (always (responds (not_found (error_body "NOT_FOUND" ""))) Abort.quiet)
               (lit "hello") (lit "default")))
   = Rejected (Err (Error (lit "An unknown error occurred")))
   /\ lit "An unknown error occurred" <> lit "")
  /\ (fst (run (sendChatMessage sample_host
                  (always (responds (not_found (error_body "NOT_FOUND" "Request timeout")))
                          Abort.quiet)
                  (lit "hello") (lit "default")))
      = Rejected (Err (Error
          (lit "Request timed out. Please check your connection and try again.")))
      /\ lit "Request timed out. Please check your connection and try again."
         <> lit "Request timeout").
Proof. repeat split; discriminate. Qed.

(** ** Task lists *)

Lemma get_tasks_absent (host : Host) (data : json) :
  data <> JNull ->
  (forall fields, data = JObj fields ->
     lookup (lit "tasks") fields = None \/ lookup (lit "tasks") fields = Some JNull) ->
  exists v, get host data (lit "tasks") = Resolved v /\ or_else v (JArr []) = JArr [].
Proof.
  intros Hnull Hobj.
  destruct data as [|b|x|s|items|fields]; try (exists None; split; reflexivity).
  - contradiction.
  - destruct (Hobj fields eq_refl) as [H|H]; simpl; rewrite H;
      eexists; split; reflexivity.
Qed.

(** Claim C9, as the code has it. When the first attempt is answered with
    a 2xx response whose body parses to a JSON value other than [null]
    that has no [tasks] field, or has [tasks: null], both [listTasks] and
    [getUpcomingTasks] resolve with the empty array after that single
    transport call. *)
Theorem missing_tasks_resolve_to_empty_array
        (host : Host) (env : nat -> attempt_env) (response : Response) (data : json) :
  attempt_outcome host (no_signal GET) (env 0) = Resolved response ->
  ok response = true ->
  body response = Resolved data ->
  data <> JNull ->
  (forall fields, data = JObj fields ->
     lookup (lit "tasks") fields = None \/ lookup (lit "tasks") fields = Some JNull) ->
  (exists log, run (listTasks host env) = (Resolved (JArr []), log) /\ attempts log = 1)
  /\ (exists log, run (getUpcomingTasks host env) = (Resolved (JArr []), log)
                  /\ attempts log = 1).
Proof.
  intros Ho Hok Hb Hnull Hobj.
  destruct (get_tasks_absent host Hnull Hobj) as (v & Hget & Hor).
  split.
  - destruct (@fetchWithRetry_resolves host env tasks (no_signal GET) MAX_RETRIES 0 response)
      as (log & Hrun & Ha & _); auto; [unfold MAX_RETRIES; lia | intros i Hi; lia |].
    exists log. split; [|exact Ha].
    unfold run in *. unfold listTasks, bind, no_signal in *.
    rewrite Hrun, Hok. cbn [negb]. unfold ret at 1, settle. rewrite Hb, Hget, Hor.
    reflexivity.
  - destruct (@fetchWithRetry_resolves host env tasks_upcoming (no_signal GET) MAX_RETRIES 0
                response)
      as (log & Hrun & Ha & _); auto; [unfold MAX_RETRIES; lia | intros i Hi; lia |].
    exists log. split; [|exact Ha].
    unfold run in *. unfold getUpcomingTasks, bind, no_signal in *.
    rewrite Hrun, Hok. cbn [negb]. unfold ret at 1, settle. rewrite Hb, Hget, Hor.
    reflexivity.
Qed.

Lemma missing_tasks_resolve_to_empty_array_witness :
  (exists log,
      run (listTasks sample_host
             (always (responds (success (JObj [(lit "count", JNull)]))) Abort.quiet))
        = (Resolved (JArr []), log) /\ attempts log = 1)
  /\ (exists log,
      run (getUpcomingTasks sample_host
             (always (responds (success (JObj [(lit "count", JNull)]))) Abort.quiet))
        = (Resolved (JArr []), log) /\ attempts log = 1).
Proof.
  apply (@missing_tasks_resolve_to_empty_array sample_host _
           (success (JObj [(lit "count", JNull)])) (JObj [(lit "count", JNull)])).
  - reflexivity.
  - reflexivity.
  - reflexivity.
  - discriminate.
  - intros fields H. injection H as <-. left. reflexivity.
Defined.

(** Claim C9 as stated fails on the body [null]: it is a JSON body with no
    [tasks] field, the response is a 200, and both functions reject with
    the [TypeError] of reading a property of [null]. *)
Lemma null_body_tasks_counterexample :
  ok (success JNull) = true
  /\ run (listTasks sample_host (always (responds (success JNull)) Abort.quiet))
     = (Rejected (TypeError (lit "Cannot read properties of null (reading 'tasks')")),
        [setTimeout controller_abort 120000;
         fetch GET tasks (of_controller Abort.controller);
         setTimeout reject_timeout 120000; clearTimeout])
  /\ fst (run (getUpcomingTasks sample_host
                 (always (responds (success JNull)) Abort.quiet)))
     = Rejected (TypeError (lit "Cannot read properties of null (reading 'tasks')")).
Proof. repeat split. Qed.

(** ** Timeouts seen by the callers *)

(** Without a caller's signal, a transport still pending at the deadline
    of an attempt that is reached ends the call with
    [Error('Request timeout')]. *)
Lemma deadline_rejects_with_request_timeout
      (host : Host) (env : nat -> attempt_env) (url : endpoint) (m : method)
      (retries k : nat) :
  k <= retries ->
  (forall i, i < k -> retried (attempt_outcome host (no_signal m) (env i)) = true) ->
  network (env k) = pending ->
  exists log,
    run (fetchWithRetry host env url (no_signal m) retries)
      = (Rejected (Err (Error (lit "Request timeout"))), log)
    /\ attempts log = S k.
Proof.
  intros Hk Hall Hp.
  destruct (@fetchWithRetry_aborts host env url (no_signal m) retries k (AbortError host))
    as (log & Hrun & Ha & _); auto.
  - destruct (env k) as [t c]. simpl in Hp. subst t.
    apply deadline_outcome_without_signal.
  - exists log. auto.
Qed.

Section Relabel.

Context (host : Host) (env : nat -> attempt_env) (e : JsError).

Hypothesis timed_out : message e = lit "Request timeout".

Hypothesis rejected :
  forall url m,
    fst (run (fetchWithRetry host env url (no_signal m) MAX_RETRIES)) = Rejected (Err e).

Let relabelled (cause : string) : settled json :=
  Rejected (Err (Error (lit cause))).

Lemma rejected_run (url : endpoint) (m : method) :
  exists log,
    fetchWithRetry host env url {| req_method := m; req_signal := false |} MAX_RETRIES []
    = (Rejected (Err e), log).
Proof.
  specialize (rejected url m). unfold run, no_signal in rejected.
  destruct (fetchWithRetry host env url _ MAX_RETRIES []) as [s log].
  simpl in rejected. subst s. exists log. reflexivity.
Qed.

Lemma relabel_fires (A : Type) (cause failure : string) (log : list io) :
  @relabel A cause failure (Err e) log = (Rejected (Err (Error (lit cause))), log).
Proof. unfold relabel. rewrite timed_out, str_eqb_refl. reflexivity. Qed.

Lemma sendChatMessage_relabels (input user_id : jsstring) :
  forallb is_whitespace input = false ->
  fst (run (sendChatMessage host env input user_id))
  = relabelled "Request timed out. Please check your connection and try again.".
Proof.
  intros Hin. destruct (rejected_run chat POST) as (log & Hrun).
  unfold run, sendChatMessage. rewrite (non_blank_input_passes_validation input Hin).
  unfold try_catch, bind. rewrite Hrun, relabel_fires. reflexivity.
Qed.

Lemma processNaturalLanguageQuery_relabels (input : jsstring) :
  forallb is_whitespace input = false ->
  fst (run (processNaturalLanguageQuery host env input))
  = relabelled "Query timed out. Please check your connection and try again.".
Proof.
  intros Hin. destruct (rejected_run api_query POST) as (log & Hrun).
  unfold run, processNaturalLanguageQuery. rewrite (non_blank_input_passes_validation input Hin).
  unfold try_catch, bind. rewrite Hrun, relabel_fires. reflexivity.
Qed.

Lemma getETPTankCapacity_relabels (request : ETPTankCapacityRequest) :
  str_truthy (date request) = true ->
  number_truthy (etp_inlet_tank_value request) = true ->
  fst (run (getETPTankCapacity host env request))
  = relabelled "Request timed out. Please check your connection and try again.".
Proof.
  intros Hd Hv. destruct (rejected_run api_etp_tank_capacity POST) as (log & Hrun).
  unfold run, getETPTankCapacity. rewrite Hd, Hv. cbn [negb orb].
  unfold try_catch, bind. rewrite Hrun, relabel_fires. reflexivity.
Qed.

Lemma exportQueryResults_relabels (request : ExportQueryResultsRequest) (data : json) :
  str_truthy (query request) = true ->
  raw_data request = Some data -> truthy data = true ->
  fst (run (exportQueryResults host env request))
  = relabelled "Request timed out. Please check your connection and try again.".
Proof.
  intros Hq Hr Hv. destruct (rejected_run api_export_query_results POST) as (log & Hrun).
  unfold run, exportQueryResults. rewrite Hq, Hr, Hv. cbn [negb orb].
  unfold try_catch, bind. rewrite Hrun, relabel_fires. reflexivity.
Qed.

(** The wrappers without a [catch] block pass the error on as it is. *)
Lemma plain_wrappers_propagate :
  fst (run (createTask host env)) = Rejected (Err e)
  /\ fst (run (listTasks host env)) = Rejected (Err e)
  /\ fst (run (updateTask host env)) = Rejected (Err e)
  /\ fst (run (deleteTask host env)) = Rejected (Err e)
  /\ fst (run (getUpcomingTasks host env)) = Rejected (Err e)
  /\ fst (run (exportToSheet host env)) = Rejected (Err e).
Proof.
  unfold run, createTask, listTasks, updateTask, deleteTask, getUpcomingTasks,
    exportToSheet, bind.
  destruct (rejected_run tasks POST) as (l1 & H1).
  destruct (rejected_run tasks GET) as (l2 & H2).
  destruct (rejected_run task_by_id PUT) as (l3 & H3).
  destruct (rejected_run task_by_id DELETE) as (l4 & H4).
  destruct (rejected_run tasks_upcoming GET) as (l5 & H5).
  destruct (rejected_run export_sheet POST) as (l6 & H6).
  rewrite H1, H2, H3, H4, H5, H6. repeat split.
Qed.

End Relabel.

(** Claim C5, as the code has it. When [fetchWithRetry] rejects with an
    error whose message is ['Request timeout'], the four functions that
    wrap the call in [try]/[catch] reject with a re-labelled message that
    tells the caller to check the connection and try again:
    [sendChatMessage], [getETPTankCapacity] and [exportQueryResults] with
    ['Request timed out. ...'], [processNaturalLanguageQuery] with
    ['Query timed out. ...']. The functions without a [catch] block
    ([createTask], [listTasks], [updateTask], [deleteTask],
    [getUpcomingTasks], [exportToSheet]) reject with the error as it is. *)
Theorem timeout_relabelled_by_catching_wrappers
        (host : Host) (env : nat -> attempt_env) (e : JsError) :
  message e = lit "Request timeout" ->
  (forall url m,
      fst (run (fetchWithRetry host env url (no_signal m) MAX_RETRIES))
      = Rejected (Err e)) ->
  (forall input user_id,
      forallb is_whitespace input = false ->
      fst (run (sendChatMessage host env input user_id))
      = Rejected (Err (Error
          (lit "Request timed out. Please check your connection and try again."))))
  /\ (forall input,
      forallb is_whitespace input = false ->
      fst (run (processNaturalLanguageQuery host env input))
      = Rejected (Err (Error
          (lit "Query timed out. Please check your connection and try again."))))
  /\ (forall request,
      str_truthy (date request) = true ->
      number_truthy (etp_inlet_tank_value request) = true ->
      fst (run (getETPTankCapacity host env request))
      = Rejected (Err (Error
          (lit "Request timed out. Please check your connection and try again."))))
  /\ (forall request data,
      str_truthy (query request) = true ->
      raw_data request = Some data -> truthy data = true ->
      fst (run (exportQueryResults host env request))
      = Rejected (Err (Error
          (lit "Request timed out. Please check your connection and try again."))))
  /\ fst (run (createTask host env)) = Rejected (Err e)
  /\ fst (run (listTasks host env)) = Rejected (Err e)
  /\ fst (run (updateTask host env)) = Rejected (Err e)
  /\ fst (run (deleteTask host env)) = Rejected (Err e)
  /\ fst (run (getUpcomingTasks host env)) = Rejected (Err e)
  /\ fst (run (exportToSheet host env)) = Rejected (Err e).
Proof.
  intros Hmsg Hrej.
  split; [|split; [|split; [|split]]].
  - intros input user_id. apply sendChatMessage_relabels with (e := e); assumption.
  - intros input. apply processNaturalLanguageQuery_relabels with (e := e); assumption.
  - intros request. apply getETPTankCapacity_relabels with (e := e); assumption.
  - intros request data. apply exportQueryResults_relabels with (e := e); assumption.
  - apply plain_wrappers_propagate. exact Hrej.
Qed.

Lemma timeout_relabelled_by_catching_wrappers_witness :
  fst (run (sendChatMessage sample_host (always pending Abort.quiet)
              (lit "hello") (lit "default")))
  = Rejected (Err (Error
      (lit "Request timed out. Please check your connection and try again."))).
Proof.
  apply (proj1 (@timeout_relabelled_by_catching_wrappers sample_host
                  (always pending Abort.quiet) (Error (lit "Request timeout"))
                  eq_refl (fun url m => eq_refl))).
  reflexivity.
Defined.

(** Claim C5 as stated fails on the functions without a [catch] block:
    when the transport is still pending at the deadline, they reject with
    the message ['Request timeout'] itself. *)
Lemma unlabelled_timeout_counterexample :
  let env := always pending Abort.quiet in
  let timeout : thrown := Err (Error (lit "Request timeout")) in
  fst (run (createTask sample_host env)) = Rejected timeout
  /\ fst (run (listTasks sample_host env)) = Rejected timeout
  /\ fst (run (updateTask sample_host env)) = Rejected timeout
  /\ fst (run (deleteTask sample_host env)) = Rejected timeout
  /\ fst (run (exportToSheet sample_host env)) = Rejected timeout
  /\ lit "Request timeout"
     <> lit "Request timed out. Please check your connection and try again.".
Proof. repeat split. discriminate. Qed.

(** * Further properties of the request client *)

(** ** The call as a whole *)

Lemma first_unretried (f : nat -> bool) (budget : nat) :
  exists k, k <= budget
            /\ (forall i, i < k -> f i = true)
            /\ (k < budget -> f k = false).
Proof.
  induction budget as [|budget (k & Hk & Hpre & Hstop)].
  - exists 0. repeat split; intros; lia.
  - destruct (Nat.eq_dec k budget) as [->|Hne].
    + destruct (f budget) eqn:Hf.
      * exists (S budget). repeat split; [lia | | lia].
        intros i Hi. destruct (Nat.eq_dec i budget) as [->|]; [exact Hf|].
        apply Hpre. lia.
      * exists budget. repeat split; auto.
    + exists k. repeat split; auto. intros _. apply Hstop. lia.
Qed.

(** What the [catch] block makes of an error once the loop is over. *)
Definition surfaced (x : thrown) : thrown :=
  if str_eqb (name (as_error x)) (lit "AbortError")
  then Err (Error (lit "Request timeout"))
  else Err (as_error x).

(** Every call is decided by one attempt [k] of the budget: the attempts
    before it were retried, each followed by its backoff, and the call
    settles as attempt [k] does. *)
Lemma fetchWithRetry_decided
      (host : Host) (env : nat -> attempt_env) (url : endpoint)
      (options : RequestInit) (retries : nat) :
  exists k log,
    k <= retries
    /\ (forall i, i < k -> retried (attempt_outcome host options (env i)) = true)
    /\ (k < retries -> retried (attempt_outcome host options (env k)) = false)
    /\ snd (run (fetchWithRetry host env url options retries)) = log
    /\ attempts log = S k
    /\ delays log = map backoff (seq 0 k)
    /\ fst (run (fetchWithRetry host env url options retries))
       = match attempt_outcome host options (env k) with
         | Resolved response => Resolved response
         | Rejected x => Rejected (surfaced x)
         end.
Proof.
  destruct (first_unretried
              (fun i => retried (attempt_outcome host options (env i))) retries)
    as (k & Hk & Hpre & Hstop).
  cbv beta in Hpre, Hstop.
  destruct (attempt_outcome host options (env k)) as [response|x] eqn:Ho.
  - destruct (@fetchWithRetry_resolves host env url options retries k response)
      as (log & Hrun & Ha & Hd); auto.
    { destruct (Nat.eq_dec k retries) as [->|Hne]; [right; right; lia|].
      assert (Hf : retried (Resolved response) = false) by (apply Hstop; lia).
      unfold retried in Hf. apply andb_false_iff in Hf as [Hf|Hf];
        apply negb_false_iff in Hf; auto. }
    exists k, log. rewrite Hrun, Ho. repeat split; auto.
  - unfold surfaced.
    destruct (str_eqb (name (as_error x)) (lit "AbortError")) eqn:Hab.
    + apply str_eqb_eq in Hab.
      destruct (@fetchWithRetry_aborts host env url options retries k x)
        as (log & Hrun & Ha & Hd); auto.
      exists k, log. rewrite Hrun, Ho, Hab. repeat split; auto.
    + assert (Hr : retried (Rejected x : settled Response) = true)
        by (simpl; rewrite Hab; reflexivity).
      assert (k = retries) as ->.
      { destruct (Nat.eq_dec k retries) as [|Hne]; [assumption|].
        rewrite Hstop in Hr by lia. discriminate. }
      destruct (@fetchWithRetry_exhausts host env url options retries x)
        as (log & Hrun & Ha & Hd); auto.
      { intros i Hi. destruct (Nat.eq_dec i retries) as [->|];
          [rewrite Ho; exact Hr | apply Hpre; lia]. }
      exists retries, log. rewrite Hrun, Ho, Hab. repeat split; auto.
Qed.

(** The call is decided by exactly one attempt. *)
Lemma decisive_attempt_unique (f : nat -> bool) (budget k k' : nat) :
  k <= budget -> (forall i, i < k -> f i = true) -> (k < budget -> f k = false) ->
  k' <= budget -> (forall i, i < k' -> f i = true) -> (k' < budget -> f k' = false) ->
  k = k'.
Proof.
  intros Hk Hpre Hstop Hk' Hpre' Hstop'.
  destruct (Nat.lt_trichotomy k k') as [Hlt|[Heq|Hgt]]; [|exact Heq|].
  - specialize (Hpre' k Hlt). rewrite Hstop in Hpre' by lia. discriminate.
  - specialize (Hpre k' Hgt). rewrite Hstop' in Hpre by lia. discriminate.
Qed.

(** A call that goes beyond attempt [k] starts as the call decided by
    attempt [k + 1] does. *)
Lemma retry_schedule_prefix (k k' : nat) :
  k < k' -> exists rest, retry_schedule k' = retry_schedule (S k) ++ rest.
Proof.
  intros Hlt. unfold retry_schedule.
  replace k' with (S k + (k' - S k)) by lia.
  rewrite seq_app, flat_map_app. cbn [Nat.add].
  destruct (k' - S k) as [|j].
  - exists []. cbn [seq flat_map]. rewrite !app_nil_r. reflexivity.
  - exists (pause (backoff (S k))
            :: flat_map (fun n => [call; pause (backoff n)]) (seq (S (S k)) j) ++ [call]).
    cbn [seq flat_map app]. rewrite <- !app_assoc. reflexivity.
Qed.

(** ** Aborts, and the deadline that is not one *)

(** Claim C4. An abort has two causes. The caller's cancellation ends the
    call at once, and so does the attempt's own deadline when the caller
    passed no signal: the call rejects with
    [Error('Request timeout')], the attempt in flight is the last
    transport call and no backoff follows it, whatever budget is left.
    But when the caller passed a signal and it does not fire, the
    deadline of an attempt whose transport is still pending does not
    abort the transport: the attempt ends with the plain [Error] of
    [createTimeout], whose name is not [AbortError], and with budget left
    it is followed by its backoff and by another transport call. *)
Theorem deadline_is_retried_when_signal_is_passed
        (host : Host) (env : nat -> attempt_env) (url : endpoint)
        (options : RequestInit) (retries k : nat) :
  k <= retries ->
  k < first_infinite_backoff ->
  (forall i, i < k -> retried (attempt_outcome host options (env i)) = true) ->
  let result := run (fetchWithRetry host env url options retries) in
  let ends_at_once :=
    fst result = Rejected (Err (Error (lit "Request timeout")))
    /\ schedule (snd result) = retry_schedule k
    /\ attempts (snd result) = S k in
  (req_signal options = true ->
   caller_signal (env k) = Abort.fires_in_flight ->
   ends_at_once)
  /\ (req_signal options = false ->
      network (env k) = pending ->
      ends_at_once)
  /\ (req_signal options = true ->
      caller_signal (env k) <> Abort.fires_in_flight ->
      network (env k) = pending ->
      attempt_outcome host options (env k) = Rejected (Err (Error (lit "Request timeout")))
      /\ (k < retries ->
          S k < attempts (snd result)
          /\ exists rest, schedule (snd result) = retry_schedule (S k) ++ rest)).
Proof.
  intros Hk _ Hpre. cbv zeta.
  assert (Hends : attempt_outcome host options (env k) = Rejected (AbortError host) ->
                  fst (run (fetchWithRetry host env url options retries))
                  = Rejected (Err (Error (lit "Request timeout")))
                  /\ schedule (snd (run (fetchWithRetry host env url options retries)))
                     = retry_schedule k
                  /\ attempts (snd (run (fetchWithRetry host env url options retries)))
                     = S k).
  { intros Ho.
    destruct (@fetchWithRetry_aborts host env url options retries k (AbortError host))
      as (log & Hrun & Ha & _); auto.
    rewrite Hrun. cbn [fst snd]. split; [reflexivity|]. split; [|exact Ha].
    replace log with (snd (run (fetchWithRetry host env url options retries)))
      by (rewrite Hrun; reflexivity).
    apply fetchWithRetry_schedule; auto.
    intros _. rewrite Ho. reflexivity. }
  destruct options as [m s]. destruct (env k) as [t c] eqn:Hek.
  cbn [req_signal caller_signal network] in *.
  split; [|split].
  - intros -> ->. apply Hends. reflexivity.
  - intros -> ->. apply Hends. destruct c; reflexivity.
  - intros -> Hc ->.
    assert (Ho : attempt_outcome host {| req_method := m; req_signal := true |}
                   {| network := pending; caller_signal := c |}
                 = Rejected (Err (Error (lit "Request timeout")))).
    { destruct c; [reflexivity | reflexivity | exfalso; apply Hc; reflexivity]. }
    split; [exact Ho|]. intros Hlt.
    destruct (fetchWithRetry_decided host env url
                {| req_method := m; req_signal := true |} retries)
      as (k' & log & Hk' & Hpre' & Hstop' & Hlog & Ha & _).
    assert (Hgt : k < k').
    { destruct (Nat.lt_ge_cases k k') as [|Hle]; [assumption|]. exfalso.
      assert (Hr : retried (attempt_outcome host {| req_method := m; req_signal := true |}
                              (env k')) = true).
      { destruct (Nat.eq_dec k' k) as [->|Hne].
        - rewrite Hek, Ho. reflexivity.
        - apply Hpre. lia. }
      rewrite Hstop' in Hr by lia. discriminate. }
    rewrite (@fetchWithRetry_schedule host env url _ retries k' Hk' Hpre' Hstop').
    rewrite Hlog, Ha. split; [lia|].
    apply retry_schedule_prefix. exact Hgt.
Qed.

Lemma deadline_is_retried_when_signal_is_passed_witness :
  let result := run (fetchWithRetry sample_host (always pending Abort.quiet)
                       chat (with_signal POST) 3) in
  1 < attempts (snd result)
  /\ exists rest, schedule (snd result) = [call; pause 1000; call] ++ rest.
Proof.
  cbv zeta.
  destruct (@deadline_is_retried_when_signal_is_passed sample_host
              (always pending Abort.quiet) chat (with_signal POST) 3 0)
    as (_ & _ & H).
  - lia.
  - unfold first_infinite_backoff. lia.
  - intros i Hi. lia.
  - destruct (H eq_refl) as (_ & Hretry); [discriminate | reflexivity |].
    apply Hretry. lia.
Defined.

(** Extra X1. Whatever the network and the caller's signal do, a call
    with a budget of at most 1015 retries makes at least one and at most
    [retries + 1] transport calls, and its log is a strict alternation:
    every transport call but the last is followed by the backoff of its
    attempt, [RETRY_DELAY * 2^n] after attempt [n], before the next
    transport call is made. Nothing is slept before the first transport
    call, and no backoff follows the last one. *)
Theorem attempts_stay_within_budget
        (host : Host) (env : nat -> attempt_env) (url : endpoint)
        (options : RequestInit) (retries : nat) :
  retries <= first_infinite_backoff ->
  let log := snd (run (fetchWithRetry host env url options retries)) in
  1 <= attempts log <= S retries
  /\ delays log = map backoff (seq 0 (attempts log - 1))
  /\ schedule log = retry_schedule (attempts log - 1).
Proof.
  intros _.
  destruct (fetchWithRetry_decided host env url options retries)
    as (k & log & Hk & Hpre & Hstop & Hlog & Ha & Hd & _).
  cbv zeta. rewrite (@fetchWithRetry_schedule host env url options retries k Hk Hpre Hstop).
  rewrite Hlog, Ha, Hd.
  replace (S k - 1) with k by lia. repeat split; lia.
Qed.

Lemma attempts_stay_within_budget_witness :
  schedule (snd (run (fetchWithRetry sample_host
                        (switch_at 2
                           {| network := fails (TypeError (lit "Failed to fetch"));
                              caller_signal := Abort.quiet |}
                           {| network := responds (success JNull);
                              caller_signal := Abort.quiet |})
                        chat (no_signal POST) 3)))
  = [call; pause 1000; call; pause 2000; call].
Proof.
  destruct (@attempts_stay_within_budget sample_host
              (switch_at 2
                 {| network := fails (TypeError (lit "Failed to fetch"));
                    caller_signal := Abort.quiet |}
                 {| network := responds (success JNull);
                    caller_signal := Abort.quiet |})
              chat (no_signal POST) 3)
    as (_ & _ & H).
  - unfold first_infinite_backoff. lia.
  - exact H.
Defined.

(** Extra X2. A call only ever rejects with an [Error] instance: either
    [Error('Request timeout')], after an attempt failed with an error
    named [AbortError], or, after the whole budget was used, the error of
    the last attempt (wrapped in [new Error(String(...))] if it was not an
    [Error]). *)
Theorem rejection_is_timeout_or_last_error
        (host : Host) (env : nat -> attempt_env) (url : endpoint)
        (options : RequestInit) (retries : nat) (x : thrown) :
  fst (run (fetchWithRetry host env url options retries)) = Rejected x ->
  (x = Err (Error (lit "Request timeout"))
   /\ exists k x0, k <= retries
                   /\ attempt_outcome host options (env k) = Rejected x0
                   /\ name (as_error x0) = lit "AbortError")
  \/ (exists x0, attempt_outcome host options (env retries) = Rejected x0
                 /\ name (as_error x0) <> lit "AbortError"
                 /\ x = Err (as_error x0)
                 /\ attempts (snd (run (fetchWithRetry host env url options retries)))
                    = S retries).
Proof.
  destruct (fetchWithRetry_decided host env url options retries)
    as (k & log & Hk & _ & Hstop & Hlog & Ha & _ & Hres).
  rewrite Hres, Hlog. clear Hres.
  destruct (attempt_outcome host options (env k)) as [response|x0] eqn:Ho;
    [discriminate|].
  intros H. injection H as <-. unfold surfaced.
  destruct (str_eqb (name (as_error x0)) (lit "AbortError")) eqn:Hab.
  - left. split; [reflexivity|]. exists k, x0. apply str_eqb_eq in Hab. auto.
  - right. assert (k = retries) as ->.
    { destruct (Nat.eq_dec k retries) as [|Hne]; [assumption|].
      specialize (Hstop ltac:(lia)). simpl in Hstop. rewrite Hab in Hstop.
      discriminate. }
    exists x0. repeat split; auto.
    intros Heq. apply str_eqb_eq in Heq. congruence.
Qed.

Lemma rejection_is_timeout_or_last_error_witness :
  exists x0,
    attempt_outcome sample_host (no_signal GET)
      (always (fails (NonErr (lit "offline"))) Abort.quiet 3) = Rejected x0
    /\ Err (Error (lit "offline")) = Err (as_error x0).
Proof.
  destruct (@rejection_is_timeout_or_last_error sample_host
              (always (fails (NonErr (lit "offline"))) Abort.quiet)
              tasks (no_signal GET) 3 (Err (Error (lit "offline"))) eq_refl)
    as [[H _]|(x0 & Ho & _ & Hx & _)].
  - discriminate H.
  - exists x0. split; assumption.
Defined.

(** Extra X3. A response that is neither ok nor 4xx (a 5xx, say) is
    handed to the caller only when the budget is spent: it is the response
    of attempt [retries], and [retries + 1] transport calls were made. *)
Theorem failing_response_surfaces_after_budget
        (host : Host) (env : nat -> attempt_env) (url : endpoint)
        (options : RequestInit) (retries : nat) (response : Response) :
  fst (run (fetchWithRetry host env url options retries)) = Resolved response ->
  ok response = false -> is_4xx response = false ->
  attempt_outcome host options (env retries) = Resolved response
  /\ attempts (snd (run (fetchWithRetry host env url options retries))) = S retries.
Proof.
  destruct (fetchWithRetry_decided host env url options retries)
    as (k & log & Hk & _ & Hstop & Hlog & Ha & _ & Hres).
  rewrite Hres, Hlog. clear Hres.
  destruct (attempt_outcome host options (env k)) as [r|x0] eqn:Ho;
    [|discriminate].
  intros H Hok H4. injection H as ->.
  assert (k = retries) as ->.
  { destruct (Nat.eq_dec k retries) as [|Hne]; [assumption|].
    specialize (Hstop ltac:(lia)). simpl in Hstop. rewrite Hok, H4 in Hstop.
    discriminate. }
  split; assumption.
Qed.

Lemma failing_response_surfaces_after_budget_witness :
  attempts (snd (run (fetchWithRetry sample_host
                        (always (responds server_error) Abort.quiet)
                        chat (no_signal POST) 3))) = 4.
Proof.
  apply (@failing_response_surfaces_after_budget sample_host
           (always (responds server_error) Abort.quiet) chat (no_signal POST) 3
           server_error); reflexivity.
Defined.

(** Extra X4. When every attempt of a budget of at most 1015 retries fails
    with an error that is not named [AbortError] (a network failure), the
    call makes all [retries + 1] transport calls, each but the last
    followed by its backoff [RETRY_DELAY * 2^n] before the next one is
    made, and rejects with the error of the last attempt. *)
Theorem network_errors_use_the_budget
        (host : Host) (env : nat -> attempt_env) (url : endpoint)
        (options : RequestInit) (retries : nat) :
  retries <= first_infinite_backoff ->
  (forall n, n <= retries ->
     exists e, attempt_outcome host options (env n) = Rejected (Err e)
               /\ name e <> lit "AbortError") ->
  exists e log,
    attempt_outcome host options (env retries) = Rejected (Err e)
    /\ run (fetchWithRetry host env url options retries) = (Rejected (Err e), log)
    /\ attempts log = S retries
    /\ delays log = map (fun n => RETRY_DELAY * 2 ^ N.of_nat n)%N (seq 0 retries)
    /\ schedule log = retry_schedule retries.
Proof.
  intros _ Hall.
  destruct (Hall retries (Nat.le_refl _)) as (e & Ho & Hne).
  assert (Hpre : forall i, i <= retries ->
                           retried (attempt_outcome host options (env i)) = true).
  { intros i Hi. destruct (Hall i Hi) as (ei & Hoi & Hnei). rewrite Hoi.
    simpl. rewrite (str_eqb_neq Hnei). reflexivity. }
  destruct (@fetchWithRetry_exhausts host env url options retries (Err e))
    as (log & Hrun & Ha & Hd); auto.
  exists e, log. repeat split; auto.
  replace log with (snd (run (fetchWithRetry host env url options retries)))
    by (rewrite Hrun; reflexivity).
  apply fetchWithRetry_schedule; [lia | intros i Hi; apply Hpre; lia | lia].
Qed.

Lemma network_errors_use_the_budget_witness :
  exists e log,
    run (fetchWithRetry sample_host
           (always (fails (TypeError (lit "Failed to fetch"))) Abort.quiet)
           chat (no_signal POST) 3) = (Rejected (Err e), log)
    /\ message e = lit "Failed to fetch"
    /\ attempts log = 4
    /\ schedule log = [call; pause 1000; call; pause 2000; call; pause 4000; call].
Proof.
  destruct (@network_errors_use_the_budget sample_host
              (always (fails (TypeError (lit "Failed to fetch"))) Abort.quiet)
              chat (no_signal POST) 3)
    as (e & log & Ho & Hrun & Ha & Hd & Hs).
  - unfold first_infinite_backoff. lia.
  - intros n _. exists (mkError (lit "TypeError") (lit "Failed to fetch")).
    split; [reflexivity | discriminate].
  - exists e, log. injection Ho as <-. auto.
Defined.

(** Extra X5. Transient failures are survived: when the attempts before
    attempt [k] were retried ([k] at most 1015) and attempt [k] is
    answered with a 2xx response, the call resolves with that response
    after [k + 1] transport calls, each of the first [k] followed by its
    backoff [RETRY_DELAY * 2^n] before the next one, and nothing after
    the last. *)
Theorem call_recovers_after_retries
        (host : Host) (env : nat -> attempt_env) (url : endpoint)
        (options : RequestInit) (retries k : nat) (response : Response) :
  k <= retries ->
  k <= first_infinite_backoff ->
  (forall i, i < k ->
     (exists r, attempt_outcome host options (env i) = Resolved r
                /\ ok r = false /\ is_4xx r = false)
     \/ (exists e, attempt_outcome host options (env i) = Rejected (Err e)
                   /\ name e <> lit "AbortError")) ->
  attempt_outcome host options (env k) = Resolved response ->
  (200 <= status response <= 299)%N ->
  exists log,
    run (fetchWithRetry host env url options retries) = (Resolved response, log)
    /\ attempts log = S k
    /\ delays log = map (fun n => RETRY_DELAY * 2 ^ N.of_nat n)%N (seq 0 k)
    /\ schedule log = retry_schedule k.
Proof.
  intros Hk _ Hall Ho Hstatus.
  assert (Hok : ok response = true).
  { unfold ok. apply andb_true_iff. split; apply N.leb_le; lia. }
  assert (Hpre : forall i, i < k ->
                           retried (attempt_outcome host options (env i)) = true).
  { intros i Hi. destruct (Hall i Hi) as [(r & Hr & Hokr & H4)|(e & He & Hne)].
    - rewrite Hr. simpl. rewrite Hokr, H4. reflexivity.
    - rewrite He. simpl. rewrite (str_eqb_neq Hne). reflexivity. }
  destruct (@fetchWithRetry_resolves host env url options retries k response)
    as (log & Hrun & Ha & Hd); auto.
  exists log. repeat split; auto.
  replace log with (snd (run (fetchWithRetry host env url options retries)))
    by (rewrite Hrun; reflexivity).
  apply fetchWithRetry_schedule; auto.
  intros _. rewrite Ho. simpl. rewrite Hok. apply andb_false_r.
Qed.

Lemma call_recovers_after_retries_witness :
  exists log,
    run (fetchWithRetry sample_host
           (switch_at 2 {| network := responds server_error; caller_signal := Abort.quiet |}
                        {| network := responds (success JNull);
                           caller_signal := Abort.quiet |})
           chat (no_signal POST) 3) = (Resolved (success JNull), log)
    /\ attempts log = 3
    /\ delays log = [1000; 2000]%N
    /\ schedule log = [call; pause 1000; call; pause 2000; call].
Proof.
  apply (@call_recovers_after_retries sample_host _ chat (no_signal POST) 3 2
           (success JNull)).
  - lia.
  - unfold first_infinite_backoff. lia.
  - intros i Hi. left. exists server_error.
    destruct i as [|[|i]]; [repeat split .. | lia].
  - reflexivity.
  - simpl. lia.
Defined.

(** Extra X6. The state of the caller's signal at the start of an attempt
    is never looked at: with a signal that is already aborted, the
    transport call is still made, with [combinedController.signal], and
    the attempt settles as the transport does. *)
Theorem aborted_signal_is_not_checked
        (host : Host) (env : nat -> attempt_env) (url : endpoint) (m : method)
        (retries : nat) (response : Response) :
  env 0 = {| network := responds response; caller_signal := Abort.already_aborted |} ->
  ok response = true ->
  run (fetchWithRetry host env url (with_signal m) retries)
  = (Resolved response,
     [setTimeout controller_abort REQUEST_TIMEOUT;
      fetch m url (of_controller Abort.combinedController);
      setTimeout reject_timeout REQUEST_TIMEOUT;
      clearTimeout]).
Proof.
  intros He Hok. unfold run, fetchWithRetry. cbn [loop]. unfold bind at 1.
  unfold iteration, try_catch, bind at 1.
  rewrite attempt_once_run. unfold attempt_outcome. rewrite He. simpl.
  destruct ((400 <=? status response)%N && (status response <? 500)%N);
    [reflexivity|].
  rewrite Hok. reflexivity.
Qed.

Lemma aborted_signal_is_not_checked_witness :
  attempts (snd (run (fetchWithRetry sample_host
                        (always (responds (success JNull)) Abort.already_aborted)
                        chat (with_signal POST) 3))) = 1.
Proof.
  rewrite (@aborted_signal_is_not_checked sample_host
             (always (responds (success JNull)) Abort.already_aborted)
             chat POST 3 (success JNull) eq_refl eq_refl).
  reflexivity.
Defined.

(** ** The exported functions on the paths the claims leave out *)

Ltac break_match :=
  match goal with
  | |- context [match ?x with _ => _ end] => destruct x eqn:?
  end.

(** Without a caller's signal an attempt settles as the transport does,
    the deadline counting as an [AbortError]. *)
Lemma outcome_without_signal (host : Host) (m : method) (e : attempt_env) :
  attempt_outcome host (no_signal m) e
  = match network e with
    | responds response => Resolved response
    | fails x => Rejected x
    | pending => Rejected (AbortError host)
    end.
Proof. destruct e as [[response|x|] []]; reflexivity. Qed.

Lemma first_response_ends_the_call
      (host : Host) (env : nat -> attempt_env) (url : endpoint) (m : method)
      (retries : nat) (response : Response) :
  network (env 0) = responds response ->
  ok response = true \/ is_4xx response = true ->
  fetchWithRetry host env url {| req_method := m; req_signal := false |} retries []
  = (Resolved response, one_attempt_log m url).
Proof.
  intros Hn Hend. unfold fetchWithRetry. cbn [loop]. unfold bind at 1.
  unfold iteration, try_catch, bind at 1.
  rewrite attempt_once_run. fold (no_signal m). rewrite outcome_without_signal, Hn.
  fold (is_4xx response).
  destruct (is_4xx response) eqn:H4; [reflexivity|].
  destruct Hend as [Hok|]; [|discriminate]. rewrite Hok. reflexivity.
Qed.

(** A computation is silent when it leaves the log as it is. After their
    [fetchWithRetry] call, the exported functions run silent steps only. *)
Definition silent {A} (c : async A) : Prop := forall log, snd (c log) = log.

Lemma silent_ret {A} (a : A) : silent (ret a).
Proof. intros log. reflexivity. Qed.

Lemma silent_throw {A} (x : thrown) : silent (@throw A x).
Proof. intros log. reflexivity. Qed.

Lemma silent_settle {A} (s : settled A) : silent (settle s).
Proof. intros log. reflexivity. Qed.

Lemma silent_throw_new_Error (host : Host) {A} (v : json) :
  silent (@throw_new_Error host A v).
Proof. intros log. unfold throw_new_Error. destruct (ToString host v); reflexivity. Qed.

Lemma silent_relabel {A} (cause failure : string) (x : thrown) :
  silent (@relabel A cause failure x).
Proof.
  intros log. unfold relabel. destruct x as [e|text]; [|reflexivity].
  destruct (str_eqb (message e) (lit "Request timeout")); reflexivity.
Qed.

Lemma snd_bind_silent {A B} (c : async A) (k : A -> async B) (log : list io) :
  (forall a, silent (k a)) -> snd (bind c k log) = snd (c log).
Proof.
  intros Hk. unfold bind. destruct (c log) as [[a|x] log']; [apply Hk | reflexivity].
Qed.

Lemma silent_bind {A B} (c : async A) (k : A -> async B) :
  silent c -> (forall a, silent (k a)) -> silent (bind c k).
Proof. intros Hc Hk log. rewrite snd_bind_silent by exact Hk. apply Hc. Qed.

Lemma snd_try_catch_silent {A} (c : async A) (h : thrown -> async A) (log : list io) :
  (forall x, silent (h x)) -> snd (try_catch c h log) = snd (c log).
Proof.
  intros Hh. unfold try_catch. destruct (c log) as [[a|x] log']; [reflexivity | apply Hh].
Qed.

Lemma silent_if {A} (b : bool) (c1 c2 : async A) :
  silent c1 -> silent c2 -> silent (if b then c1 else c2).
Proof. destruct b; auto. Qed.

Create HintDb silent.

#[local] Hint Resolve silent_ret silent_throw silent_settle silent_throw_new_Error
  silent_relabel silent_if : silent.

Ltac silence :=
  repeat first
    [ rewrite snd_try_catch_silent by (intros; auto with silent)
    | rewrite snd_bind_silent
        by (intros; repeat (apply silent_bind; [|intros]);
            try break_match; auto with silent) ].

Lemma sendChatMessage_log (host : Host) (env : nat -> attempt_env)
      (input user_id : jsstring) :
  forallb is_whitespace input = false ->
  snd (run (sendChatMessage host env input user_id))
  = snd (run (fetchWithRetry host env chat (no_signal POST) MAX_RETRIES)).
Proof.
  intros Hin. unfold run, sendChatMessage.
  rewrite (non_blank_input_passes_validation input Hin).
  silence. reflexivity.
Qed.

Lemma processNaturalLanguageQuery_log (host : Host) (env : nat -> attempt_env)
      (input : jsstring) :
  forallb is_whitespace input = false ->
  snd (run (processNaturalLanguageQuery host env input))
  = snd (run (fetchWithRetry host env api_query (no_signal POST) MAX_RETRIES)).
Proof.
  intros Hin. unfold run, processNaturalLanguageQuery.
  rewrite (non_blank_input_passes_validation input Hin).
  silence. reflexivity.
Qed.

Lemma getETPTankCapacity_log (host : Host) (env : nat -> attempt_env)
      (request : ETPTankCapacityRequest) :
  str_truthy (date request) = true ->
  number_truthy (etp_inlet_tank_value request) = true ->
  snd (run (getETPTankCapacity host env request))
  = snd (run (fetchWithRetry host env api_etp_tank_capacity (no_signal POST) MAX_RETRIES)).
Proof.
  intros Hd Hv. unfold run, getETPTankCapacity. rewrite Hd, Hv. cbn [negb orb].
  silence. reflexivity.
Qed.

Lemma exportQueryResults_log (host : Host) (env : nat -> attempt_env)
      (request : ExportQueryResultsRequest) (data : json) :
  str_truthy (query request) = true ->
  raw_data request = Some data -> truthy data = true ->
  snd (run (exportQueryResults host env request))
  = snd (run (fetchWithRetry host env api_export_query_results (no_signal POST)
                MAX_RETRIES)).
Proof.
  intros Hq Hr Hv. unfold run, exportQueryResults. rewrite Hq, Hr, Hv. cbn [negb orb].
  silence. reflexivity.
Qed.

Lemma plain_functions_log (host : Host) (env : nat -> attempt_env) (docs_url : endpoint) :
  let calls m url := snd (run (fetchWithRetry host env url (no_signal m) MAX_RETRIES)) in
  snd (run (createTask host env)) = calls POST tasks
  /\ snd (run (listTasks host env)) = calls GET tasks
  /\ snd (run (getTask host env)) = calls GET task_by_id
  /\ snd (run (updateTask host env)) = calls PUT task_by_id
  /\ snd (run (deleteTask host env)) = calls DELETE task_by_id
  /\ snd (run (getUpcomingTasks host env)) = calls GET tasks_upcoming
  /\ snd (run (exportToSheet host env)) = calls POST export_sheet
  /\ snd (run (listDocs host env docs_url)) = calls POST docs_url
  /\ snd (run (readDoc host env docs_url)) = calls POST docs_url
  /\ snd (run (createDoc host env docs_url)) = calls POST docs_url
  /\ snd (run (summarizeDoc host env docs_url)) = calls POST docs_url.
Proof.
  cbv zeta.
  unfold run, createTask, listTasks, getTask, updateTask, deleteTask, getUpcomingTasks,
    exportToSheet, listDocs, readDoc, createDoc, summarizeDoc.
  repeat split; silence; reflexivity.
Qed.

Lemma fetch_attempts_bounds (host : Host) (env : nat -> attempt_env) (url : endpoint)
      (options : RequestInit) (retries : nat) :
  1 <= attempts (snd (run (fetchWithRetry host env url options retries))) <= S retries.
Proof.
  destruct (fetchWithRetry_decided host env url options retries)
    as (k & log & Hk & _ & _ & Hlog & Ha & _).
  rewrite Hlog, Ha. lia.
Qed.

Lemma nonempty_log_of_attempts (log : list io) : 1 <= attempts log -> log <> [].
Proof. intros H Hnil. subst log. unfold attempts in H. simpl in H. lia. Qed.



(** Extra X9. [exportQueryResults] ends with its required-field error and
    an empty log exactly when the query is the empty string or [raw_data]
    is falsy ([undefined], [null], [false], [0], [NaN], ['']); an empty
    array or object as [raw_data] passes and reaches the network. *)
Theorem export_request_rejected_locally_iff
        (host : Host) (env : nat -> attempt_env) (request : ExportQueryResultsRequest) :
  (run (exportQueryResults host env request)
     = (Rejected (Err (Error (lit "Query and raw_data are required"))), [])
   <-> (query request = []
        \/ raw_data request = None
        \/ exists v, raw_data request = Some v /\ truthy v = false))
  /\ truthy (JArr []) = true /\ truthy (JObj []) = true.
Proof.
  split; [|split; reflexivity]. split.
  - intros Hrun.
    destruct (str_truthy (query request)) eqn:Hq;
      [|left; destruct (query request); [reflexivity | discriminate]].
    destruct (raw_data request) as [v|] eqn:Hr; [|right; left; reflexivity].
    destruct (truthy v) eqn:Hv; [|right; right; exists v; auto].
    exfalso.
    apply (@nonempty_log_of_attempts (snd (run (exportQueryResults host env request)))).
    + rewrite (exportQueryResults_log host env request Hq Hr Hv).
      apply fetch_attempts_bounds.
    + rewrite Hrun. reflexivity.
  - intros H. unfold run, exportQueryResults.
    destruct H as [H|[H|(v & H & Hv)]]; rewrite H; try rewrite Hv; simpl;
      rewrite ?orb_true_r; reflexivity.
Qed.

Section OnResponse.

Context (host : Host) (env : nat -> attempt_env) (response : Response).

Hypothesis resolved :
  forall url m,
    fst (run (fetchWithRetry host env url (no_signal m) MAX_RETRIES)) = Resolved response.

Lemma resolved_run (url : endpoint) (m : method) :
  exists log,
    fetchWithRetry host env url {| req_method := m; req_signal := false |} MAX_RETRIES []
    = (Resolved response, log).
Proof.
  specialize (resolved url m). unfold run, no_signal in resolved.
  destruct (fetchWithRetry host env url _ MAX_RETRIES []) as [s log].
  simpl in resolved. subst s. exists log. reflexivity.
Qed.

(** The steps after the [fetchWithRetry] call, in the functions that
    return [response.json()]. *)
Lemma plain_steps_ok (log : list io) :
  ok response = true ->
  ((if negb (ok response)
    then throw_new_Error host (ApiError.message (parseErrorResponse host response))
    else ret tt) ;; settle (body response)) log
  = (body response, log).
Proof. intros Hok. rewrite Hok. reflexivity. Qed.

Lemma plain_steps_error (A : Type) (k : unit -> async A) (msg : jsstring) (log : list io) :
  ok response = false ->
  ApiError.message (parseErrorResponse host response) = JStr msg ->
  ((if negb (ok response)
    then throw_new_Error host (ApiError.message (parseErrorResponse host response))
    else ret tt) ;; k tt) log
  = (Rejected (Err (Error msg)), log).
Proof. intros Hok Hm. rewrite Hok, Hm. reflexivity. Qed.

Lemma catching_steps_error (cause failure : string) (msg : jsstring) (log : list io) :
  ok response = false ->
  ApiError.message (parseErrorResponse host response) = JStr msg ->
  str_eqb msg (lit "Request timeout") = false ->
  try_catch
    (fun l => (((if negb (ok response)
                 then throw_new_Error host
                        (or_else (Some (ApiError.message (parseErrorResponse host response)))
                           (JStr (lit "HTTP error! status: " ++ decimal (status response))))
                 else ret tt) ;;
                data <- settle (body response) ;; ret data) l))
    (relabel cause failure) log
  = (Rejected (Err (Error msg)), log).
Proof.
  intros Hok Hm Hne. unfold try_catch, bind. rewrite Hok. cbn [negb].
  rewrite or_else_truthy by apply parsed_message_truthy.
  rewrite Hm. simpl. rewrite Hne. reflexivity.
Qed.

Lemma catching_steps_ok (cause failure : string) (data : json) (log : list io) :
  ok response = true -> body response = Resolved data ->
  try_catch
    (fun l => (((if negb (ok response)
                 then throw_new_Error host
                        (or_else (Some (ApiError.message (parseErrorResponse host response)))
                           (JStr (lit "HTTP error! status: " ++ decimal (status response))))
                 else ret tt) ;;
                data <- settle (body response) ;; ret data) l))
    (relabel cause failure) log
  = (Resolved data, log).
Proof.
  intros Hok Hb. unfold try_catch, bind. rewrite Hok. cbn [negb].
  unfold ret at 1, settle. rewrite Hb. reflexivity.
Qed.

Lemma plain_functions_return_body :
  ok response = true ->
  fst (run (createTask host env)) = body response
  /\ fst (run (getTask host env)) = body response
  /\ fst (run (updateTask host env)) = body response
  /\ fst (run (exportToSheet host env)) = body response
  /\ fst (run (deleteTask host env)) = Resolved tt.
Proof.
  intros Hok.
  unfold run, createTask, getTask, updateTask, exportToSheet, deleteTask.
  repeat split;
    match goal with
    | |- context [fetchWithRetry host env ?url {| req_method := ?m; req_signal := _ |}] =>
        destruct (resolved_run url m) as (log & Hrun)
    end;
    unfold bind at 1; rewrite Hrun; try rewrite (plain_steps_ok log Hok);
    try rewrite Hok; reflexivity.
Qed.

Lemma catching_functions_return_body (data : json) :
  ok response = true -> body response = Resolved data ->
  (forall input user_id,
      forallb is_whitespace input = false ->
      fst (run (sendChatMessage host env input user_id)) = Resolved data)
  /\ (forall input,
      forallb is_whitespace input = false ->
      fst (run (processNaturalLanguageQuery host env input)) = Resolved data)
  /\ (forall request,
      str_truthy (date request) = true ->
      number_truthy (etp_inlet_tank_value request) = true ->
      fst (run (getETPTankCapacity host env request)) = Resolved data)
  /\ (forall request v,
      str_truthy (query request) = true ->
      raw_data request = Some v -> truthy v = true ->
      fst (run (exportQueryResults host env request)) = Resolved data).
Proof.
  intros Hok Hb.
  assert (Hstep : forall cause failure log,
             try_catch
               (fun l => (((if negb (ok response)
                            then throw_new_Error host
                                   (or_else (Some (ApiError.message
                                                     (parseErrorResponse host response)))
                                      (JStr (lit "HTTP error! status: "
                                             ++ decimal (status response))))
                            else ret tt) ;;
                           data <- settle (body response) ;; ret data) l))
               (relabel cause failure) log = (Resolved data, log))
    by (intros; apply catching_steps_ok; assumption).
  unfold try_catch, bind in Hstep.
  repeat split.
  - intros input user_id Hin. destruct (resolved_run chat POST) as (log & Hrun).
    unfold run, sendChatMessage. rewrite (non_blank_input_passes_validation input Hin).
    unfold try_catch, bind. rewrite Hrun. rewrite Hstep. reflexivity.
  - intros input Hin. destruct (resolved_run api_query POST) as (log & Hrun).
    unfold run, processNaturalLanguageQuery.
    rewrite (non_blank_input_passes_validation input Hin).
    unfold try_catch, bind. rewrite Hrun. rewrite Hstep. reflexivity.
  - intros request Hd Hv. destruct (resolved_run api_etp_tank_capacity POST) as (log & Hrun).
    unfold run, getETPTankCapacity. rewrite Hd, Hv. cbn [negb orb].
    unfold try_catch, bind. rewrite Hrun. rewrite Hstep. reflexivity.
  - intros request v Hq Hr Hv. destruct (resolved_run api_export_query_results POST)
      as (log & Hrun).
    unfold run, exportQueryResults. rewrite Hq, Hr, Hv. cbn [negb orb].
    unfold try_catch, bind. rewrite Hrun. rewrite Hstep. reflexivity.
Qed.

Lemma plain_functions_reject (docs_url : endpoint) (msg : jsstring) :
  ok response = false ->
  ApiError.message (parseErrorResponse host response) = JStr msg ->
  fst (run (createTask host env)) = Rejected (Err (Error msg))
  /\ fst (run (listTasks host env)) = Rejected (Err (Error msg))
  /\ fst (run (getTask host env)) = Rejected (Err (Error msg))
  /\ fst (run (updateTask host env)) = Rejected (Err (Error msg))
  /\ fst (run (deleteTask host env)) = Rejected (Err (Error msg))
  /\ fst (run (getUpcomingTasks host env)) = Rejected (Err (Error msg))
  /\ fst (run (exportToSheet host env)) = Rejected (Err (Error msg))
  /\ fst (run (listDocs host env docs_url)) = Rejected (Err (Error msg))
  /\ fst (run (readDoc host env docs_url)) = Rejected (Err (Error msg))
  /\ fst (run (createDoc host env docs_url)) = Rejected (Err (Error msg))
  /\ fst (run (summarizeDoc host env docs_url)) = Rejected (Err (Error msg)).
Proof.
  intros Hok Hm.
  unfold run, createTask, listTasks, getTask, updateTask, deleteTask, getUpcomingTasks,
    exportToSheet, listDocs, readDoc, createDoc, summarizeDoc.
  repeat split;
    match goal with
    | |- context [fetchWithRetry host env ?url {| req_method := ?m; req_signal := _ |}] =>
        destruct (resolved_run url m) as (log & Hrun)
    end;
    unfold bind at 1; rewrite Hrun;
    first [ rewrite (plain_steps_error _ msg log Hok Hm); reflexivity
          | rewrite Hok, Hm; reflexivity ].
Qed.

Lemma catching_functions_reject (msg : jsstring) :
  ok response = false ->
  ApiError.message (parseErrorResponse host response) = JStr msg ->
  str_eqb msg (lit "Request timeout") = false ->
  (forall input user_id,
      forallb is_whitespace input = false ->
      fst (run (sendChatMessage host env input user_id)) = Rejected (Err (Error msg)))
  /\ (forall input,
      forallb is_whitespace input = false ->
      fst (run (processNaturalLanguageQuery host env input)) = Rejected (Err (Error msg)))
  /\ (forall request,
      str_truthy (date request) = true ->
      number_truthy (etp_inlet_tank_value request) = true ->
      fst (run (getETPTankCapacity host env request)) = Rejected (Err (Error msg)))
  /\ (forall request v,
      str_truthy (query request) = true ->
      raw_data request = Some v -> truthy v = true ->
      fst (run (exportQueryResults host env request)) = Rejected (Err (Error msg))).
Proof.
  intros Hok Hm Hne.
  assert (Hstep : forall cause failure log,
             try_catch
               (fun l => (((if negb (ok response)
                            then throw_new_Error host
                                   (or_else (Some (ApiError.message
                                                     (parseErrorResponse host response)))
                                      (JStr (lit "HTTP error! status: "
                                             ++ decimal (status response))))
                            else ret tt) ;;
                           data <- settle (body response) ;; ret data) l))
               (relabel cause failure) log = (Rejected (Err (Error msg)), log))
    by (intros; apply catching_steps_error; assumption).
  unfold try_catch, bind in Hstep.
  repeat split.
  - intros input user_id Hin. destruct (resolved_run chat POST) as (log & Hrun).
    unfold run, sendChatMessage. rewrite (non_blank_input_passes_validation input Hin).
    unfold try_catch, bind. rewrite Hrun. rewrite Hstep. reflexivity.
  - intros input Hin. destruct (resolved_run api_query POST) as (log & Hrun).
    unfold run, processNaturalLanguageQuery.
    rewrite (non_blank_input_passes_validation input Hin).
    unfold try_catch, bind. rewrite Hrun. rewrite Hstep. reflexivity.
  - intros request Hd Hv. destruct (resolved_run api_etp_tank_capacity POST) as (log & Hrun).
    unfold run, getETPTankCapacity. rewrite Hd, Hv. cbn [negb orb].
    unfold try_catch, bind. rewrite Hrun. rewrite Hstep. reflexivity.
  - intros request v Hq Hr Hv. destruct (resolved_run api_export_query_results POST)
      as (log & Hrun).
    unfold run, exportQueryResults. rewrite Hq, Hr, Hv. cbn [negb orb].
    unfold try_catch, bind. rewrite Hrun. rewrite Hstep. reflexivity.
Qed.

(** The steps of the functions that read one field of the body. *)
Lemma field_functions_read (docs_url : endpoint) (data : json) :
  ok response = true -> body response = Resolved data ->
  fst (run (listTasks host env))
    = match get host data (lit "tasks") with
      | Resolved v => Resolved (or_else v (JArr []))
      | Rejected x => Rejected x
      end
  /\ fst (run (getUpcomingTasks host env))
    = match get host data (lit "tasks") with
      | Resolved v => Resolved (or_else v (JArr []))
      | Rejected x => Rejected x
      end
  /\ fst (run (listDocs host env docs_url))
    = match get host data (lit "docs") with
      | Resolved v => Resolved (or_else v (JArr []))
      | Rejected x => Rejected x
      end
  /\ fst (run (readDoc host env docs_url))
    = match get host data (lit "content") with
      | Resolved v => Resolved (or_else v (JStr (lit "")))
      | Rejected x => Rejected x
      end
  /\ fst (run (summarizeDoc host env docs_url))
    = match get host data (lit "summary") with
      | Resolved v => Resolved (or_else v (JStr (lit "")))
      | Rejected x => Rejected x
      end
  /\ fst (run (createDoc host env docs_url))
    = match get host data (lit "doc") with
      | Resolved (Some v) =>
          if truthy v then Resolved v
          else Rejected (Err (Error (lit "Failed to create document")))
      | Resolved None => Rejected (Err (Error (lit "Failed to create document")))
      | Rejected x => Rejected x
      end.
Proof.
  intros Hok Hb.
  unfold run, listTasks, getUpcomingTasks, listDocs, readDoc, summarizeDoc, createDoc.
  repeat split;
    match goal with
    | |- context [fetchWithRetry host env ?url {| req_method := ?m; req_signal := _ |}] =>
        destruct (resolved_run url m) as (log & Hrun)
    end;
    unfold bind at 1; rewrite Hrun; unfold bind; rewrite Hok; cbn [negb];
    unfold ret at 1, settle at 1; rewrite Hb; unfold settle;
    repeat (break_match; simpl); reflexivity.
Qed.

End OnResponse.

(** Extra X10. When the call resolves with a 2xx response whose body
    parses, the functions that end in [return response.json()] or
    [return data] resolve with the parsed body as it is, whatever its
    shape: no field of it is read or checked. *)
Theorem parsed_body_is_returned_unchecked
        (host : Host) (env : nat -> attempt_env) (response : Response) (data : json) :
  (forall url m,
      fst (run (fetchWithRetry host env url (no_signal m) MAX_RETRIES))
      = Resolved response) ->
  ok response = true ->
  body response = Resolved data ->
  fst (run (createTask host env)) = Resolved data
  /\ fst (run (getTask host env)) = Resolved data
  /\ fst (run (updateTask host env)) = Resolved data
  /\ fst (run (exportToSheet host env)) = Resolved data
  /\ (forall input user_id,
      forallb is_whitespace input = false ->
      fst (run (sendChatMessage host env input user_id)) = Resolved data)
  /\ (forall input,
      forallb is_whitespace input = false ->
      fst (run (processNaturalLanguageQuery host env input)) = Resolved data)
  /\ (forall request,
      str_truthy (date request) = true ->
      number_truthy (etp_inlet_tank_value request) = true ->
      fst (run (getETPTankCapacity host env request)) = Resolved data)
  /\ (forall request v,
      str_truthy (query request) = true ->
      raw_data request = Some v -> truthy v = true ->
      fst (run (exportQueryResults host env request)) = Resolved data).
Proof.
  intros Hres Hok Hb.
  destruct (@plain_functions_return_body host env response Hres Hok)
    as (H1 & H2 & H3 & H4 & _).
  rewrite Hb in H1, H2, H3, H4.
  repeat (split; [assumption|]).
  apply catching_functions_return_body with (response := response); assumption.
Qed.

Lemma parsed_body_is_returned_unchecked_witness :
  fst (run (createTask sample_host
              (always (responds (success (JStr (lit "not a task")))) Abort.quiet)))
  = Resolved (JStr (lit "not a task")).
Proof.
  apply (@parsed_body_is_returned_unchecked sample_host
           (always (responds (success (JStr (lit "not a task")))) Abort.quiet)
           (success (JStr (lit "not a task"))) (JStr (lit "not a task"))
           (fun url m => eq_refl) eq_refl eq_refl).
Defined.

(** Extra X11. When the call resolves with a response that is not ok and
    whose body does not parse as JSON, every function rejects with the
    message ['HTTP {status}: {statusText}']. *)
Theorem unparseable_error_body_gives_http_message
        (host : Host) (env : nat -> attempt_env) (docs_url : endpoint)
        (response : Response) (x : thrown) :
  (forall url m,
      fst (run (fetchWithRetry host env url (no_signal m) MAX_RETRIES))
      = Resolved response) ->
  ok response = false ->
  body response = Rejected x ->
  let rejection : thrown :=
    Err (Error (lit "HTTP " ++ decimal (status response) ++ lit ": "
                ++ statusText response)) in
  (fst (run (createTask host env)) = Rejected rejection
   /\ fst (run (listTasks host env)) = Rejected rejection
   /\ fst (run (getTask host env)) = Rejected rejection
   /\ fst (run (updateTask host env)) = Rejected rejection
   /\ fst (run (deleteTask host env)) = Rejected rejection
   /\ fst (run (getUpcomingTasks host env)) = Rejected rejection
   /\ fst (run (exportToSheet host env)) = Rejected rejection
   /\ fst (run (listDocs host env docs_url)) = Rejected rejection
   /\ fst (run (readDoc host env docs_url)) = Rejected rejection
   /\ fst (run (createDoc host env docs_url)) = Rejected rejection
   /\ fst (run (summarizeDoc host env docs_url)) = Rejected rejection)
  /\ (forall input user_id,
      forallb is_whitespace input = false ->
      fst (run (sendChatMessage host env input user_id)) = Rejected rejection)
  /\ (forall input,
      forallb is_whitespace input = false ->
      fst (run (processNaturalLanguageQuery host env input)) = Rejected rejection)
  /\ (forall request,
      str_truthy (date request) = true ->
      number_truthy (etp_inlet_tank_value request) = true ->
      fst (run (getETPTankCapacity host env request)) = Rejected rejection)
  /\ (forall request v,
      str_truthy (query request) = true ->
      raw_data request = Some v -> truthy v = true ->
      fst (run (exportQueryResults host env request)) = Rejected rejection).
Proof.
  intros Hres Hok Hb rejection.
  assert (Hm : ApiError.message (parseErrorResponse host response)
               = JStr (lit "HTTP " ++ decimal (status response) ++ lit ": "
                       ++ statusText response))
    by (unfold parseErrorResponse; rewrite Hb; reflexivity).
  split.
  - apply plain_functions_reject with (response := response); assumption.
  - apply catching_functions_reject with (response := response); auto.
Qed.

Lemma unparseable_error_body_gives_http_message_witness :
  fst (run (deleteTask sample_host
              (always (responds {| status := 404; statusText := lit "Not Found";
                                   body := Rejected (Err (mkError (lit "SyntaxError")
                                                            (lit "Unexpected token <"))) |})
                      Abort.quiet)))
  = Rejected (Err (Error (lit "HTTP 404: Not Found"))).
Proof.
  apply (@unparseable_error_body_gives_http_message sample_host
           (always (responds {| status := 404; statusText := lit "Not Found";
                                body := Rejected (Err (mkError (lit "SyntaxError")
                                                         (lit "Unexpected token <"))) |})
                   Abort.quiet)
           chat _ (Err (mkError (lit "SyntaxError") (lit "Unexpected token <")))
           (fun url m => eq_refl) eq_refl eq_refl).
Defined.

(** Extra X12. When the call resolves with a response that is not ok and
    whose body is a JSON object with a non-empty string [message], these
    eleven functions, which have no [catch] block, reject with exactly
    that message: [createTask], [listTasks], [getTask], [updateTask],
    [deleteTask], [getUpcomingTasks], [exportToSheet], [listDocs],
    [readDoc], [createDoc] and [summarizeDoc]. So do the four with a
    [catch] block, [sendChatMessage], [processNaturalLanguageQuery],
    [getETPTankCapacity] and [exportQueryResults], unless the message is
    ['Request timeout']. This covers the 5xx response that is left when
    the budget is spent. *)
Theorem error_message_comes_from_body
        (host : Host) (env : nat -> attempt_env) (docs_url : endpoint)
        (response : Response) (fields : list (jsstring * json)) (msg : jsstring) :
  (forall url m,
      fst (run (fetchWithRetry host env url (no_signal m) MAX_RETRIES))
      = Resolved response) ->
  ok response = false ->
  body response = Resolved (JObj fields) ->
  lookup (lit "message") fields = Some (JStr msg) ->
  msg <> [] ->
  (fst (run (createTask host env)) = Rejected (Err (Error msg))
   /\ fst (run (listTasks host env)) = Rejected (Err (Error msg))
   /\ fst (run (getTask host env)) = Rejected (Err (Error msg))
   /\ fst (run (updateTask host env)) = Rejected (Err (Error msg))
   /\ fst (run (deleteTask host env)) = Rejected (Err (Error msg))
   /\ fst (run (getUpcomingTasks host env)) = Rejected (Err (Error msg))
   /\ fst (run (exportToSheet host env)) = Rejected (Err (Error msg))
   /\ fst (run (listDocs host env docs_url)) = Rejected (Err (Error msg))
   /\ fst (run (readDoc host env docs_url)) = Rejected (Err (Error msg))
   /\ fst (run (createDoc host env docs_url)) = Rejected (Err (Error msg))
   /\ fst (run (summarizeDoc host env docs_url)) = Rejected (Err (Error msg)))
  /\ (msg <> lit "Request timeout" ->
      (forall input user_id,
          forallb is_whitespace input = false ->
          fst (run (sendChatMessage host env input user_id)) = Rejected (Err (Error msg)))
      /\ (forall input,
          forallb is_whitespace input = false ->
          fst (run (processNaturalLanguageQuery host env input))
          = Rejected (Err (Error msg)))
      /\ (forall request,
          str_truthy (date request) = true ->
          number_truthy (etp_inlet_tank_value request) = true ->
          fst (run (getETPTankCapacity host env request)) = Rejected (Err (Error msg)))
      /\ (forall request v,
          str_truthy (query request) = true ->
          raw_data request = Some v -> truthy v = true ->
          fst (run (exportQueryResults host env request)) = Rejected (Err (Error msg)))).
Proof.
  intros Hres Hok Hb Hl Hne.
  assert (Hm : ApiError.message (parseErrorResponse host response) = JStr msg).
  { rewrite (parseErrorResponse_object host response Hb). simpl. rewrite Hl.
    apply or_else_truthy. destruct msg; [contradiction | reflexivity]. }
  split.
  - apply plain_functions_reject with (response := response); assumption.
  - intros Hnt. apply catching_functions_reject with (response := response); auto.
    apply str_eqb_neq, Hnt.
Qed.

Lemma error_message_comes_from_body_witness :
  fst (run (createTask sample_host (always (responds server_error) Abort.quiet)))
  = Rejected (Err (Error (lit "Database unavailable")))
  /\ attempts (snd (run (createTask sample_host
                           (always (responds server_error) Abort.quiet)))) = 4.
Proof.
  split; [|reflexivity].
  apply (@error_message_comes_from_body sample_host
           (always (responds server_error) Abort.quiet) chat server_error
           [(lit "error", JStr (lit "INTERNAL_ERROR"));
            (lit "message", JStr (lit "Database unavailable"))]
           (lit "Database unavailable")
           (fun url m => eq_refl) eq_refl eq_refl eq_refl).
  discriminate.
Defined.

(** Extra X13. [deleteTask] never reads the body: it resolves on every
    2xx response, also one whose body does not parse. The functions that
    return [response.json()] reject there with the parser's error. *)
Theorem deleteTask_ignores_the_body
        (host : Host) (env : nat -> attempt_env) (response : Response) (x : thrown) :
  (forall url m,
      fst (run (fetchWithRetry host env url (no_signal m) MAX_RETRIES))
      = Resolved response) ->
  ok response = true ->
  fst (run (deleteTask host env)) = Resolved tt
  /\ (body response = Rejected x ->
      fst (run (createTask host env)) = Rejected x
      /\ fst (run (getTask host env)) = Rejected x
      /\ fst (run (updateTask host env)) = Rejected x
      /\ fst (run (exportToSheet host env)) = Rejected x).
Proof.
  intros Hres Hok.
  destruct (@plain_functions_return_body host env response Hres Hok)
    as (H1 & H2 & H3 & H4 & H5).
  split; [exact H5|]. intros Hb. rewrite Hb in H1, H2, H3, H4. auto.
Qed.

Lemma deleteTask_ignores_the_body_witness :
  fst (run (deleteTask sample_host
              (always (responds {| status := 204; statusText := lit "No Content";
                                   body := Rejected (Err (mkError (lit "SyntaxError")
                                                            (lit "Unexpected end of JSON input"))) |})
                      Abort.quiet)))
  = Resolved tt.
Proof.
  apply (@deleteTask_ignores_the_body sample_host
           (always (responds {| status := 204; statusText := lit "No Content";
                                body := Rejected (Err (mkError (lit "SyntaxError")
                                                         (lit "Unexpected end of JSON input"))) |})
                   Abort.quiet)
           _ (NonErr []) (fun url m => eq_refl) eq_refl).
Defined.

Lemma or_else_absent_or_falsy (o : option json) (d : json) :
  absent_or_falsy o -> or_else o d = d.
Proof.
  intros [->|(v & -> & Hv)]; [reflexivity|]. apply or_else_falsy, Hv.
Qed.

(** Extra X14. On a 2xx response whose body is a JSON object, the
    functions that read one field of it ([tasks], [docs], [content],
    [summary]) resolve with the field as it is when it is present and
    truthy, whatever its type, and with their default (the empty array,
    the empty string) when it is missing or falsy. *)
Theorem field_is_returned_or_defaulted
        (host : Host) (env : nat -> attempt_env) (docs_url : endpoint)
        (response : Response) (fields : list (jsstring * json)) :
  (forall url m,
      fst (run (fetchWithRetry host env url (no_signal m) MAX_RETRIES))
      = Resolved response) ->
  ok response = true ->
  body response = Resolved (JObj fields) ->
  (forall v, lookup (lit "tasks") fields = Some v -> truthy v = true ->
             fst (run (listTasks host env)) = Resolved v
             /\ fst (run (getUpcomingTasks host env)) = Resolved v)
  /\ (forall v, lookup (lit "docs") fields = Some v -> truthy v = true ->
                fst (run (listDocs host env docs_url)) = Resolved v)
  /\ (forall v, lookup (lit "content") fields = Some v -> truthy v = true ->
                fst (run (readDoc host env docs_url)) = Resolved v)
  /\ (forall v, lookup (lit "summary") fields = Some v -> truthy v = true ->
                fst (run (summarizeDoc host env docs_url)) = Resolved v)
  /\ (absent_or_falsy (lookup (lit "tasks") fields) ->
      fst (run (listTasks host env)) = Resolved (JArr [])
      /\ fst (run (getUpcomingTasks host env)) = Resolved (JArr []))
  /\ (absent_or_falsy (lookup (lit "docs") fields) ->
      fst (run (listDocs host env docs_url)) = Resolved (JArr []))
  /\ (absent_or_falsy (lookup (lit "content") fields) ->
      fst (run (readDoc host env docs_url)) = Resolved (JStr []))
  /\ (absent_or_falsy (lookup (lit "summary") fields) ->
      fst (run (summarizeDoc host env docs_url)) = Resolved (JStr [])).
Proof.
  intros Hres Hok Hb.
  destruct (@field_functions_read host env response Hres docs_url (JObj fields) Hok Hb)
    as (H1 & H2 & H3 & H4 & H5 & _).
  cbn [get] in H1, H2, H3, H4, H5.
  rewrite H1, H2, H3, H4, H5.
  repeat split; intros;
    repeat match goal with
           | H : lookup _ fields = Some _ |- _ => rewrite H
           end;
    first [ rewrite or_else_truthy by assumption; reflexivity
          | rewrite or_else_absent_or_falsy by assumption; reflexivity ].
Qed.

Lemma field_is_returned_or_defaulted_witness :
  fst (run (readDoc sample_host
              (always (responds (success (JObj [(lit "content", JStr (lit ""))])))
                      Abort.quiet) chat))
  = Resolved (JStr []).
Proof.
  destruct (@field_is_returned_or_defaulted sample_host
              (always (responds (success (JObj [(lit "content", JStr (lit ""))])))
                      Abort.quiet) chat _ [(lit "content", JStr (lit ""))]
              (fun url m => eq_refl) eq_refl eq_refl)
    as (_ & _ & _ & _ & _ & _ & Hcontent & _).
  apply Hcontent. right. exists (JStr (lit "")). split; reflexivity.
Defined.

(** Extra X15. On a 2xx response [createDoc] resolves with the [doc] field
    of the body when it is present and truthy, and rejects with
    ['Failed to create document'] when the body is an object without a
    truthy [doc], or is a primitive or an array. *)
Theorem createDoc_needs_a_doc
        (host : Host) (env : nat -> attempt_env) (docs_url : endpoint)
        (response : Response) (data : json) :
  (forall url m,
      fst (run (fetchWithRetry host env url (no_signal m) MAX_RETRIES))
      = Resolved response) ->
  ok response = true ->
  body response = Resolved data ->
  data <> JNull ->
  (forall fields v,
      data = JObj fields -> lookup (lit "doc") fields = Some v -> truthy v = true ->
      fst (run (createDoc host env docs_url)) = Resolved v)
  /\ ((forall fields, data = JObj fields -> absent_or_falsy (lookup (lit "doc") fields)) ->
      fst (run (createDoc host env docs_url))
      = Rejected (Err (Error (lit "Failed to create document")))).
Proof.
  intros Hres Hok Hb Hnull.
  destruct (@field_functions_read host env response Hres docs_url data Hok Hb)
    as (_ & _ & _ & _ & _ & H).
  rewrite H. split.
  - intros fields v -> Hl Hv. cbn [get]. rewrite Hl, Hv. reflexivity.
  - intros Habs. destruct data as [|b|x|s|items|fields]; try reflexivity.
    + contradiction.
    + cbn [get]. destruct (Habs fields eq_refl) as [->|(v & -> & Hv)];
        [reflexivity | rewrite Hv; reflexivity].
Qed.

Lemma createDoc_needs_a_doc_witness :
  fst (run (createDoc sample_host
              (always (responds (success (JObj [(lit "success", JBool true)])))
                      Abort.quiet) chat))
  = Rejected (Err (Error (lit "Failed to create document"))).
Proof.
  apply (@createDoc_needs_a_doc sample_host
           (always (responds (success (JObj [(lit "success", JBool true)]))) Abort.quiet)
           chat _ (JObj [(lit "success", JBool true)])
           (fun url m => eq_refl) eq_refl eq_refl).
  - discriminate.
  - intros fields H. injection H as <-. left. reflexivity.
Defined.

(** Extra X16. On a 2xx response whose body is the JSON value [null],
    every function that reads a field of the body rejects with the
    engine's [TypeError] for reading that property of [null]; none of them
    guards the read. *)
Theorem null_body_throws_in_field_functions
        (host : Host) (env : nat -> attempt_env) (docs_url : endpoint)
        (response : Response) :
  (forall url m,
      fst (run (fetchWithRetry host env url (no_signal m) MAX_RETRIES))
      = Resolved response) ->
  ok response = true ->
  body response = Resolved JNull ->
  fst (run (listTasks host env))
    = Rejected (TypeError (null_read_text host (lit "tasks")))
  /\ fst (run (getUpcomingTasks host env))
    = Rejected (TypeError (null_read_text host (lit "tasks")))
  /\ fst (run (listDocs host env docs_url))
    = Rejected (TypeError (null_read_text host (lit "docs")))
  /\ fst (run (readDoc host env docs_url))
    = Rejected (TypeError (null_read_text host (lit "content")))
  /\ fst (run (summarizeDoc host env docs_url))
    = Rejected (TypeError (null_read_text host (lit "summary")))
  /\ fst (run (createDoc host env docs_url))
    = Rejected (TypeError (null_read_text host (lit "doc"))).
Proof.
  intros Hres Hok Hb.
  destruct (@field_functions_read host env response Hres docs_url JNull Hok Hb)
    as (H1 & H2 & H3 & H4 & H5 & H6).
  rewrite H1, H2, H3, H4, H5, H6. repeat split.
Qed.

Lemma null_body_throws_in_field_functions_witness :
  fst (run (listDocs sample_host (always (responds (success JNull)) Abort.quiet) chat))
  = Rejected (TypeError (lit "Cannot read properties of null (reading 'docs')")).
Proof.
  apply (@null_body_throws_in_field_functions sample_host
           (always (responds (success JNull)) Abort.quiet) chat (success JNull)
           (fun url m => eq_refl) eq_refl eq_refl).
Defined.

Lemma blank_input_run (host : Host) (env : nat -> attempt_env)
      (input user_id : jsstring) :
  forallb is_whitespace input = true ->
  snd (run (sendChatMessage host env input user_id)) = []
  /\ snd (run (processNaturalLanguageQuery host env input)) = [].
Proof.
  intros Hin. apply trim_whitespace in Hin.
  unfold run, sendChatMessage, processNaturalLanguageQuery.
  rewrite Hin. simpl str_truthy. rewrite orb_true_r. split; reflexivity.
Qed.

Lemma checkApiHealth_log (host : Host) (env : nat -> attempt_env) :
  snd (run (checkApiHealth host env)) = [fetch GET health (AbortSignal_timeout 5000)].
Proof.
  unfold run, checkApiHealth, try_catch, bind, emit, settle, ret.
  destruct (network (env 0)); reflexivity.
Qed.

(** Extra X17. None of these fifteen exported functions makes more than
    four transport calls ([MAX_RETRIES + 1]) in one call, whatever its
    arguments and whatever the network does: [sendChatMessage],
    [processNaturalLanguageQuery], [getETPTankCapacity],
    [exportQueryResults], [createTask], [listTasks], [getTask],
    [updateTask], [deleteTask], [getUpcomingTasks], [exportToSheet],
    [listDocs], [readDoc], [createDoc] and [summarizeDoc]. A sixteenth,
    [checkApiHealth], makes exactly one. *)
Theorem exported_functions_make_at_most_four_calls
        (host : Host) (env : nat -> attempt_env) (docs_url : endpoint) :
  (forall input user_id,
      attempts (snd (run (sendChatMessage host env input user_id))) <= 4)
  /\ (forall input, attempts (snd (run (processNaturalLanguageQuery host env input))) <= 4)
  /\ (forall request, attempts (snd (run (getETPTankCapacity host env request))) <= 4)
  /\ (forall request, attempts (snd (run (exportQueryResults host env request))) <= 4)
  /\ attempts (snd (run (createTask host env))) <= 4
  /\ attempts (snd (run (listTasks host env))) <= 4
  /\ attempts (snd (run (getTask host env))) <= 4
  /\ attempts (snd (run (updateTask host env))) <= 4
  /\ attempts (snd (run (deleteTask host env))) <= 4
  /\ attempts (snd (run (getUpcomingTasks host env))) <= 4
  /\ attempts (snd (run (exportToSheet host env))) <= 4
  /\ attempts (snd (run (listDocs host env docs_url))) <= 4
  /\ attempts (snd (run (readDoc host env docs_url))) <= 4
  /\ attempts (snd (run (createDoc host env docs_url))) <= 4
  /\ attempts (snd (run (summarizeDoc host env docs_url))) <= 4
  /\ attempts (snd (run (checkApiHealth host env))) = 1.
Proof.
  pose proof (fun url m =>
                proj2 (fetch_attempts_bounds host env url (no_signal m) MAX_RETRIES))
    as Hbound.
  change (S MAX_RETRIES) with 4 in Hbound.
  destruct (plain_functions_log host env docs_url)
    as (H1 & H2 & H3 & H4 & H5 & H6 & H7 & H8 & H9 & H10 & H11).
  cbv zeta in *.
  rewrite H1, H2, H3, H4, H5, H6, H7, H8, H9, H10, H11.
  repeat split; auto.
  - intros input user_id. destruct (forallb is_whitespace input) eqn:Hin.
    + destruct (@blank_input_run host env input user_id Hin) as [-> _].
      unfold attempts. simpl. lia.
    + rewrite (sendChatMessage_log host env input user_id Hin). apply Hbound.
  - intros input. destruct (forallb is_whitespace input) eqn:Hin.
    + destruct (@blank_input_run host env input [] Hin) as [_ ->].
      unfold attempts. simpl. lia.
    + rewrite (processNaturalLanguageQuery_log host env input Hin). apply Hbound.
  - intros request. unfold run, getETPTankCapacity.
    destruct (str_truthy (date request)) eqn:Hd;
      [|unfold attempts; simpl; lia].
    destruct (number_truthy (etp_inlet_tank_value request)) eqn:Hv;
      [|unfold attempts; simpl; lia].
    pose proof (getETPTankCapacity_log host env request Hd Hv) as Hlog.
    unfold run, getETPTankCapacity in Hlog. rewrite Hd, Hv in Hlog.
    cbn [negb orb] in *. rewrite Hlog. apply Hbound.
  - intros request. unfold run, exportQueryResults.
    destruct (str_truthy (query request)) eqn:Hq;
      [|unfold attempts; simpl; lia].
    destruct (raw_data request) as [v|] eqn:Hr;
      [|unfold attempts; simpl; lia].
    destruct (truthy v) eqn:Hv; [|unfold attempts; simpl; lia].
    pose proof (exportQueryResults_log host env request Hq Hr Hv) as Hlog.
    unfold run, exportQueryResults in Hlog. rewrite Hq, Hr, Hv in Hlog.
    cbn [negb orb] in *. rewrite Hlog. apply Hbound.
  - rewrite checkApiHealth_log. reflexivity.
Qed.

(** * Properties of the message formatter *)

Module FormatterFacts.

Import Formatter.

(** ** String methods *)

Lemma startsWith_app (prefix s : jsstring) :
  startsWith prefix s = true <-> exists rest, s = prefix ++ rest.
Proof.
  revert s. induction prefix as [|p prefix IH]; intros s; simpl.
  - split; [intros _; exists s; reflexivity | reflexivity].
  - destruct s as [|c s]; [split; [discriminate | intros (rest & H); discriminate]|].
    rewrite andb_true_iff, N.eqb_eq, IH. split.
    + intros (-> & rest & ->). exists rest. reflexivity.
    + intros (rest & H). injection H as -> ->. split; [reflexivity | exists rest; reflexivity].
Qed.

Lemma endsWith_app (suffix s : jsstring) :
  endsWith suffix s = true <-> exists front, s = front ++ suffix.
Proof.
  unfold endsWith. rewrite startsWith_app. split.
  - intros (rest & H). exists (rev rest).
    rewrite <- (rev_involutive s), H, rev_app_distr, rev_involutive. reflexivity.
  - intros (front & ->). exists (rev front). apply rev_app_distr.
Qed.

Lemma app_eq_prefix {A} (a b c d : list A) :
  a ++ b = c ++ d -> List.length c <= List.length a ->
  a = c ++ skipn (List.length c) a.
Proof.
  intros H Hl.
  assert (Hc : firstn (List.length c) a = c).
  { apply (f_equal (firstn (List.length c))) in H.
    rewrite !firstn_app, Nat.sub_diag, firstn_all in H.
    replace (List.length c - List.length a) with 0 in H by lia.
    simpl in H. rewrite !app_nil_r in H. exact H. }
  rewrite <- Hc at 1. symmetry. apply firstn_skipn.
Qed.

(** A string that starts and ends with the marker [m] and is long enough
    for the two not to overlap is the marker, the slice, the marker. *)
Lemma slice_between_markers (m s : jsstring) :
  startsWith m s = true -> endsWith m s = true ->
  2 * List.length m <= List.length s ->
  s = m ++ slice (List.length m) (List.length m) s ++ m.
Proof.
  intros Hs He Hlen.
  apply startsWith_app in Hs as (rest & ->).
  apply endsWith_app in He as (front & He).
  rewrite length_app in Hlen.
  assert (Hmid : exists mid, rest = mid ++ m).
  { apply (f_equal (@rev N)) in He. rewrite !rev_app_distr in He.
    apply app_eq_prefix in He; [|rewrite !length_rev; lia].
    exists (rev (skipn (List.length (rev m)) (rev rest))).
    rewrite <- (rev_involutive rest) at 1. rewrite He at 1.
    rewrite rev_app_distr, rev_involutive. reflexivity. }
  destruct Hmid as (mid & ->).
  unfold slice. rewrite skipn_app, skipn_all, Nat.sub_diag. simpl.
  rewrite !length_app.
  replace (List.length m + (List.length mid + List.length m)
           - List.length m - List.length m) with (List.length mid) by lia.
  rewrite firstn_app, firstn_all, Nat.sub_diag. simpl. rewrite app_nil_r.
  reflexivity.
Qed.

(** ** Lists with indices *)

Lemma length_mapi_from {A B} (f : nat -> A -> B) (l : list A) (i : nat) :
  List.length (mapi_from i f l) = List.length l.
Proof. revert i. induction l as [|a l IH]; intros i; simpl; [|rewrite IH]; reflexivity. Qed.

Lemma nth_error_mapi_from {A B} (f : nat -> A -> B) (l : list A) (i n : nat) :
  nth_error (mapi_from i f l) n = option_map (f (i + n)) (nth_error l n).
Proof.
  revert i n. induction l as [|a l IH]; intros i [|n]; simpl; try reflexivity.
  - rewrite Nat.add_0_r. reflexivity.
  - rewrite IH. replace (S i + n) with (i + S n) by lia. reflexivity.
Qed.


Lemma length_split_from (sep : N) (s cur : jsstring) :
  List.length (split_from sep s cur) = S (count_occ N.eq_dec s sep).
Proof.
  revert cur. induction s as [|c s IH]; intros cur; simpl; [reflexivity|].
  destruct (N.eqb_spec c sep) as [->|Hne].
  - destruct (N.eq_dec sep sep); [|contradiction]. simpl. rewrite IH. reflexivity.
  - destruct (N.eq_dec c sep); [contradiction|]. apply IH.
Qed.

(** ** The split on bold spans *)

Lemma match_bold_bounds (s : jsstring) (n : nat) :
  match_bold s = Some n -> 5 <= n <= List.length s.
Proof.
  unfold match_bold.
  destruct s as [|a [|b rest]]; try discriminate.
  destruct (N.eqb a star && N.eqb b star); [|discriminate].
  destruct (non_stars rest) as [|r run] eqn:Hrun; [discriminate|].
  destruct (skipn (List.length (r :: run)) rest) as [|c [|d tail]] eqn:Hskip;
    try discriminate.
  destruct (N.eqb c star && N.eqb d star); [|discriminate].
  intros H. injection H as <-.
  apply (f_equal (@List.length N)) in Hskip. rewrite length_skipn in Hskip.
  simpl in *. lia.
Qed.


(** The bound [text.length] on the number of positions is enough: a
    greater one gives the same pieces. *)
Lemma split_bold_from_steps (steps : nat) :
  forall (s pending : jsstring) (more : nat),
    List.length s <= steps ->
    split_bold_from (steps + more) s pending = split_bold_from steps s pending.
Proof.
  induction steps as [|steps IH]; intros s pending more Hlen.
  - destruct s; [|cbn [List.length] in Hlen; lia]. destruct more; reflexivity.
  - destruct s as [|c s']; [reflexivity|]. cbn [Nat.add split_bold_from].
    destruct (match_bold (c :: s')) as [n|] eqn:Hm.
    + apply match_bold_bounds in Hm. rewrite IH; [reflexivity|].
      rewrite length_skipn. cbn [List.length] in *. lia.
    + apply IH. cbn [List.length] in Hlen. lia.
Qed.

(** ** Lines *)

Lemma formatLine_is_keyed_div (lines : list jsstring) (index : nat) (line : jsstring) :
  exists cls children, formatLine lines index line = element "div" (Some index) cls children.
Proof. unfold formatLine. repeat break_match; eexists; eexists; reflexivity. Qed.

(** Extra X18. [formatMessage] renders exactly one [div] per line of the
    text, in order, keyed by the index of the line; a text with [n] line
    feeds gives [n + 1] elements, the empty text one. *)
Theorem one_element_per_line (s : jsstring) :
  List.length (formatMessage s) = S (count_occ N.eq_dec s line_feed)
  /\ forall i n,
      nth_error (formatMessage s) i = Some n ->
      exists line cls children,
        nth_error (split line_feed s) i = Some line
        /\ n = formatLine (split line_feed s) i line
        /\ n = element "div" (Some i) cls children.
Proof.
  unfold formatMessage, mapi. split.
  - rewrite length_mapi_from. apply length_split_from.
  - intros i n Hn. rewrite nth_error_mapi_from in Hn. simpl in Hn.
    destruct (nth_error (split line_feed s) i) as [line|]; [|discriminate].
    injection Hn as <-.
    destruct (formatLine_is_keyed_div (split line_feed s) i line) as (cls & ch & H).
    exists line, cls, ch. auto.
Qed.


Lemma is_bold_source (part : jsstring) :
  is_bold part = true -> [star; star] ++ slice 2 2 part ++ [star; star] = part.
Proof.
  unfold is_bold. intros H.
  apply andb_true_iff in H as [H Hlen]. apply andb_true_iff in H as [Hs He].
  apply Nat.ltb_lt in Hlen. symmetry.
  apply (@slice_between_markers [star; star] part Hs He). simpl. lia.
Qed.


(** Extra X20. A line is rendered as the spacer, the empty [div] of class
    [h-2], exactly when it is empty or made of whitespace only. *)
Theorem spacer_iff_blank_line (lines : list jsstring) (index : nat) (line : jsstring) :
  formatLine lines index line = element "div" (Some index) (class "h-2") []
  <-> forallb is_whitespace line = true.
Proof.
  split.
  - intros H. apply trim_nil_iff. unfold formatLine in H.
    destruct (trim line) as [|c rest] eqn:Ht; [reflexivity|].
    exfalso. cbn [str_truthy negb] in H.
    repeat match type of H with
           | context [if ?b then _ else _] => destruct b
           end; discriminate H.
  - intros H. apply trim_whitespace in H. unfold formatLine. rewrite H. reflexivity.
Qed.

(** ** [trim] is idempotent *)

Lemma trimStart_head (s rest : jsstring) (c : N) :
  trimStart s = c :: rest -> is_whitespace c = false.
Proof.
  induction s as [|a s IH]; simpl; [discriminate|].
  destruct (is_whitespace a) eqn:Ha; [exact IH|].
  intros H. injection H as <- _. exact Ha.
Qed.

Lemma trimStart_fixed (s : jsstring) :
  match s with [] => True | c :: _ => is_whitespace c = false end ->
  trimStart s = s.
Proof. destruct s as [|c s]; simpl; [reflexivity|]. intros ->. reflexivity. Qed.

Lemma trimStart_idempotent (s : jsstring) : trimStart (trimStart s) = trimStart s.
Proof.
  apply trimStart_fixed. destruct (trimStart s) as [|c rest] eqn:H; [exact I|].
  apply (trimStart_head s H).
Qed.

Lemma trimStart_suffix (s : jsstring) :
  exists blank, s = blank ++ trimStart s.
Proof.
  induction s as [|c s (blank & IH)]; [exists []; reflexivity|]. simpl.
  destruct (is_whitespace c).
  - exists (c :: blank). simpl. rewrite <- IH. reflexivity.
  - exists []. reflexivity.
Qed.

Lemma trim_idempotent (s : jsstring) : trim (trim s) = trim s.
Proof.
  unfold trim, trimEnd.
  set (t := trimStart s).
  assert (Hstart : trimStart (rev (trimStart (rev t))) = rev (trimStart (rev t))).
  { apply trimStart_fixed.
    destruct (trimStart_suffix (rev t)) as (blank & Hb).
    destruct (rev (trimStart (rev t))) as [|c u] eqn:Hu; [exact I|].
    assert (Ht : t = (c :: u) ++ rev blank).
    { rewrite <- Hu, <- rev_app_distr, <- Hb, rev_involutive. reflexivity. }
    apply (@trimStart_head s (u ++ rev blank)). fold t. rewrite Ht. reflexivity. }
  rewrite Hstart, rev_involutive, trimStart_idempotent. reflexivity.
Qed.

Lemma in_firstn {A} (n : nat) (l : list A) (a : A) : In a (firstn n l) -> In a l.
Proof.
  revert l. induction n as [|n IH]; intros [|b l]; simpl; try contradiction.
  intros [->|H]; [left; reflexivity | right; apply IH, H].
Qed.

(** Extra X21. A line whose trimmed text starts with a bar and is not a
    separator row is rendered as a table row showing at most six cells:
    the first six of the pieces between the bars that are not blank, each
    trimmed, each in its own [div] keyed by its position. Further cells
    are not shown. *)
Theorem table_row_shows_at_most_six_cells
        (lines : list jsstring) (index : nat) (line : jsstring) :
  startsWith [bar] (trim line) = true ->
  matches_separator_row (trim line) = false ->
  exists row_classes cell_classes cells,
    formatLine lines index line
    = element "div" (Some index) (cn row_classes)
        (mapi (fun cellIndex cell =>
                 element "div" (Some cellIndex) (cn cell_classes) (formatInlineText cell))
              cells)
    /\ cells = firstn 6 (filter str_truthy (map trim (split bar (trim line))))
    /\ List.length cells <= 6
    /\ Forall (fun cell => cell <> [] /\ trim cell = cell) cells.
Proof.
  intros Hbar Hsep. unfold formatLine.
  destruct (trim line) as [|c rest] eqn:Ht; [discriminate Hbar|].
  cbn [startsWith] in Hbar. rewrite andb_true_r in Hbar. apply N.eqb_eq in Hbar.
  subst c.
  rewrite Hsep.
  eexists. eexists. eexists. split; [reflexivity|].
  split; [reflexivity|]. split.
  - rewrite length_firstn. lia.
  - apply Forall_forall. intros cell Hin.
    apply in_firstn in Hin. apply filter_In in Hin as [Hin Htruthy].
    apply in_map_iff in Hin as (piece & <- & _).
    split; [|apply trim_idempotent].
    intros Hnil. rewrite Hnil in Htruthy. discriminate.
Qed.

Lemma table_row_shows_at_most_six_cells_witness :
  exists row_classes cell_classes,
    formatLine [] 0 (lit " | a | b | c | d | e | f | g |")
    = element "div" (Some 0) (cn row_classes)
        (mapi (fun cellIndex cell =>
                 element "div" (Some cellIndex) (cn cell_classes) (formatInlineText cell))
              [lit "a"; lit "b"; lit "c"; lit "d"; lit "e"; lit "f"]).
Proof.
  destruct (@table_row_shows_at_most_six_cells [] 0
              (lit " | a | b | c | d | e | f | g |") eq_refl eq_refl)
    as (row_classes & cell_classes & cells & Hrow & Hcells & _).
  exists row_classes, cell_classes. rewrite Hrow, Hcells. reflexivity.
Defined.

(** Extra X22. A line whose trimmed text is [**], some text, [**], and
    longer than four code units, is rendered as a header holding the text
    between the markers as a single text child: the markers are removed
    and nothing inside a header is formatted further. *)
Theorem header_shows_text_between_markers
        (lines : list jsstring) (index : nat) (line : jsstring) :
  startsWith [star; star] (trim line) = true ->
  endsWith [star; star] (trim line) = true ->
  4 < List.length (trim line) ->
  exists cls inner,
    formatLine lines index line = element "div" (Some index) (class cls) [text inner]
    /\ trim line = [star; star] ++ inner ++ [star; star].
Proof.
  intros Hs He Hlen.
  assert (Hb : is_bold (trim line) = true).
  { unfold is_bold. rewrite Hs, He. apply Nat.ltb_lt in Hlen. rewrite Hlen. reflexivity. }
  unfold formatLine. rewrite Hb.
  destruct (trim line) as [|c rest] eqn:Ht; [simpl in Hlen; lia|].
  cbn [str_truthy negb].
  eexists. exists (slice 2 2 (c :: rest)). split; [reflexivity|].
  symmetry. apply is_bold_source, Hb.
Qed.

Lemma header_shows_text_between_markers_witness :
  exists cls,
    formatLine [] 3 (lit "  **Answer**  ")
    = element "div" (Some 3) (class cls) [text (lit "Answer")].
Proof.
  destruct (@header_shows_text_between_markers [] 3 (lit "  **Answer**  ")
              eq_refl eq_refl) as (cls & inner & Hrow & Hinner).
  - simpl. lia.
  - exists cls. rewrite Hrow.
    assert (Heq : inner = lit "Answer").
    { apply (app_inv_tail [star; star]). apply (app_inv_head [star; star]).
      symmetry. exact Hinner. }
    rewrite Heq. reflexivity.
Defined.

End FormatterFacts.

(** * Properties of the task manager *)

(** ** Calls that follow one another *)

(** A computation is framed when it only appends to the log, and what it
    does is not affected by what the log already holds. *)
Definition framed {A} (c : async A) : Prop :=
  forall log, c log = (fst (c []), log ++ snd (c [])).

Lemma framed_ret {A} (a : A) : framed (ret a).
Proof. intros log. unfold ret. simpl. rewrite app_nil_r. reflexivity. Qed.

Lemma framed_throw {A} (x : thrown) : framed (@throw A x).
Proof. intros log. unfold throw. simpl. rewrite app_nil_r. reflexivity. Qed.

Lemma framed_settle {A} (s : settled A) : framed (settle s).
Proof. intros log. unfold settle. simpl. rewrite app_nil_r. reflexivity. Qed.

Lemma framed_emit (e : io) : framed (emit e).
Proof. intros log. reflexivity. Qed.

Lemma framed_bind {A B} (c : async A) (k : A -> async B) :
  framed c -> (forall a, framed (k a)) -> framed (bind c k).
Proof.
  intros Hc Hk log. unfold bind. rewrite (Hc log).
  destruct (c []) as [[a|x] l0]; simpl; [|reflexivity].
  rewrite (Hk a (log ++ l0)), (Hk a l0). simpl. rewrite app_assoc. reflexivity.
Qed.

Lemma framed_try_catch {A} (c : async A) (h : thrown -> async A) :
  framed c -> (forall x, framed (h x)) -> framed (try_catch c h).
Proof.
  intros Hc Hh log. unfold try_catch. rewrite (Hc log).
  destruct (c []) as [[a|x] l0]; simpl; [reflexivity|].
  rewrite (Hh x (log ++ l0)), (Hh x l0). simpl. rewrite app_assoc. reflexivity.
Qed.

Lemma framed_if {A} (b : bool) (c1 c2 : async A) :
  framed c1 -> framed c2 -> framed (if b then c1 else c2).
Proof. destruct b; auto. Qed.

Lemma framed_throw_new_Error (host : Host) {A} (v : json) :
  framed (@throw_new_Error host A v).
Proof. unfold throw_new_Error. destruct (ToString host v); apply framed_throw. Qed.

Lemma framed_relabel {A} (cause failure : string) (x : thrown) :
  framed (@relabel A cause failure x).
Proof.
  unfold relabel. destruct x as [e|t]; [|apply framed_throw].
  destruct (str_eqb (message e) (lit "Request timeout")); apply framed_throw.
Qed.

Create HintDb framed.

#[local] Hint Resolve framed_ret framed_throw framed_settle framed_emit framed_if
  framed_throw_new_Error framed_relabel : framed.

Ltac frame :=
  repeat first
    [ solve [auto with framed]
    | apply framed_bind; [|intros]
    | apply framed_try_catch; [|intros]
    | apply framed_if
    | break_match ].

Lemma framed_attempt_once (host : Host) (url : endpoint) (options : RequestInit)
      (e : attempt_env) :
  framed (attempt_once host url options e).
Proof.
  unfold attempt_once, createTimeout, sleep.
  destruct (Abort.wire (req_signal options) (caller_signal e)) as [st signal]. frame.
Qed.

Lemma framed_iteration (host : Host) (env : nat -> attempt_env) (url : endpoint)
      (options : RequestInit) (retries n : nat) (lastError : option JsError) :
  framed (iteration host env url options retries n lastError).
Proof.
  unfold iteration, sleep. apply framed_try_catch.
  - apply framed_bind; [apply framed_attempt_once|]. intros response. frame.
  - intros x. frame.
Qed.

Lemma framed_loop (host : Host) (env : nat -> attempt_env) (url : endpoint)
      (options : RequestInit) (retries remaining : nat) :
  forall n lastError, framed (loop host env url options retries remaining n lastError).
Proof.
  induction remaining as [|remaining IH]; intros n lastError; simpl.
  - apply framed_throw.
  - apply framed_bind; [apply framed_iteration|].
    intros [response|lastError']; [apply framed_ret | apply IH].
Qed.

Lemma framed_fetchWithRetry (host : Host) (env : nat -> attempt_env) (url : endpoint)
      (options : RequestInit) (retries : nat) :
  framed (fetchWithRetry host env url options retries).
Proof. apply framed_loop. Qed.

#[local] Hint Resolve framed_fetchWithRetry : framed.

Lemma framed_task_functions (host : Host) (env : nat -> attempt_env) :
  framed (createTask host env) /\ framed (listTasks host env)
  /\ framed (updateTask host env) /\ framed (deleteTask host env).
Proof.
  unfold createTask, listTasks, updateTask, deleteTask. repeat split; frame.
Qed.

Module TaskManagerFacts.

Import TaskManager.

Lemma framed_run {A} (c : async A) (log : list io) :
  framed c -> c log = (fst (run c), log ++ snd (run c)).
Proof. intros H. apply H. Qed.

(** What [loadTasks] leaves, from the state it starts in. *)
Lemma loadTasks_run (host : Host) (env : nat -> attempt_env) (st : state)
      (log : list io) :
  loadTasks host env st log
  = ({| tasks := match fst (run (listTasks host env)) with
                 | Resolved taskList => taskList
                 | Rejected _ => tasks st
                 end;
        loading := false;
        error := match fst (run (listTasks host env)) with
                 | Resolved _ => None
                 | Rejected x => Some (message_or "Failed to load tasks" x)
                 end;
        showForm := showForm st;
        newTask := newTask st |},
     log ++ snd (run (listTasks host env))).
Proof.
  unfold loadTasks.
  rewrite (framed_run log (proj1 (proj2 (framed_task_functions host env)))).
  destruct (fst (run (listTasks host env))); reflexivity.
Qed.

(** Extra X23. When the mutation fails ([createTask], [updateTask] or
    [deleteTask] rejects), the handler does not reload the list: the
    tasks shown stay as they were, the error shown is the message of the
    rejection, [loading] is back to [false], and the log is that of the
    mutation alone. *)
Theorem failed_mutation_does_not_reload
        (host : Host) (env_mutation env_list : nat -> attempt_env)
        (st : state) (err : thrown) :
  (fst (run (updateTask host env_mutation)) = Rejected err ->
   handleUpdateTask host env_mutation env_list st []
   = ({| tasks := tasks st; loading := false;
         error := Some (message_or "Failed to update task" err);
         showForm := showForm st; newTask := newTask st |},
      snd (run (updateTask host env_mutation))))
  /\ (fst (run (deleteTask host env_mutation)) = Rejected err ->
      handleDeleteTask host true env_mutation env_list st []
      = ({| tasks := tasks st; loading := false;
            error := Some (message_or "Failed to delete task" err);
            showForm := showForm st; newTask := newTask st |},
         snd (run (deleteTask host env_mutation))))
  /\ (fst (run (createTask host env_mutation)) = Rejected err ->
      forallb is_whitespace (title (newTask st)) = false ->
      handleCreateTask host env_mutation env_list st []
      = ({| tasks := tasks st; loading := false;
            error := Some (message_or "Failed to create task" err);
            showForm := showForm st; newTask := newTask st |},
         snd (run (createTask host env_mutation)))).
Proof.
  repeat split.
  - intros H. unfold handleUpdateTask, run in *.
    destruct (updateTask host env_mutation []) as [s log]. simpl in H. subst s.
    reflexivity.
  - intros H. unfold handleDeleteTask, run in *. cbn [negb].
    destruct (deleteTask host env_mutation []) as [s log]. simpl in H. subst s.
    reflexivity.
  - intros H Htitle. unfold handleCreateTask, run in *.
    destruct (trim (title (newTask st))) eqn:Ht;
      [apply trim_nil_iff in Ht; congruence|].
    cbn [str_truthy negb].
    destruct (createTask host env_mutation []) as [s log]. simpl in H. subst s.
    reflexivity.
Qed.

Lemma failed_mutation_does_not_reload_witness :
  handleUpdateTask sample_host
    (always (responds (not_found (error_body "NOT_FOUND" "No such task"))) Abort.quiet)
    (always (responds (success JNull)) Abort.quiet)
    {| tasks := JArr []; loading := false; error := None; showForm := false;
       newTask := {| title := lit ""; description := None; priority := None;
                     due_date := None |} |} []
  = ({| tasks := JArr []; loading := false; error := Some (lit "No such task");
        showForm := false;
        newTask := {| title := lit ""; description := None; priority := None;
                      due_date := None |} |},
     one_attempt_log PUT task_by_id).
Proof.
  apply (proj1 (@failed_mutation_does_not_reload sample_host
                  (always (responds (not_found (error_body "NOT_FOUND" "No such task")))
                          Abort.quiet)
                  (always (responds (success JNull)) Abort.quiet)
                  {| tasks := JArr []; loading := false; error := None; showForm := false;
                     newTask := {| title := lit ""; description := None; priority := None;
                                   due_date := None |} |}
                  (Err (Error (lit "No such task"))))).
  reflexivity.
Defined.

(** Extra X24. When the mutation succeeds, the handler always reloads the
    list, and what it leaves is what the reload gives: the tasks and no
    error when [listTasks] resolves, the old tasks and the message of the
    reload's rejection when it does not; [loading] is back to [false]. The
    log is the mutation's followed by the reload's, at most eight
    transport calls. [handleCreateTask] also empties and hides the form. *)
Theorem successful_mutation_reloads
        (host : Host) (env_mutation env_list : nat -> attempt_env) (st : state) :
  let reload := run (listTasks host env_list) in
  let reloaded (form : bool) (draft : TaskCreateRequest) :=
    {| tasks := match fst reload with Resolved taskList => taskList | Rejected _ => tasks st end;
       loading := false;
       error := match fst reload with
                | Resolved _ => None
                | Rejected x => Some (message_or "Failed to load tasks" x)
                end;
       showForm := form;
       newTask := draft |} in
  (forall v,
      fst (run (updateTask host env_mutation)) = Resolved v ->
      handleUpdateTask host env_mutation env_list st []
      = (reloaded (showForm st) (newTask st),
         snd (run (updateTask host env_mutation)) ++ snd reload)
      /\ attempts (snd (handleUpdateTask host env_mutation env_list st [])) <= 8)
  /\ (forall v,
      fst (run (deleteTask host env_mutation)) = Resolved v ->
      handleDeleteTask host true env_mutation env_list st []
      = (reloaded (showForm st) (newTask st),
         snd (run (deleteTask host env_mutation)) ++ snd reload)
      /\ attempts (snd (handleDeleteTask host true env_mutation env_list st [])) <= 8)
  /\ (forall v,
      fst (run (createTask host env_mutation)) = Resolved v ->
      forallb is_whitespace (title (newTask st)) = false ->
      handleCreateTask host env_mutation env_list st []
      = (reloaded false
           {| title := lit ""; description := Some (lit "");
              priority := Some (lit "medium"); due_date := None |},
         snd (run (createTask host env_mutation)) ++ snd reload)
      /\ attempts (snd (handleCreateTask host env_mutation env_list st [])) <= 8).
Proof.
  cbv zeta.
  assert (Hbound : forall (A : Type) (c : async A) env m url,
             snd (run c) = snd (run (fetchWithRetry host env url (no_signal m) MAX_RETRIES)) ->
             attempts (snd (run c)) <= 4).
  { intros A c env m url ->.
    apply (proj2 (fetch_attempts_bounds host env url (no_signal m) MAX_RETRIES)). }
  destruct (plain_functions_log host env_mutation chat)
    as (Hc & _ & _ & Hu & Hd & _).
  destruct (plain_functions_log host env_list chat) as (_ & Hl & _).
  cbv zeta in *.
  apply Hbound in Hc, Hu, Hd, Hl.
  repeat split.
  - unfold handleUpdateTask, run in *.
    destruct (updateTask host env_mutation []) as [s log]. simpl in H. subst s.
    rewrite loadTasks_run. reflexivity.
  - unfold handleUpdateTask, run in *.
    destruct (updateTask host env_mutation []) as [s log]. simpl in H. subst s.
    rewrite loadTasks_run. unfold run in *. cbn [snd] in *. rewrite attempts_app. lia.
  - unfold handleDeleteTask, run in *. cbn [negb].
    destruct (deleteTask host env_mutation []) as [s log]. simpl in H. subst s.
    rewrite loadTasks_run. reflexivity.
  - unfold handleDeleteTask, run in *. cbn [negb].
    destruct (deleteTask host env_mutation []) as [s log]. simpl in H. subst s.
    rewrite loadTasks_run. unfold run in *. cbn [snd] in *. rewrite attempts_app. lia.
  - unfold handleCreateTask, run in *.
    destruct (trim (title (newTask st))) eqn:Ht;
      [apply trim_nil_iff in Ht; congruence|].
    cbn [str_truthy negb].
    destruct (createTask host env_mutation []) as [s log]. simpl in H. subst s.
    rewrite loadTasks_run. reflexivity.
  - unfold handleCreateTask, run in *.
    destruct (trim (title (newTask st))) eqn:Ht;
      [apply trim_nil_iff in Ht; congruence|].
    cbn [str_truthy negb].
    destruct (createTask host env_mutation []) as [s log]. simpl in H. subst s.
    rewrite loadTasks_run. unfold run in *. cbn [snd] in *. rewrite attempts_app. lia.
Qed.

Lemma successful_mutation_reloads_witness :
  fst (handleDeleteTask sample_host true
         (always (responds (success JNull)) Abort.quiet)
         (always (responds server_error) Abort.quiet)
         {| tasks := JArr [JStr (lit "old")]; loading := false; error := None;
            showForm := false;
            newTask := {| title := lit ""; description := None; priority := None;
                          due_date := None |} |} [])
  = {| tasks := JArr [JStr (lit "old")]; loading := false;
       error := Some (lit "Database unavailable"); showForm := false;
       newTask := {| title := lit ""; description := None; priority := None;
                     due_date := None |} |}.
Proof.
  destruct (@successful_mutation_reloads sample_host
              (always (responds (success JNull)) Abort.quiet)
              (always (responds server_error) Abort.quiet)
              {| tasks := JArr [JStr (lit "old")]; loading := false; error := None;
                 showForm := false;
                 newTask := {| title := lit ""; description := None; priority := None;
                               due_date := None |} |})
    as (_ & Hdelete & _).
  destruct (Hdelete tt eq_refl) as [-> _]. reflexivity.
Defined.

(** Extra X25. No handler leaves [loading] set: from a state where it is
    [false], it is [false] again once the handler has settled, whatever
    the network does and whether or not the handler's guard let it run. *)
Theorem loading_is_always_reset
        (host : Host) (env1 env2 : nat -> attempt_env) (confirmed : bool)
        (st : state) (log : list io) :
  loading st = false ->
  loading (fst (loadTasks host env1 st log)) = false
  /\ loading (fst (handleCreateTask host env1 env2 st log)) = false
  /\ loading (fst (handleUpdateTask host env1 env2 st log)) = false
  /\ loading (fst (handleDeleteTask host confirmed env1 env2 st log)) = false.
Proof.
  intros Hst.
  unfold handleCreateTask, handleUpdateTask, handleDeleteTask.
  repeat split;
    repeat first [ rewrite loadTasks_run | break_match ]; try assumption; reflexivity.
Qed.

Lemma loading_is_always_reset_witness :
  loading (fst (handleDeleteTask sample_host false
                  (always pending Abort.quiet) (always pending Abort.quiet)
                  {| tasks := JArr []; loading := false; error := None;
                     showForm := true;
                     newTask := {| title := lit "x"; description := None;
                                   priority := None; due_date := None |} |} []))
  = false.
Proof.
  apply (@loading_is_always_reset sample_host (always pending Abort.quiet)
           (always pending Abort.quiet) false
           {| tasks := JArr []; loading := false; error := None; showForm := true;
              newTask := {| title := lit "x"; description := None; priority := None;
                            due_date := None |} |} [] eq_refl).
Defined.

End TaskManagerFacts.

(** ** The command palette *)

Module PaletteFacts.

Import Palette.

Lemma findIndex_from_range {A} (p : A -> bool) (l : list A) (i : Z) :
  (findIndex_from p l i = -1
   \/ i <= findIndex_from p l i < i + Z.of_nat (List.length l))%Z.
Proof.
  revert i; induction l as [|a l IH]; intros i; [left; reflexivity|].
  cbn [findIndex_from List.length]. destruct (p a).
  - right. lia.
  - destruct (IH (i + 1)%Z) as [H|H]; [left; exact H | right; lia].
Qed.

Lemma filter_index_from_splice {A} (l : list A) (k target : nat) :
  k <= target ->
  filter_index_from (fun i => negb (Nat.eqb i target)) l k
  = firstn (target - k) l ++ skipn (S (target - k)) l.
Proof.
  revert k; induction l as [|a l IH]; intros k Hk.
  - destruct (target - k); reflexivity.
  - cbn [filter_index_from]. destruct (Nat.eqb k target) eqn:E; cbn [negb].
    + apply Nat.eqb_eq in E. subst k. rewrite Nat.sub_diag. cbn [firstn skipn app].
      clear IH Hk. generalize (Nat.lt_succ_diag_r target).
      generalize (S target) as j. revert target.
      induction l as [|b l IH]; intros target j Hj; [reflexivity|].
      cbn [filter_index_from].
      destruct (Nat.eqb j target) eqn:E; [apply Nat.eqb_eq in E; lia|].
      cbn [negb]. f_equal. apply IH. lia.
    + apply Nat.eqb_neq in E.
      replace (target - k) with (S (target - S k)) by lia.
      cbn [firstn skipn app]. f_equal. apply IH. lia.
Qed.

(** Extra X26. [activeSuggestion] stays an index of [commandSuggestions]
    or -1: from a state where it is, the effect on [value] and every key
    event leave it so, and [handleKeyDown] never reads
    [commandSuggestions] outside its bounds, so that Tab and Enter never
    throw on [selectedCommand.prefix]. *)
Theorem suggestion_index_stays_in_range (key : jsstring) (shiftKey : bool) (st : state) :
  palette_in_range st ->
  palette_in_range (on_value_change st)
  /\ exists st' effects,
       handleKeyDown key shiftKey st = Some (st', effects) /\ palette_in_range st'.
Proof.
  unfold palette_in_range. intros Hr.
  assert (Hlen : length_of_suggestions = 4%Z) by reflexivity.
  split.
  - unfold on_value_change.
    destruct (Formatter.startsWith (lit "/") (value st)
              && negb (Formatter.includes (lit " ") (value st))); cbn [activeSuggestion].
    + unfold findIndex.
      destruct (findIndex_from_range
                  (fun cmd => Formatter.startsWith (value st) (prefix cmd))
                  commandSuggestions 0) as [H|H].
      * rewrite H. simpl. lia.
      * change (Z.of_nat (List.length commandSuggestions)) with 4%Z in H.
        destruct (Z.leb_spec 0 (findIndex_from
                                  (fun cmd => Formatter.startsWith (value st) (prefix cmd))
                                  commandSuggestions 0)); lia.
    + exact Hr.
  - unfold handleKeyDown. rewrite Hlen in *.
    destruct (showCommandPalette st).
    + destruct (str_eqb key (lit "ArrowDown")).
      { eexists _, _. split; [reflexivity|]. cbn [activeSuggestion].
        destruct (Z.ltb_spec (activeSuggestion st) (4 - 1)); lia. }
      destruct (str_eqb key (lit "ArrowUp")).
      { eexists _, _. split; [reflexivity|]. cbn [activeSuggestion].
        destruct (Z.ltb_spec 0 (activeSuggestion st)); lia. }
      destruct (str_eqb key (lit "Tab") || str_eqb key (lit "Enter")).
      { destruct (Z.leb_spec 0 (activeSuggestion st)).
        - destruct (nth_error commandSuggestions (Z.to_nat (activeSuggestion st)))
            as [selectedCommand|] eqn:Hn.
          + eexists _, _. split; [reflexivity|]. cbn [activeSuggestion]. lia.
          + apply nth_error_None in Hn.
            change (List.length commandSuggestions) with 4 in Hn. lia.
        - eexists _, _. split; [reflexivity|]. lia. }
      destruct (str_eqb key (lit "Escape")).
      { eexists _, _. split; [reflexivity|]. cbn [activeSuggestion]. lia. }
      eexists _, _. split; [reflexivity|]. lia.
    + destruct (str_eqb key (lit "Enter") && negb shiftKey);
        [destruct (str_truthy (trim (value st)))|];
        eexists _, _; (split; [reflexivity|]); lia.
Qed.

Lemma suggestion_index_stays_in_range_witness :
  let st := {| value := lit "/fi"; showCommandPalette := true; activeSuggestion := 3;
               recentCommand := None |} in
  palette_in_range (on_value_change st)
  /\ exists st' effects,
       handleKeyDown (lit "ArrowDown") false st = Some (st', effects)
       /\ palette_in_range st'.
Proof.
  apply (@suggestion_index_stays_in_range (lit "ArrowDown") false
           {| value := lit "/fi"; showCommandPalette := true; activeSuggestion := 3;
              recentCommand := None |}).
  unfold palette_in_range. cbn. lia.
Defined.

(** Extra X27. [removeAttachment] removes exactly the attachment at the
    index it is given and keeps the others in their order; an index
    outside the list leaves the list as it is. *)
Theorem removeAttachment_removes_one (index : nat) (prev : list jsstring) :
  removeAttachment index prev = firstn index prev ++ skipn (S index) prev
  /\ (List.length prev <= index -> removeAttachment index prev = prev)
  /\ (index < List.length prev ->
      S (List.length (removeAttachment index prev)) = List.length prev).
Proof.
  assert (E : removeAttachment index prev = firstn index prev ++ skipn (S index) prev).
  { unfold removeAttachment. rewrite filter_index_from_splice by lia.
    rewrite Nat.sub_0_r. reflexivity. }
  split; [exact E|]. rewrite E. split; intros H.
  - rewrite firstn_all2 by lia. rewrite skipn_all2 by lia. apply app_nil_r.
  - rewrite length_app, length_firstn, length_skipn. lia.
Qed.

Lemma removeAttachment_removes_one_witness :
  S (List.length (removeAttachment 1 [lit "a.pdf"; lit "b.pdf"; lit "c.pdf"])) = 3.
Proof.
  apply (proj2 (proj2 (@removeAttachment_removes_one 1
                         [lit "a.pdf"; lit "b.pdf"; lit "c.pdf"]))).
  simpl. lia.
Defined.

End PaletteFacts.

(** ** Export and tank capacity *)

Lemma try_catch_relabel_rejects_with_Error {A} (c : async A) (timed_out failed : string)
      (log : list io) (x : thrown) :
  fst (try_catch c (relabel timed_out failed) log) = Rejected x -> exists e, x = Err e.
Proof.
  unfold try_catch. destruct (c log) as [[v|y] l]; [discriminate|].
  unfold relabel, throw.
  destruct y as [e|t]; [destruct (str_eqb (message e) (lit "Request timeout"))|];
    cbn [fst]; intros H; injection H as <-; eexists; reflexivity.
Qed.

Lemma catching_functions_reject_with_Error (host : Host) (env : nat -> attempt_env)
      (log : list io) (x : thrown) :
  (forall input,
      fst (processNaturalLanguageQuery host env input log) = Rejected x -> exists e, x = Err e)
  /\ (forall request,
      fst (getETPTankCapacity host env request log) = Rejected x -> exists e, x = Err e)
  /\ (forall request,
      fst (exportQueryResults host env request log) = Rejected x -> exists e, x = Err e).
Proof.
  repeat split; intros r;
    unfold processNaturalLanguageQuery, getETPTankCapacity, exportQueryResults;
    match goal with |- context [if ?b then _ else _] => destruct b end;
    try apply try_catch_relabel_rejects_with_Error;
    unfold throw; cbn [fst]; intros H; injection H as <-; eexists; reflexivity.
Qed.

Module PanelFacts.

Import Panel.

(** What the [try] block of [handleExportToSheets] makes of the value the
    call resolved with. *)
Lemma export_resolved_cases (host : Host) (messageIndex : nat) (result : json)
      (st : state) :
  (exists v url,
      get host result (lit "success") = Resolved (Some v) /\ truthy v = true
      /\ get host result (lit "sheet_url") = Resolved (Some url) /\ truthy url = true
      /\ export_resolved host messageIndex result st
         = Resolved (setExportSuccess (Some (messageIndex, url)) st,
                     [window_open url; later clear_export_success 5000]))
  \/ ((forall v url,
          get host result (lit "success") = Resolved (Some v) -> truthy v = true ->
          get host result (lit "sheet_url") = Resolved (Some url) -> truthy url = true ->
          False)
      /\ ((exists m,
              export_resolved host messageIndex result st
              = Resolved (setError (Some m) st, [later clear_error 5000]))
          \/ (exists e, export_resolved host messageIndex result st = Rejected (Err e)))).
Proof.
  unfold export_resolved, get.
  destruct result as [| | | | |fields];
    try (right; split; [intros v url H; discriminate H|];
         first [ left; eexists; reflexivity | right; eexists; reflexivity ]).
  destruct (lookup (lit "success") fields) as [success|] eqn:Hs.
  2:{ right. split; [intros v url H; discriminate H|]. left. eexists. reflexivity. }
  destruct (truthy success) eqn:Ht.
  2:{ right. split; [intros v url H Hv; injection H as <-; congruence|].
      left. eexists. reflexivity. }
  destruct (lookup (lit "sheet_url") fields) as [url|] eqn:Hu.
  2:{ right. split; [intros v url _ _ H; discriminate H|]. left. eexists. reflexivity. }
  destruct (truthy url) eqn:Htu.
  2:{ right. split; [intros v url' _ _ H Hv; injection H as <-; congruence|].
      left. eexists. reflexivity. }
  left. exists success, url. repeat split; assumption.
Qed.

(** Extra X28. [handleExportToSheets] ends in one of two ways. Either a
    sheet was opened: [exportQueryResults] resolved with a value whose
    [success] and [sheet_url] are truthy, that [sheet_url] is the url
    that is opened and recorded with the message's index, no error is
    shown, and the record is cleared after 5000 ms. Or an error text is
    shown, cleared after 5000 ms, and nothing is opened. Without
    [raw_data] the error is the local one and the log is untouched;
    otherwise [exportingToSheets] is back to [null] at the end, a value
    with truthy [success] and [sheet_url] always opens the sheet, and
    when [exportQueryResults] rejects, the text shown is the message of
    the [Error] it rejected with. *)
Theorem export_ends_with_sheet_or_error
        (host : Host) (env : nat -> attempt_env) (messageIndex : nat)
        (queryData : QueryData) (st : state) (log : list io) :
  let request :=
    {| query := qd_query queryData;
       raw_data := qd_raw_data queryData;
       formatted_response :=
         match qd_formatted_response queryData with
         | Some f => if str_truthy f then f else lit ""
         | None => lit ""
         end |} in
  let settled_call := fst (exportQueryResults host env request log) in
  let out := handleExportToSheets host env messageIndex queryData st log in
  let st' := fst (fst out) in
  let effects := snd (fst out) in
  ((exists result v url,
      settled_call = Resolved result
      /\ get host result (lit "success") = Resolved (Some v) /\ truthy v = true
      /\ get host result (lit "sheet_url") = Resolved (Some url) /\ truthy url = true
      /\ effects = [window_open url; later clear_export_success 5000]
      /\ exportSuccess st' = Some (messageIndex, url)
      /\ error st' = None)
   \/ (exists m, effects = [later clear_error 5000]
      /\ error st' = Some m
      /\ exportSuccess st' = exportSuccess st))
  /\ (absent_or_falsy (qd_raw_data queryData) ->
      out = (setError (Some (JStr (lit "No data available to export"))) st,
             [later clear_error 5000], log))
  /\ (~ absent_or_falsy (qd_raw_data queryData) ->
      exportingToSheets st' = None
      /\ (forall result v url,
             settled_call = Resolved result ->
             get host result (lit "success") = Resolved (Some v) -> truthy v = true ->
             get host result (lit "sheet_url") = Resolved (Some url) -> truthy url = true ->
             effects = [window_open url; later clear_export_success 5000]
             /\ exportSuccess st' = Some (messageIndex, url))
      /\ (forall x,
             settled_call = Rejected x ->
             exists e, x = Err e /\ error st' = Some (JStr (message e)))).
Proof.
  cbv zeta. unfold handleExportToSheets, absent_or_falsy.
  destruct (qd_raw_data queryData) as [raw|] eqn:Hraw.
  2:{ split; [right; eexists; repeat split|].
      split; [reflexivity|]. intros H. exfalso. apply H. left. reflexivity. }
  destruct (truthy raw) eqn:Htruthy.
  2:{ split; [right; eexists; repeat split|].
      split; [reflexivity|]. intros H. exfalso. apply H. right. exists raw. auto. }
  assert (Hpresent : Some raw = None \/ (exists v, Some raw = Some v /\ truthy v = false)
                     -> False).
  { intros [H|(v & H & Hv)]; [discriminate H | injection H as <-; congruence]. }
  match goal with
  | |- context [exportQueryResults host env ?r log] =>
      pose proof (fun x => proj2 (proj2 (catching_functions_reject_with_Error host env log x)))
        as Herr;
      destruct (exportQueryResults host env r log) as [[result|x] log'] eqn:Hcall
  end; cbn [fst snd].
  - destruct (export_resolved_cases host messageIndex result
                (setError None (setExportingToSheets (Some messageIndex) st)))
      as [(v & url & Hs & Hv & Hu & Htu & ->)|(Hnot & [(m & ->)|(e & ->)])];
      cbn [fst snd].
    + split; [left; exists result, v, url; repeat split; assumption|].
      split; [intros H; destruct (Hpresent H)|].
      intros _. split; [reflexivity|]. split.
      * intros result' v' url' Hr Hs' Hv' Hu' Htu'. injection Hr as <-.
        rewrite Hu in Hu'. injection Hu' as <-. split; reflexivity.
      * intros y Hy. discriminate Hy.
    + split; [right; exists m; repeat split|].
      split; [intros H; destruct (Hpresent H)|].
      intros _. split; [reflexivity|]. split.
      * intros result' v' url' Hr Hs' Hv' Hu' Htu'. injection Hr as <-.
        destruct (Hnot v' url' Hs' Hv' Hu' Htu').
      * intros y Hy. discriminate Hy.
    + split; [right; eexists; repeat split|].
      split; [intros H; destruct (Hpresent H)|].
      intros _. split; [reflexivity|]. split.
      * intros result' v' url' Hr Hs' Hv' Hu' Htu'. injection Hr as <-.
        destruct (Hnot v' url' Hs' Hv' Hu' Htu').
      * intros y Hy. discriminate Hy.
  - split; [right; eexists; repeat split|].
    split; [intros H; destruct (Hpresent H)|].
    intros _. split; [reflexivity|]. split.
    + intros result' v' url' Hr. discriminate Hr.
    + intros y Hy. injection Hy as <-.
      destruct (Herr x _ (f_equal fst Hcall)) as (e & ->).
      exists e. split; reflexivity.
Qed.

Lemma export_ends_with_sheet_or_error_witness :
  let out :=
    handleExportToSheets sample_host
      (always (responds (success (JObj [(lit "success", JBool true);
                                        (lit "sheet_url", JStr (lit "https://sheet"))])))
              Abort.quiet)
      2
      {| qd_query := lit "total"; qd_raw_data := Some (JArr []);
         qd_formatted_response := None |}
      {| error := None; exportingToSheets := None; exportSuccess := None;
         isLoadingETP := false; etpData := None; showETPModal := false;
         etpDate := lit ""; etpInletValue := lit "" |}
      [] in
  snd (fst out) = [window_open (JStr (lit "https://sheet")); later clear_export_success 5000]
  /\ exportSuccess (fst (fst out)) = Some (2, JStr (lit "https://sheet")).
Proof.
  cbv zeta.
  destruct (@export_ends_with_sheet_or_error sample_host
           (always (responds (success (JObj [(lit "success", JBool true);
                                             (lit "sheet_url", JStr (lit "https://sheet"))])))
                   Abort.quiet)
           2
           {| qd_query := lit "total"; qd_raw_data := Some (JArr []);
              qd_formatted_response := None |}
           {| error := None; exportingToSheets := None; exportSuccess := None;
              isLoadingETP := false; etpData := None; showETPModal := false;
              etpDate := lit ""; etpInletValue := lit "" |}
           []) as (_ & _ & H).
  destruct H as (_ & Hopen & _).
  - intros [H|(v & H & Hv)]; [discriminate H|].
    injection H as <-. discriminate Hv.
  - apply (Hopen (JObj [(lit "success", JBool true);
                        (lit "sheet_url", JStr (lit "https://sheet"))])
                 (JBool true) (JStr (lit "https://sheet")));
      reflexivity.
Defined.

(** Extra X29. [handleETPSubmit] ends in one of two ways. Either the
    response had a truthy [success]: it becomes [etpData], the modal is
    closed, no error is shown and no timer is set. Or an error text is
    shown, cleared after 5000 ms, and the modal and the earlier data stay
    as they were. With an empty date or value the log is untouched and
    [isLoadingETP] is not set; otherwise [isLoadingETP] is back to
    [false] at the end, a value that [parseFloat] turns into 0 or NaN is
    refused without a network call, and when [getETPTankCapacity]
    rejects, the text shown is the message of the [Error] it rejected
    with. *)
Theorem tank_submit_ends_with_data_or_error
        (host : Host) (parseFloat : jsstring -> float) (env : nat -> attempt_env)
        (st : state) (log : list io) :
  let request := {| date := etpDate st;
                    etp_inlet_tank_value := parseFloat (etpInletValue st);
                    sheet_id := None |} in
  let out := handleETPSubmit host parseFloat env st log in
  let st' := fst (fst out) in
  let effects := snd (fst out) in
  ((exists result v,
      fst (getETPTankCapacity host env request log) = Resolved result
      /\ get host result (lit "success") = Resolved (Some v) /\ truthy v = true
      /\ etpData st' = Some result /\ showETPModal st' = false
      /\ error st' = None /\ effects = [])
   \/ (exists m, effects = [later clear_error 5000]
      /\ error st' = Some m
      /\ etpData st' = etpData st /\ showETPModal st' = showETPModal st))
  /\ (etpDate st = [] \/ etpInletValue st = [] ->
      out = (setError (Some (JStr (lit "Please enter both date and ETP Inlet tank value"))) st,
             [later clear_error 5000], log))
  /\ (etpDate st <> [] -> etpInletValue st <> [] ->
      isLoadingETP st' = false
      /\ (number_truthy (parseFloat (etpInletValue st)) = false ->
          snd out = log
          /\ error st' = Some (JStr (lit "Date and ETP Inlet tank value are required")))
      /\ forall x,
          fst (getETPTankCapacity host env request log) = Rejected x ->
          exists e, x = Err e /\ error st' = Some (JStr (message e))).
Proof.
  cbv zeta. unfold handleETPSubmit.
  destruct (etpDate st) as [|d date'] eqn:Hdate.
  { split; [right; eexists; repeat split|].
    split; [reflexivity|]. intros H; exfalso; apply H; reflexivity. }
  destruct (etpInletValue st) as [|c value'] eqn:Hvalue.
  { split; [right; eexists; repeat split|].
    split; [reflexivity|]. intros _ H; exfalso; apply H; reflexivity. }
  cbn [str_truthy negb orb].
  cbn [etpDate etpInletValue setError setIsLoadingETP]. rewrite Hdate, Hvalue.
  pose proof (fun x => proj1 (proj2 (catching_functions_reject_with_Error host env log x)))
    as Herr.
  assert (Hlocal : number_truthy (parseFloat (c :: value')) = false ->
                   getETPTankCapacity host env
                     {| date := d :: date';
                        etp_inlet_tank_value := parseFloat (c :: value');
                        sheet_id := None |} log
                   = (Rejected (Err (Error (lit "Date and ETP Inlet tank value are required"))),
                      log)).
  { intros Hv. unfold getETPTankCapacity. cbn [date etp_inlet_tank_value].
    rewrite Hv. reflexivity. }
  destruct (getETPTankCapacity host env
              {| date := d :: date'; etp_inlet_tank_value := parseFloat (c :: value');
                 sheet_id := None |} log) as [[result|x] log'] eqn:Hcall.
  - unfold get.
    destruct result as [| | | | |fields]; cbn [fst snd];
      try (split; [right; eexists; repeat split|];
           split; [intros [H|H]; discriminate H|];
           intros _ _; split; [reflexivity|];
           split; [intros Hv; discriminate (Hlocal Hv)|];
           intros y Hy; discriminate Hy).
    destruct (lookup (lit "success") fields) as [success|] eqn:Hs;
      [destruct (truthy success) eqn:Ht|]; cbn [fst snd];
      try (split; [right; eexists; repeat split|];
           split; [intros [H|H]; discriminate H|];
           intros _ _; split; [reflexivity|];
           split; [intros Hv; discriminate (Hlocal Hv)|];
           intros y Hy; discriminate Hy).
    split; [left; exists (JObj fields), success; cbn [get]; rewrite Hs; repeat split;
            assumption|].
    split; [intros [H|H]; discriminate H|].
    intros _ _; split; [reflexivity|].
    split; [intros Hv; discriminate (Hlocal Hv)|].
    intros y Hy; discriminate Hy.
  - cbn [fst snd].
    split; [right; eexists; repeat split|].
    split; [intros [H|H]; discriminate H|].
    intros _ _; split; [reflexivity|].
    split.
    + intros Hv. injection (Hlocal Hv) as -> ->.
      split; reflexivity.
    + intros y Hy. injection Hy as <-.
      destruct (Herr x _ (f_equal fst Hcall)) as (e & ->).
      exists e. split; reflexivity.
Qed.

Lemma tank_submit_ends_with_data_or_error_witness :
  let st := {| error := None; exportingToSheets := None; exportSuccess := None;
               isLoadingETP := false; etpData := None; showETPModal := true;
               etpDate := lit "2024-12-12"; etpInletValue := lit "abc" |} in
  let out := handleETPSubmit sample_host (fun _ => PrimFloat.nan)
               (always (responds (success JNull)) Abort.quiet) st [] in
  snd out = []
  /\ error (fst (fst out)) = Some (JStr (lit "Date and ETP Inlet tank value are required")).
Proof.
  cbv zeta.
  apply (@tank_submit_ends_with_data_or_error sample_host (fun _ => PrimFloat.nan)
           (always (responds (success JNull)) Abort.quiet)
           {| error := None; exportingToSheets := None; exportSuccess := None;
              isLoadingETP := false; etpData := None; showETPModal := true;
              etpDate := lit "2024-12-12"; etpInletValue := lit "abc" |} []).
  - discriminate.
  - discriminate.
  - reflexivity.
Defined.

End PanelFacts.

(** ** The query test page *)

Module QueryPageFacts.

Import QueryPage.

(** Extra X30. [handleQuery] does nothing at all for a query that is
    empty or only whitespace: state and log are untouched. Otherwise it
    ends with [loading] false and the query unchanged, after the
    transport calls of [processNaturalLanguageQuery] and no others, in
    one of two ways. When the call resolves, [result] is the value it
    resolved with and no error is shown; that value is [null] when the
    response body is [null], and then neither a result nor an error is
    there to show. When the call rejects, [result] is [null] and the
    error shown is the message of the [Error] it rejected with: the
    fallback text of the [catch] block is never what is shown. *)
Theorem query_shows_result_or_error
        (host : Host) (env : nat -> attempt_env) (st : state) (log : list io) :
  let call := processNaturalLanguageQuery host env (query st) log in
  let out := handleQuery host env st log in
  (forallb is_whitespace (query st) = true -> out = (st, log))
  /\ (forallb is_whitespace (query st) = false ->
      loading (fst out) = false /\ query (fst out) = query st /\ snd out = snd call
      /\ ((exists response, fst call = Resolved response
             /\ result (fst out) = response /\ error (fst out) = None)
          \/ (exists e, fst call = Rejected (Err e)
             /\ result (fst out) = JNull /\ error (fst out) = Some (message e))))
  /\ (forall response,
        env 0 = {| network := responds response; caller_signal := Abort.quiet |} ->
        ok response = true -> body response = Resolved JNull ->
        forallb is_whitespace (query st) = false ->
        result (fst (handleQuery host env st [])) = JNull
        /\ error (fst (handleQuery host env st [])) = None).
Proof.
  cbv zeta. unfold handleQuery. split; [|split].
  - intros Hq. apply trim_whitespace in Hq. rewrite Hq. reflexivity.
  - intros Hq.
    destruct (trim (query st)) eqn:Ht; [apply trim_nil_iff in Ht; congruence|].
    cbn [str_truthy negb].
    pose proof (fun x => proj1 (catching_functions_reject_with_Error host env log x)
                           (query st)) as Herr.
    destruct (processNaturalLanguageQuery host env (query st) log)
      as [[response|x] log'] eqn:Hcall; cbn [fst snd loading query result error].
    + repeat split. left. exists response. repeat split.
    + destruct (Herr x eq_refl) as (e & ->).
      repeat split. right. exists e. repeat split.
  - intros response He Hok Hbody Hq.
    destruct (trim (query st)) eqn:Ht; [apply trim_nil_iff in Ht; congruence|].
    cbn [str_truthy negb].
    assert (Hres : forall url m,
               fst (run (fetchWithRetry host env url (no_signal m) MAX_RETRIES))
               = Resolved response).
    { intros url m.
      destruct (@fetchWithRetry_resolves host env url (no_signal m)
                  MAX_RETRIES 0 response) as (l & Hrun & _); auto.
      - lia.
      - intros i Hi. lia.
      - rewrite He. reflexivity.
      - rewrite Hrun. reflexivity. }
    destruct (@catching_functions_return_body host env response Hres JNull Hok Hbody)
      as (_ & Hq' & _).
    specialize (Hq' (query st) Hq). unfold run in Hq'.
    destruct (processNaturalLanguageQuery host env (query st) [])
      as [s log'] eqn:Hcall. cbn [fst] in Hq'. subst s.
    split; reflexivity.
Qed.

Lemma query_shows_result_or_error_witness :
  let st := {| query := lit "total"; result := JStr (lit "stale"); loading := false;
               error := None |} in
  let out := handleQuery sample_host (always (responds (success JNull)) Abort.quiet) st [] in
  result (fst out) = JNull /\ error (fst out) = None.
Proof.
  cbv zeta.
  destruct (@query_shows_result_or_error sample_host
              (always (responds (success JNull)) Abort.quiet)
              {| query := lit "total"; result := JStr (lit "stale"); loading := false;
                 error := None |} []) as (_ & _ & H).
  apply (H (success JNull)); reflexivity.
Defined.

End QueryPageFacts.
